(** * Wellness application: heuristic classifiers, history buffer and task routes

  A shallow embedding of the TypeScript sources

  - [client/src/lib/lightweightPoseDetection.ts] ([analyzePosture]),
  - [client/src/lib/faceDetection.ts] ([detectSmile], [classifyMood],
    [generateEncouragement], [analyzeMood]),
  - [client/src/lib/lightweightFaceDetection.ts] ([detectEmotion]),
  - [client/src/components/CameraTools.tsx] (the rolling history),
  - [server/routes.ts] and [shared/taskSchema.ts] (the task and AI routes),

  followed by the properties of these functions.

  JavaScript numbers are IEEE 754 binary64 values and are modelled by Rocq's
  primitive floats, so comparisons with NaN are false here as they are in the
  source.  The posture score only ever takes integer values (100 minus fixed
  integer penalties) and is modelled in [Z]. *)

From Stdlib Require Import PrimFloat Uint63 FloatOps SpecFloat ZArith List String Ascii Bool Lia.
From stdpp Require Import base option list gmap strings.

Set Warnings "-inexact-float,-register-all".
Local Open Scope string_scope.
Local Open Scope list_scope.

(* ===================================================================== *)
(** * Part I: definitions *)
(* ===================================================================== *)

(** ** JavaScript built-ins used by the sources *)

Module JS.

(** [a < b] and [a > b] on numbers. *)
Definition lt (a b : float) : bool := PrimFloat.ltb a b.
Definition gt (a b : float) : bool := PrimFloat.ltb b a.

Definition Math_abs (a : float) : float := PrimFloat.abs a.
Definition Math_sqrt (a : float) : float := PrimFloat.sqrt a.
(** [Math.pow(a, 2)]. *)
Definition Math_pow2 (a : float) : float := PrimFloat.mul a a.

(** [Math.floor] on a number, as an integer; [None] for NaN and the
    infinities, which [Math.floor] returns unchanged. *)
Definition Math_floor (a : float) : option Z :=
  match Prim2SF a with
  | S754_zero _ => Some 0%Z
  | S754_finite s m e => Some (Z.shiftl (if s then Z.neg m else Z.pos m) e)
  | S754_infinity _ | S754_nan => None
  end.

(** The number denoted by an array length. *)
Definition of_nat (n : nat) : float :=
  PrimFloat.of_uint63 (Uint63.of_Z (Z.of_nat n)).

(** [s.includes(sub)]: [sub] occurs in [s] as a contiguous substring. *)
Fixpoint includes (s sub : string) : bool :=
  if String.prefix sub s then true
  else match s with
       | EmptyString => false
       | String _ s' => includes s' sub
       end.

(** [xs.slice(-n)]: the last [n] elements, all of them when there are
    fewer. *)
Definition slice_last {A} (n : nat) (xs : list A) : list A :=
  skipn (length xs - n) xs.

(** [xs[xs.length - 1]]. *)
Definition last_entry {A} (xs : list A) : option A :=
  match xs with
  | [] => None
  | _ => nth_error xs (length xs - 1)
  end.

(** The outcome of evaluating code that may throw: a value, or a thrown
    error with its [message]. *)
Inductive completion (A : Type) : Type :=
| Normal (a : A)
| Throw (message : string).
Arguments Normal {A} a.
Arguments Throw {A} message.

Definition bind {A B} (c : completion A) (k : A -> completion B) : completion B :=
  match c with
  | Normal a => k a
  | Throw m => Throw m
  end.

(** Reading a property of [o]; of [undefined] it throws a [TypeError]. *)
Definition prop {O A} (f : O -> A) (o : option O) : completion A :=
  match o with
  | Some v => Normal (f v)
  | None => Throw "TypeError: Cannot read properties of undefined"
  end.

End JS.

Notation "'let*' x ':=' c 'in' k" := (JS.bind c (fun x => k))
(at level 10, x name, c at level 100, k at level 200).



(** ** Posture analysis ([lightweightPoseDetection.ts]) *)

Module Pose.

(** A keypoint of the pose model: pixel coordinates, an optional
    confidence and an optional name. *)
Record Keypoint := mkKeypoint {
  kp_x : float;
  kp_y : float;
  kp_score : option float;
  kp_name : option string
}.

Record Pose := mkPose {
  keypoints : list Keypoint;
  pose_score : option float
}.

(** [PostureStatus]; [status] is a string at run time, its TypeScript type
    is a union of five literals. *)
Record PostureStatus := mkPostureStatus {
  status : string;
  score : Z;
  issues : list string
}.

(** [keypoints.find(kp => kp.name === name)]. *)
Definition find_named (name : string) (kps : list Keypoint) : option Keypoint :=
  List.find (fun kp => match kp_name kp with
                       | Some n => String.eqb n name
                       | None => false
                       end) kps.

(** [issues.some(i => i.includes(sub))]. *)
Definition some_includes (sub : string) (issues : list string) : bool :=
  existsb (fun i => JS.includes i sub) issues.

Definition no_pose : PostureStatus :=
  {| status := "good"; score := 0%Z; issues := ["No pose detected"] |}.

Definition insufficient : PostureStatus :=
  {| status := "good"; score := 0%Z; issues := ["Insufficient keypoints detected"] |}.

(** [analyzePosture(poses)]; [None] stands for a null [poses]. The source
    mutates [issues] and [score]; here each conditional returns the
    updated pair. *)
Definition analyzePosture (poses : option (list Pose)) : PostureStatus :=
  match poses with
  | None | Some [] => no_pose
  | Some (pose :: _) =>
      let keypoints := keypoints pose in
      let issues : list string := [] in
      let score : Z := 100%Z in
      match find_named "nose" keypoints,
            find_named "left_shoulder" keypoints,
            find_named "right_shoulder" keypoints,
            find_named "left_hip" keypoints,
            find_named "right_hip" keypoints with
      | Some nose, Some leftShoulder, Some rightShoulder, Some leftHip, Some rightHip =>
          (* Check shoulder alignment (slouching) *)
          let shoulderMidY := ((kp_y leftShoulder + kp_y rightShoulder) / 2)%float in
          let hipMidY := ((kp_y leftHip + kp_y rightHip) / 2)%float in
          let torsoLength := JS.Math_abs (shoulderMidY - hipMidY)%float in
          let '(issues, score) :=
            if JS.lt torsoLength 150
            then (issues ++ ["Slouching detected"], score - 30)%Z
            else (issues, score) in
          (* Check shoulder level (leaning) *)
          let shoulderDiff := JS.Math_abs (kp_y leftShoulder - kp_y rightShoulder)%float in
          let '(issues, score) :=
            if JS.gt shoulderDiff 20
            then if JS.gt (kp_y leftShoulder) (kp_y rightShoulder)
                 then (issues ++ ["Leaning left"], score - 20)%Z
                 else (issues ++ ["Leaning right"], score - 20)%Z
            else (issues, score) in
          (* Check forward head posture *)
          let shoulderMidX := ((kp_x leftShoulder + kp_x rightShoulder) / 2)%float in
          let headForward := JS.Math_abs (kp_x nose - shoulderMidX)%float in
          let '(issues, score) :=
            if JS.gt headForward 30
            then (issues ++ ["Forward head posture"], score - 25)%Z
            else (issues, score) in
          (* Determine status *)
          let status :=
            if some_includes "Slouching" issues then "slouching"
            else if some_includes "Leaning left" issues then "leaning_left"
            else if some_includes "Leaning right" issues then "leaning_right"
            else if some_includes "Forward head" issues then "forward_head"
            else "good" in
          {| status := status;
             score := Z.max 0 score;
             issues := match issues with [] => [] | _ => issues end |}
      | _, _, _, _, _ => insufficient
      end
  end.

(** The five labels of the [PostureStatus] type. *)
Definition postureLabels : list string :=
  ["good"; "slouching"; "leaning_left"; "leaning_right"; "forward_head"].

(** *** The measured quantities, in the words of the specification *)

(** The five keypoints the analysis needs. *)
Record Body := mkBody {
  b_nose : Keypoint;
  b_leftShoulder : Keypoint;
  b_rightShoulder : Keypoint;
  b_leftHip : Keypoint;
  b_rightHip : Keypoint
}.

(** The keypoints [analyzePosture] reads from the first pose, when all five
    are present. *)
Definition body_of (pose : Pose) : option Body :=
  match find_named "nose" (keypoints pose),
        find_named "left_shoulder" (keypoints pose),
        find_named "right_shoulder" (keypoints pose),
        find_named "left_hip" (keypoints pose),
        find_named "right_hip" (keypoints pose) with
  | Some n, Some ls, Some rs, Some lh, Some rh => Some (mkBody n ls rs lh rh)
  | _, _, _, _, _ => None
  end.

(** Vertical distance between the shoulder midpoint and the hip midpoint. *)
Definition torso_length (b : Body) : float :=
  PrimFloat.abs ((kp_y (b_leftShoulder b) + kp_y (b_rightShoulder b)) / 2
                 - (kp_y (b_leftHip b) + kp_y (b_rightHip b)) / 2)%float.

(** Vertical difference between the two shoulders. *)
Definition shoulder_difference (b : Body) : float :=
  PrimFloat.abs (kp_y (b_leftShoulder b) - kp_y (b_rightShoulder b))%float.

(** The left shoulder is lower on screen (larger y) than the right one. *)
Definition left_shoulder_lower (b : Body) : bool :=
  PrimFloat.ltb (kp_y (b_rightShoulder b)) (kp_y (b_leftShoulder b)).

(** Horizontal distance from the nose to the shoulder midpoint. *)
Definition head_offset (b : Body) : float :=
  PrimFloat.abs (kp_x (b_nose b)
                 - (kp_x (b_leftShoulder b) + kp_x (b_rightShoulder b)) / 2)%float.

(** The three flags of the specification. *)
Definition is_slouching (b : Body) : bool := PrimFloat.ltb (torso_length b) 150.
Definition is_leaning (b : Body) : bool := PrimFloat.ltb 20 (shoulder_difference b).
Definition is_forward_head (b : Body) : bool := PrimFloat.ltb 30 (head_offset b).

(** The status chosen by the precedence slouching, leaning left, leaning
    right, forward head. *)
Definition status_by_precedence (slouch lean leftLower forward : bool) : string :=
  if slouch then "slouching"
  else if lean && leftLower then "leaning_left"
  else if lean then "leaning_right"
  else if forward then "forward_head"
  else "good".

(** The score: 100 minus 30, 20 and 25 for the respective flags, not below
    zero. *)
Definition score_by_penalties (slouch lean forward : bool) : Z :=
  (Z.max 0 (100 - (if slouch then 30 else 0) - (if lean then 20 else 0)
               - (if forward then 25 else 0)))%Z.

(** The issue list in the order the checks run. *)
Definition issues_by_flags (slouch lean leftLower forward : bool) : list string :=
  (if slouch then ["Slouching detected"] else [])
  ++ (if lean then [if leftLower then "Leaning left" else "Leaning right"] else [])
  ++ (if forward then ["Forward head posture"] else []).

(** The label and result as a function of the three measured quantities
    (and of which shoulder is lower). *)
Definition posture_of (torso diff : float) (leftLower : bool) (head : float)
  : PostureStatus :=
  let slouch := PrimFloat.ltb torso 150 in
  let lean := PrimFloat.ltb 20 diff in
  let forward := PrimFloat.ltb 30 head in
  {| status := status_by_precedence slouch lean leftLower forward;
     score := score_by_penalties slouch lean forward;
     issues := issues_by_flags slouch lean leftLower forward |}.

End Pose.

(** ** Mood classification from face landmarks ([faceDetection.ts]) *)

Module Face.

Record FaceLandmark := mkLandmark {
  lm_x : float;
  lm_y : float;
  lm_z : float
}.

(** A blendshape category and the classification holding them, as the
    face landmarker returns them. *)
Record Category := mkCategory {
  categoryName : string;
  cat_score : float
}.

Record Classifications := mkClassifications {
  categories : list Category
}.

(** [MoodResult]; [encouragement] is [None] when the indexed read of the
    message pool yields [undefined]. *)
Record MoodResult := mkMoodResult {
  mood : string;
  confidence : float;
  isSmiling : bool;
  encouragement : option string
}.

(** The five literals of [MoodType]. *)
Definition moodLabels : list string :=
  ["Happy"; "Neutral"; "Sad"; "Stressed"; "Analyzing..."].

(** [detectSmile(landmarks)]; [None] stands for a null argument. *)
Definition detectSmile (landmarks : option (list FaceLandmark)) : JS.completion bool :=
  match landmarks with
  | None => JS.Normal false
  | Some landmarks =>
      if (length landmarks <? 468)%nat then JS.Normal false
      else
        let leftMouthCorner := landmarks !! 61%nat in
        let rightMouthCorner := landmarks !! 291%nat in
        let upperLipCenter := landmarks !! 13%nat in
        let lowerLipCenter := landmarks !! 14%nat in
        let noseTip := landmarks !! 1%nat in
        (* mouth width *)
        let* rx := JS.prop lm_x rightMouthCorner in
        let* lx := JS.prop lm_x leftMouthCorner in
        let* ry := JS.prop lm_y rightMouthCorner in
        let* ly := JS.prop lm_y leftMouthCorner in
        let mouthWidth :=
          JS.Math_sqrt (JS.Math_pow2 (rx - lx) + JS.Math_pow2 (ry - ly))%float in
        (* mouth height *)
        let* ux := JS.prop lm_x upperLipCenter in
        let* wx := JS.prop lm_x lowerLipCenter in
        let* uy := JS.prop lm_y upperLipCenter in
        let* wy := JS.prop lm_y lowerLipCenter in
        let mouthHeight :=
          JS.Math_sqrt (JS.Math_pow2 (ux - wx) + JS.Math_pow2 (uy - wy))%float in
        (* elevation of the mouth corners *)
        let* ly' := JS.prop lm_y leftMouthCorner in
        let* ry' := JS.prop lm_y rightMouthCorner in
        let mouthCenterY := ((ly' + ry') / 2)%float in
        let* ny := JS.prop lm_y noseTip in
        let mouthCornerElevation := (ny - mouthCenterY)%float in
        let widthToHeightRatio := (mouthWidth / mouthHeight)%float in
        let isSmiling :=
          JS.gt widthToHeightRatio 3.5 && JS.gt mouthCornerElevation 0.05 in
        JS.Normal isSmiling
  end.

(** The loop over [shapes] in [classifyMood], from index [i] on, with its
    early exit once both scores are positive. *)
Fixpoint scanShapes (shapes : list Category) (smileScore frownScore : float)
  : float * float :=
  match shapes with
  | [] => (smileScore, frownScore)
  | shape :: rest =>
      let '(smileScore, frownScore) :=
        if String.eqb (categoryName shape) "mouthSmile"
        then (cat_score shape, frownScore)
        else if String.eqb (categoryName shape) "mouthFrown"
             then (smileScore, cat_score shape)
             else (smileScore, frownScore) in
      if JS.gt smileScore 0 && JS.gt frownScore 0
      then (smileScore, frownScore)
      else scanShapes rest smileScore frownScore
  end.

(** [classifyMood(landmarks, blendshapes)]; [None] stands for a null
    [landmarks], respectively for an absent or null [blendshapes]. *)
Definition classifyMood (landmarks : option (list FaceLandmark))
    (blendshapes : option (list Classifications)) : JS.completion string :=
  match landmarks with
  | None => JS.Normal "Analyzing..."
  | Some lms =>
      if (length lms <? 10)%nat then JS.Normal "Analyzing..."
      else
        (* Fast smile detection first *)
        let* isSmiling := detectSmile landmarks in
        let fromShapes : option string :=
          match blendshapes with
          | Some (first :: _) =>
              let shapes := categories first in
              let '(smileScore, frownScore) := scanShapes shapes 0 0 in
              if JS.gt smileScore 0.3 then Some "Happy"
              else if JS.gt frownScore 0.3 then Some "Sad"
              else None
          | Some [] | None => None
          end in
        match fromShapes with
        | Some m => JS.Normal m
        | None =>
            if isSmiling then JS.Normal "Happy"
            else
              let fromEyebrows : option string :=
                if (300 <=? length lms)%nat then
                  match lms !! 70%nat, lms !! 300%nat, lms !! 1%nat, lms !! 152%nat with
                  | Some leftEyebrow, Some rightEyebrow, Some noseTip, Some chin =>
                      let eyebrowHeight := ((lm_y leftEyebrow + lm_y rightEyebrow) / 2)%float in
                      let faceHeight := JS.Math_abs (lm_y noseTip - lm_y chin)%float in
                      if JS.gt faceHeight 0 then
                        let eyebrowRatio := ((lm_y noseTip - eyebrowHeight) / faceHeight)%float in
                        if JS.lt eyebrowRatio 0.3 then Some "Stressed"
                        else if JS.lt eyebrowRatio 0.4 then Some "Sad"
                        else None
                      else None
                  | _, _, _, _ => None
                  end
                else None in
              match fromEyebrows with
              | Some m => JS.Normal m
              | None => JS.Normal "Neutral"
              end
        end
  end.

(** The message pools of [generateEncouragement]. *)
Definition encouragements : list (string * list string) :=
  [ ("Happy",
     [ "🌟 Amazing! Your smile is beautiful! Keep that positive energy flowing!";
       "😊 You're glowing! That smile looks great on you!";
       "✨ Wonderful! Your happiness is contagious!";
       "🎉 Perfect! You're radiating positive vibes!" ]);
    ("Neutral",
     [ "😊 Try giving us a smile! Even a forced smile releases endorphins!";
       "🌈 Come on, you can do it! A smile can change your whole mood!";
       "💪 Let's see that smile! Your brain will thank you for it!";
       "✨ Smile for me! It's scientifically proven to boost your mood!" ]);
    ("Sad",
     [ "🤗 I know it might be hard, but try smiling! It really helps!";
       "💙 Even a small smile can make a difference. You've got this!";
       "🌸 Smiling releases serotonin - give it a try, even if you don't feel like it!";
       "🌟 Your smile matters! Let's turn that frown upside down!" ]);
    ("Stressed",
     [ "🧘 Take a deep breath and smile! It'll help reduce stress hormones!";
       "💆 Relax those facial muscles and smile! You're doing great!";
       "🌺 A smile can lower cortisol levels. Give it a try!";
       "✨ Let go of that tension with a smile! You deserve to feel better!" ]);
    ("Analyzing...",
     [ "👀 Looking at your expression...";
       "🔍 Analyzing your mood...";
       "⏳ Just a moment, reading your face..." ]) ].

(** [encouragements[mood]]. *)
Fixpoint pool_of (mood : string) (pools : list (string * list string))
  : option (list string) :=
  match pools with
  | [] => None
  | (k, v) :: rest => if String.eqb k mood then Some v else pool_of mood rest
  end.

(** [generateEncouragement(mood)]; [random] is the value that
    [Math.random()] returns in this call. *)
Definition generateEncouragement (mood : string) (random : float) : option string :=
  let messages :=
    match pool_of mood encouragements with
    | Some m => m
    | None => default [] (pool_of "Neutral" encouragements)
    end in
  match JS.Math_floor (random * JS.of_nat (length messages))%float with
  | Some i => if (0 <=? i)%Z then messages !! Z.to_nat i else None
  | None => None
  end.

(** [analyzeMood(landmarks, blendshapes)], with the value drawn by
    [Math.random()] made explicit. *)
Definition analyzeMood (landmarks : option (list FaceLandmark))
    (blendshapes : option (list Classifications)) (random : float)
  : JS.completion MoodResult :=
  let* mood := classifyMood landmarks blendshapes in
  let* isSmiling := detectSmile landmarks in
  let* len := JS.prop (@length FaceLandmark) landmarks in
  let confidence := if (468 <=? len)%nat then 0.85%float else 0.5%float in
  JS.Normal {| mood := mood;
               confidence := confidence;
               isSmiling := isSmiling;
               encouragement := generateEncouragement mood random |}.

(** *** The quantities the landmark heuristics measure *)

(** The verdict of the blendshape scores, when they decide. *)
Definition shapes_verdict (blendshapes : option (list Classifications)) : option string :=
  match blendshapes with
  | Some (first :: _) =>
      let '(smileScore, frownScore) := scanShapes (categories first) 0 0 in
      if PrimFloat.ltb 0.3 smileScore then Some "Happy"
      else if PrimFloat.ltb 0.3 frownScore then Some "Sad"
      else None
  | Some [] | None => None
  end.

(** The eyebrow ratio: height of the eyebrows above the nose tip relative
    to the nose-to-chin distance; defined when the four landmarks exist and
    the face height is positive. *)
Definition eyebrow_ratio (lms : list FaceLandmark) : option float :=
  if (300 <=? length lms)%nat then
    match lms !! 70%nat, lms !! 300%nat, lms !! 1%nat, lms !! 152%nat with
    | Some leftEyebrow, Some rightEyebrow, Some noseTip, Some chin =>
        let faceHeight := PrimFloat.abs (lm_y noseTip - lm_y chin)%float in
        if PrimFloat.ltb 0 faceHeight
        then Some ((lm_y noseTip - (lm_y leftEyebrow + lm_y rightEyebrow) / 2)
                   / faceHeight)%float
        else None
    | _, _, _, _ => None
    end
  else None.

(** The label as a function of the eyebrow ratio. *)
Definition mood_of_ratio (eyebrowRatio : float) : string :=
  if PrimFloat.ltb eyebrowRatio 0.3 then "Stressed"
  else if PrimFloat.ltb eyebrowRatio 0.4 then "Sad"
  else "Neutral".

(** The label as a function of what the earlier checks found and of the
    eyebrow ratio. *)
Definition mood_of (verdict : option string) (smiling : bool) (ratio : option float)
  : string :=
  match verdict with
  | Some m => m
  | None =>
      if smiling then "Happy"
      else match ratio with
           | Some r => mood_of_ratio r
           | None => "Neutral"
           end
  end.

End Face.

(** ** Emotion detection with the expression network
     ([lightweightFaceDetection.ts]) *)

Module FaceApi.

(** The probabilities of the expression network, one per expression. *)
Record FaceExpressions := mkExpressions {
  neutral : float;
  happy : float;
  sad : float;
  angry : float;
  fearful : float;
  disgusted : float;
  surprised : float
}.

(** [Object.entries(expressions)]. *)
Definition entries (e : FaceExpressions) : list (string * float) :=
  [ ("neutral", neutral e); ("happy", happy e); ("sad", sad e);
    ("angry", angry e); ("fearful", fearful e); ("disgusted", disgusted e);
    ("surprised", surprised e) ].

(** What the detection call does: it throws, finds no face, or returns the
    expressions of the face found. *)
Inductive Detection :=
| DetectionThrows (message : string)
| NoFace
| FaceFound (expressions : FaceExpressions).

Record EmotionResult := mkEmotionResult {
  expression : string;
  probability : float
}.

Definition emotionMap : list (string * string) :=
  [ ("happy", "Happy"); ("sad", "Sad"); ("angry", "Angry");
    ("neutral", "Neutral"); ("surprised", "Surprised");
    ("disgusted", "Stressed"); ("fearful", "Stressed") ].

(** [emotionMap[key]]. *)
Fixpoint lookupEmotion (key : string) (m : list (string * string)) : option string :=
  match m with
  | [] => None
  | (k, v) :: rest => if String.eqb k key then Some v else lookupEmotion key rest
  end.

(** The loop that keeps the entry of highest probability. *)
Definition maxEntry (es : list (string * float)) (init : string * float)
  : string * float :=
  fold_left (fun (acc : string * float) (entry : string * float) =>
               if JS.gt (snd entry) (snd acc) then entry else acc) es init.

(** [detectEmotion(videoElement)], given what the detection call does;
    [None] is the [null] result. *)
Definition detectEmotion (d : Detection) : option EmotionResult :=
  match d with
  | DetectionThrows _ => None
  | NoFace => None
  | FaceFound expressions =>
      let '(maxExpression, maxProbability) :=
        maxEntry (entries expressions) ("neutral", neutral expressions) in
      Some {| expression := default "Neutral" (lookupEmotion maxExpression emotionMap);
              probability := maxProbability |}
  end.

(** The labels [detectEmotion] can report. *)
Definition emotionLabels : list string :=
  ["Happy"; "Sad"; "Angry"; "Neutral"; "Surprised"; "Stressed"].

End FaceApi.

(** ** The rolling history of the camera panel ([CameraTools.tsx]) *)

Module CameraTools.

Record HistoryEntry := mkEntry {
  time : string;
  label : string;
  type : string;
  suggestion : option string
}.

(** The part of the component state that the history depends on. *)
Record State := mkState {
  isAnalyzing : bool;
  isModelLoaded : bool;
  history : list HistoryEntry
}.

(** The state after the first render: [useState(false)], [useState([])]. *)
Definition initial : State :=
  {| isAnalyzing := false; isModelLoaded := false; history := [] |}.

(** The test [!lastEntry || lastEntry.time !== currentTime ||
    lastEntry.label !== label] of both updaters. *)
Definition isNewEntry (prev : list HistoryEntry) (entry : HistoryEntry) : bool :=
  match JS.last_entry prev with
  | None => true
  | Some lastEntry =>
      negb (String.eqb (time lastEntry) (time entry))
      || negb (String.eqb (label lastEntry) (label entry))
  end.

(** The updater both frame loops pass to [setHistory]. *)
Definition updateHistory (entry : HistoryEntry) (prev : list HistoryEntry)
  : list HistoryEntry :=
  if isNewEntry prev entry
  then JS.slice_last 19 prev ++ [entry]
  else prev.

(** [moodSuggestion] of [analyzeMoodFrame]. *)
Definition moodSuggestion (expression : string) : string :=
  if String.eqb expression "Sad" || String.eqb expression "Stressed"
  then "💡 Take a deep breath, try a quick stretch"
  else if String.eqb expression "Happy"
       then "😊 Great mood! Keep it up!"
       else "😐 Neutral mood detected".

(** [suggestion] of [analyzePostureFrame]. *)
Definition postureSuggestion (postureStatus : Pose.PostureStatus) : string :=
  match Pose.issues postureStatus with
  | _ :: _ =>
      if Pose.some_includes "Slouching" (Pose.issues postureStatus)
      then "💡 Sit up straight, align your back"
      else if Pose.some_includes "Leaning" (Pose.issues postureStatus)
           then "💡 Move your shoulders up and level them"
           else if Pose.some_includes "Forward head" (Pose.issues postureStatus)
                then "💡 Pull your head back, align with shoulders"
                else ""
  | [] => "✅ Great! Keep maintaining this posture"
  end.

(** The history effect of one pass of [analyzeMoodFrame] that reaches the
    detection, at wall-clock time [currentTime]. *)
Definition analyzeMoodFrame (currentTime : string) (d : FaceApi.Detection)
    (s : State) : State :=
  match FaceApi.detectEmotion d with
  | Some emotionResult =>
      let entry := {| time := currentTime;
                      label := FaceApi.expression emotionResult;
                      type := "mood";
                      suggestion := Some (moodSuggestion (FaceApi.expression emotionResult)) |} in
      {| isAnalyzing := isAnalyzing s; isModelLoaded := isModelLoaded s;
         history := updateHistory entry (history s) |}
  | None => s
  end.

(** The history effect of one pass of [analyzePostureFrame] that reaches
    the detection; [poses] is what [detectPose] returned. *)
Definition analyzePostureFrame (currentTime : string)
    (poses : option (list Pose.Pose)) (s : State) : State :=
  match poses with
  | Some (_ :: _) =>
      let postureStatus := Pose.analyzePosture poses in
      let entry := {| time := currentTime;
                      label := Pose.status postureStatus;
                      type := "posture";
                      suggestion := Some (postureSuggestion postureStatus) |} in
      {| isAnalyzing := isAnalyzing s; isModelLoaded := isModelLoaded s;
         history := updateHistory entry (history s) |}
  | Some [] | None => s
  end.

(** [startAnalysis]; [modelsInitialize] tells whether the model
    initialisation inside the [try] returns, [webcamReady] whether the
    webcam has a video element. *)
Definition startAnalysis (modelsInitialize webcamReady : bool) (s : State) : State :=
  if negb (isModelLoaded s) && negb modelsInitialize then s
  else
    let loaded := if negb (isModelLoaded s) then true else isModelLoaded s in
    if negb webcamReady
    then {| isAnalyzing := isAnalyzing s; isModelLoaded := loaded; history := history s |}
    else {| isAnalyzing := true; isModelLoaded := loaded; history := [] |}.

Definition stopAnalysis (s : State) : State :=
  {| isAnalyzing := false; isModelLoaded := isModelLoaded s; history := history s |}.

(** What can happen to the component. *)
Inductive Event :=
| Start (modelsInitialize webcamReady : bool)
| Stop
| MoodFrame (currentTime : string) (d : FaceApi.Detection)
| PostureFrame (currentTime : string) (poses : option (list Pose.Pose)).

Definition step (s : State) (e : Event) : State :=
  match e with
  | Start m w => startAnalysis m w s
  | Stop => stopAnalysis s
  | MoodFrame t d => analyzeMoodFrame t d s
  | PostureFrame t poses => analyzePostureFrame t poses s
  end.

(** The state after a sequence of events, oldest first. *)
Definition run (events : list Event) : State := fold_left step events initial.

(** [getMoodEmoji(mood)]. *)
Definition getMoodEmoji (mood : string) : string :=
  if JS.includes mood "Happy" then "😊"
  else if JS.includes mood "Neutral" then "😐"
  else if JS.includes mood "Sad" then "😢"
  else if JS.includes mood "Stressed" then "😰"
  else "🤔".

(** Two entries that the updaters tell apart: they differ in time or in
    label. *)
Definition differs (a b : HistoryEntry) : Prop :=
  time a <> time b \/ label a <> label b.

(** No entry is followed by one with the same time and label. *)
Fixpoint adjacentDiffer (entries : list HistoryEntry) : Prop :=
  match entries with
  | a :: ((b :: _) as rest) => differs a b /\ adjacentDiffer rest
  | _ => True
  end.

(** An entry as one of the two frame loops builds it. *)
Definition isFrameEntry (e : HistoryEntry) : Prop :=
  (type e = "mood"
   /\ In (label e) FaceApi.emotionLabels
   /\ suggestion e = Some (moodSuggestion (label e)))
  \/ (type e = "posture"
      /\ In (label e) Pose.postureLabels
      /\ exists s, suggestion e = Some s
           /\ In s [ "💡 Sit up straight, align your back";
                      "💡 Move your shoulders up and level them";
                      "💡 Pull your head back, align with shoulders";
                      "✅ Great! Keep maintaining this posture";
                      "" ]).

End CameraTools.

(** ** Loading the models ([lightweightPoseDetection.ts],
       [lightweightFaceDetection.ts]) and the start of the analysis *)

(** How a call of a loader ends when it runs from its first statement to a
    [return] with no other call of the loader in between: it returns, or
    it finds a load in flight and enters the loop that waits for it. *)
Module Async.

Inductive Outcome (A : Type) :=
| Returned (a : A)
| Waiting.

Arguments Returned {A} a.
Arguments Waiting {A}.

End Async.

Module PoseLoader.
Import Async.

Inductive Detector := MoveNet | BlazePose.

(** The module variables [detector] and [isInitializing], and the models
    that [createDetector] has been asked for, oldest first. *)
Record State := mkState {
  detector : option Detector;
  isInitializing : bool;
  created : list Detector
}.

Definition initial : State :=
  {| detector := None; isInitializing := false; created := [] |}.

(** What the library does during one initialisation: whether [tf.ready()]
    resolves, and whether [createDetector] resolves for MoveNet and for
    BlazePose. *)
Record Attempt := mkAttempt {
  tfReady : bool;
  moveNet : bool;
  blazePose : bool
}.

(** The [catch] block of [initializeMoveNet]: the BlazePose fallback. *)
Definition fallback (a : Attempt) (s : State) (log : list Detector)
  : Outcome (option Detector) * State :=
  if blazePose a
  then (Returned (Some BlazePose),
        {| detector := Some BlazePose; isInitializing := false;
           created := log ++ [BlazePose] |})
  else (Returned None,
        {| detector := detector s; isInitializing := false;
           created := log ++ [BlazePose] |}).

Definition initializeMoveNet (a : Attempt) (s : State)
  : Outcome (option Detector) * State :=
  match detector s with
  | Some d => (Returned (Some d), s)
  | None =>
      if isInitializing s then (Waiting, s)
      else if tfReady a
           then if moveNet a
                then (Returned (Some MoveNet),
                      {| detector := Some MoveNet; isInitializing := false;
                         created := created s ++ [MoveNet] |})
                else fallback a s (created s ++ [MoveNet])
           else fallback a s (created s)
  end.

(** [detectPose(videoElement)]; [estimate] is what [estimatePoses] does on
    the frame: [None] when it throws. *)
Definition detectPose (a : Attempt) (estimate : option (list Pose.Pose)) (s : State)
  : Outcome (option (list Pose.Pose)) * State :=
  let '(initialised, s1) :=
    match detector s with
    | None => initializeMoveNet a s
    | Some d => (Returned (Some d), s)
    end in
  match initialised with
  | Waiting => (Waiting, s1)
  | Returned _ =>
      match detector s1 with
      | None => (Returned None, s1)
      | Some _ => (Returned estimate, s1)
      end
  end.

(** The detector that one initialisation obtains. *)
Definition obtains (a : Attempt) : option Detector :=
  if tfReady a && moveNet a then Some MoveNet
  else if blazePose a then Some BlazePose
  else None.

(** The first detector obtained in a sequence of initialisations. *)
Fixpoint firstObtained (attempts : list Attempt) : option Detector :=
  match attempts with
  | [] => None
  | a :: rest =>
      match obtains a with
      | Some d => Some d
      | None => firstObtained rest
      end
  end.

(** The state after a sequence of calls of [initializeMoveNet], each run to
    its end before the next. *)
Definition after (attempts : list Attempt) : State :=
  fold_left (fun s a => snd (initializeMoveNet a s)) attempts initial.

End PoseLoader.

Module FaceApiLoader.
Import Async.

Definition MODEL_URLS : list string :=
  [ "https://cdn.jsdelivr.net/npm/face-api.js@0.22.2/weights";
    "https://raw.githubusercontent.com/justadudewhohacks/face-api.js/master/weights";
    "https://unpkg.com/face-api.js@0.22.2/weights" ].

(** The module variables [modelsLoaded] and [isInitializing], and the URLs
    that the two networks have been requested from, oldest first. *)
Record State := mkState {
  modelsLoaded : bool;
  isInitializing : bool;
  requested : list string
}.

Definition initial : State :=
  {| modelsLoaded := false; isInitializing := false; requested := [] |}.

(** The loop over the URLs: [loads url] tells whether both networks load
    from [url]. It yields [loaded] and the URLs it has tried. *)
Fixpoint tryUrls (loads : string -> bool) (urls : list string) : bool * list string :=
  match urls with
  | [] => (false, [])
  | url :: rest =>
      if loads url then (true, [url])
      else let '(loaded, tried) := tryUrls loads rest in (loaded, url :: tried)
  end.

Definition initializeFaceAPI (loads : string -> bool) (s : State) : Outcome bool * State :=
  if modelsLoaded s then (Returned true, s)
  else if isInitializing s then (Waiting, s)
  else
    let '(loaded, tried) := tryUrls loads MODEL_URLS in
    if loaded
    then (Returned true,
          {| modelsLoaded := true; isInitializing := false;
             requested := requested s ++ tried |})
    else (Returned false,
          {| modelsLoaded := modelsLoaded s; isInitializing := false;
             requested := requested s ++ tried |}).

(** The state after a sequence of calls of [initializeFaceAPI], each run to
    its end before the next. *)
Definition after (calls : list (string -> bool)) : State :=
  fold_left (fun s loads => snd (initializeFaceAPI loads s)) calls initial.

(** One of the sources works in one of the calls. *)
Definition someSourceWorks (calls : list (string -> bool)) : bool :=
  existsb (fun loads => existsb loads MODEL_URLS) calls.

End FaceApiLoader.

(** *** The camera panel with its loaders *)

Module Panel.
Import Async.

(** The component state and the two loaders. *)
Record State := mkState {
  panel : CameraTools.State;
  pose : PoseLoader.State;
  face : FaceApiLoader.State
}.

Definition initial : State :=
  {| panel := CameraTools.initial; pose := PoseLoader.initial;
     face := FaceApiLoader.initial |}.

(** [startAnalysis] with the calls it makes: [None] when a loader waits for
    a load in flight. The loaders catch what their library calls throw,
    so the [catch] block of [startAnalysis] is not entered from them. *)
Definition startAnalysis (moodTab : bool) (a : PoseLoader.Attempt)
    (loads : string -> bool) (webcamReady : bool) (s : State) : option State :=
  if CameraTools.isModelLoaded (panel s)
  then Some {| panel := CameraTools.startAnalysis true webcamReady (panel s);
               pose := pose s; face := face s |}
  else
    match PoseLoader.initializeMoveNet a (pose s) with
    | (Waiting, _) => None
    | (Returned _, pose1) =>
        if moodTab
        then match FaceApiLoader.initializeFaceAPI loads (face s) with
             | (Waiting, _) => None
             | (Returned _, face1) =>
                 Some {| panel := CameraTools.startAnalysis true webcamReady (panel s);
                         pose := pose1; face := face1 |}
             end
        else Some {| panel := CameraTools.startAnalysis true webcamReady (panel s);
                     pose := pose1; face := face s |}
    end.

(** One pass of [analyzePostureFrame] that reaches the detection: it
    awaits [initializeMoveNet()], then [detectPose(videoElement)], and adds
    to the history as above. *)
Definition analyzePostureFrame (currentTime : string) (a1 a2 : PoseLoader.Attempt)
    (estimate : option (list Pose.Pose)) (s : State) : option State :=
  match PoseLoader.initializeMoveNet a1 (pose s) with
  | (Waiting, _) => None
  | (Returned _, pose1) =>
      match PoseLoader.detectPose a2 estimate pose1 with
      | (Waiting, _) => None
      | (Returned poses, pose2) =>
          Some {| panel := CameraTools.analyzePostureFrame currentTime poses (panel s);
                  pose := pose2; face := face s |}
      end
  end.

End Panel.

(** ** The task and AI routes ([server/routes.ts], [shared/taskSchema.ts]) *)

Module Routes.

(** *** JavaScript values *)

(** The values that flow through the handlers. A [Date] carries its time
    value in milliseconds ([None] for an invalid date), a Firestore
    [Timestamp] the milliseconds it was created from. *)
Inductive JsVal :=
| JUndefined
| JNull
| JBool (b : bool)
| JNum (x : float)
| JStr (s : string)
| JDate (ms : option Z)
| JTimestamp (ms : Z)
| JArr (xs : list JsVal)
| JObj (fields : gmap string JsVal).

Abbreviation Obj := (gmap string JsVal).

(** Truthiness, as [!v], [v || w] and [if (v)] test it. *)
Definition truthy (v : JsVal) : bool :=
  match v with
  | JUndefined | JNull => false
  | JBool b => b
  | JNum x => PrimFloat.ltb 0 x || PrimFloat.ltb x 0
  | JStr s => negb (String.eqb s "")
  | JDate _ | JTimestamp _ | JArr _ | JObj _ => true
  end.

(** [a || b]. *)
Definition jor (a b : JsVal) : JsVal := if truthy a then a else b.

Definition nullish (v : JsVal) : bool :=
  match v with
  | JUndefined | JNull => true
  | _ => false
  end.

(** [o[k]] on an object known to be one. *)
Definition field (o : Obj) (k : string) : JsVal := default JUndefined (o !! k).

(** [v.k]: a [TypeError] on [undefined] and [null], the property of an
    object, and [undefined] on the other values (none of the properties read
    exists on them). *)
Definition get (v : JsVal) (k : string) : JS.completion JsVal :=
  match v with
  | JUndefined | JNull => JS.Throw "TypeError: Cannot read properties of undefined"
  | JObj o => JS.Normal (field o k)
  | _ => JS.Normal JUndefined
  end.

(** [v[0]]. *)
Definition index0 (v : JsVal) : JS.completion JsVal :=
  match v with
  | JUndefined | JNull => JS.Throw "TypeError: Cannot read properties of undefined"
  | JArr xs => JS.Normal (default JUndefined (head xs))
  | JStr (String c _) => JS.Normal (JStr (String c ""))
  | JObj o => JS.Normal (field o "0")
  | _ => JS.Normal JUndefined
  end.

(** An object literal [{k1: v1, ..., kn: vn}] extending [o] (a spread
    [...o] first): later keys replace earlier ones. *)
Definition assign (o : Obj) (fields : list (string * JsVal)) : Obj :=
  fold_left (fun acc kv => <[fst kv := snd kv]> acc) fields o.

Definition object (fields : list (string * JsVal)) : Obj := assign ∅ fields.

(** [{...a, ...b}]. *)
Definition spread (a b : Obj) : Obj := b ∪ a.

(** [Number.isInteger(x)]. *)
Definition isInteger (x : float) : bool :=
  match Prim2SF x with
  | S754_zero _ => true
  | S754_finite _ m e =>
      (0 <=? e)%Z || (Z.pos m mod 2 ^ (- e) =? 0)%Z
  | S754_infinity _ | S754_nan => false
  end.

(** [text.match(/O[\s\S]*C/)] for single characters [O] and [C]: the
    substring from the first [O] to the last [C] after it. *)
Fixpoint fromFirst (c : ascii) (s : string) : option string :=
  match s with
  | EmptyString => None
  | String a rest => if Ascii.eqb a c then Some rest else fromFirst c rest
  end.

Fixpoint uptoLast (c : ascii) (s : string) : option string :=
  match s with
  | EmptyString => None
  | String a rest =>
      match uptoLast c rest with
      | Some p => Some (String a p)
      | None => if Ascii.eqb a c then Some (String a EmptyString) else None
      end
  end.

Definition matchBetween (o c : ascii) (text : string) : option string :=
  match fromFirst o text with
  | Some rest =>
      match uptoLast c rest with
      | Some p => Some (String o p)
      | None => None
      end
  | None => None
  end.

(** [aiText.match(re)] on a value: only strings have [match]. *)
Definition jsMatch (o c : ascii) (aiText : JsVal) : JS.completion (option string) :=
  match aiText with
  | JStr s => JS.Normal (matchBetween o c s)
  | _ => JS.Throw "TypeError: aiText.match is not a function"
  end.

(** [data.candidates[0]?.content?.parts[0]?.text]. *)
Definition candidateText (data : JsVal) : JS.completion JsVal :=
  let* candidates := get data "candidates" in
  let* first := index0 candidates in
  if nullish first then JS.Normal JUndefined
  else
    let* content := get first "content" in
    if nullish content then JS.Normal JUndefined
    else
      let* parts := get content "parts" in
      let* part := index0 parts in
      if nullish part then JS.Normal JUndefined
      else get part "text".

(** [ts.toDate()] on a stored field. *)
Definition toDate (v : JsVal) : JS.completion JsVal :=
  match v with
  | JTimestamp ms => JS.Normal (JDate (Some ms))
  | JUndefined | JNull => JS.Throw "TypeError: Cannot read properties of undefined"
  | _ => JS.Throw "TypeError: toDate is not a function"
  end.

(** *** The task schemas ([shared/taskSchema.ts]) *)

Definition zodError : string := "ZodError".

(** An optional key: absent or [undefined] is accepted and left out. *)
Definition optionalKey (input : Obj) (k : string) (check : JsVal -> bool)
    (out : Obj) : JS.completion Obj :=
  match input !! k with
  | None | Some JUndefined => JS.Normal out
  | Some v => if check v then JS.Normal (<[k := v]> out) else JS.Throw zodError
  end.

Definition requiredKey (input : Obj) (k : string) (check : JsVal -> bool)
    (out : Obj) : JS.completion Obj :=
  match input !! k with
  | Some v => if check v then JS.Normal (<[k := v]> out) else JS.Throw zodError
  | None => JS.Throw zodError
  end.

(** [z.string().min(lo).max(200)]. *)
Definition isTitle (v : JsVal) : bool :=
  match v with
  | JStr s => (1 <=? String.length s)%nat && (String.length s <=? 200)%nat
  | _ => false
  end.

Definition isString (v : JsVal) : bool :=
  match v with JStr _ => true | _ => false end.

Definition isBoolean (v : JsVal) : bool :=
  match v with JBool _ => true | _ => false end.

(** [z.date()]: a valid [Date]. *)
Definition isDate (v : JsVal) : bool :=
  match v with JDate (Some _) => true | _ => false end.

(** [z.number().int().positive()]. *)
Definition isDuration (v : JsVal) : bool :=
  match v with
  | JNum x => isInteger x && PrimFloat.ltb 0 x
  | _ => false
  end.

(** [z.number().int().min(10).max(500)]. *)
Definition isXp (v : JsVal) : bool :=
  match v with
  | JNum x => isInteger x && PrimFloat.leb 10 x && PrimFloat.leb x 500
  | _ => false
  end.

(** [insertTaskSchema.parse(input)]: unknown keys are stripped, [xpReward]
    defaults to 50. *)
Definition insertTaskSchema_parse (input : JsVal) : JS.completion Obj :=
  match input with
  | JObj o =>
      let* out := requiredKey o "title" isTitle ∅ in
      let* out := optionalKey o "description" isString out in
      let* out := requiredKey o "scheduledTime" isDate out in
      let* out := optionalKey o "duration" isDuration out in
      match o !! "xpReward" with
      | None | Some JUndefined => JS.Normal (<["xpReward" := JNum 50]> out)
      | Some v => if isXp v then JS.Normal (<["xpReward" := v]> out) else JS.Throw zodError
      end
  | _ => JS.Throw zodError
  end.

(** [updateTaskSchema.parse(input)]: every key optional. *)
Definition updateTaskSchema_parse (input : JsVal) : JS.completion Obj :=
  match input with
  | JObj o =>
      let* out := optionalKey o "title" isTitle ∅ in
      let* out := optionalKey o "description" isString out in
      let* out := optionalKey o "scheduledTime" isDate out in
      let* out := optionalKey o "duration" isDuration out in
      let* out := optionalKey o "completed" isBoolean out in
      optionalKey o "xpReward" isXp out
  | _ => JS.Throw zodError
  end.

(** *** The outside world: Firestore, the clock and the text-generation API *)

(** What a [fetch] of the generation API does: it rejects, or it resolves to
    a response with its [ok] flag and the outcome of [response.json()]. *)
Inductive FetchReply :=
| NetworkError (message : string)
| HttpReply (ok : bool) (json : JS.completion JsVal).

(** The two Firestore collections, and what the environment will answer to
    the coming calls: the successive readings of the system clock (in ms),
    for each Firestore call whether it rejects and with which message, the
    ids that [addDoc] assigns, and the replies to the [fetch] calls. An
    exhausted list stands for: clock 0, no rejection, id [""], network error. *)
Record World := mkWorld {
  tasks : gmap string Obj;
  users : gmap string Obj;
  clock : list Z;
  faults : list (option string);
  ids : list string;
  replies : list FetchReply
}.

(** A handler step: it runs in a world and completes normally or throws,
    leaving the world it has reached. *)
Definition M (A : Type) : Type := World -> JS.completion A * World.

Definition ret {A} (a : A) : M A := fun w => (JS.Normal a, w).

Definition throw {A} (message : string) : M A := fun w => (JS.Throw message, w).

Definition bind {A B} (m : M A) (k : A -> M B) : M B :=
  fun w =>
    match m w with
    | (JS.Normal a, w') => k a w'
    | (JS.Throw e, w') => (JS.Throw e, w')
    end.

Definition lift {A} (c : JS.completion A) : M A := fun w => (c, w).

(** [try { body } catch (error) { handler(error.message) }]. *)
Definition try_catch {A} (body : M A) (handler : string -> M A) : M A :=
  fun w =>
    match body w with
    | (JS.Normal a, w') => (JS.Normal a, w')
    | (JS.Throw e, w') => handler e w'
    end.

Notation "'let!' x ':=' c 'in' k" := (bind c (fun x => k))
  (at level 10, x name, c at level 100, k at level 200).

(** [Date.now()]. *)
Definition Date_now : M Z :=
  fun w =>
    match clock w with
    | [] => (JS.Normal 0%Z, w)
    | t :: rest =>
        (JS.Normal t, mkWorld (tasks w) (users w) rest (faults w) (ids w) (replies w))
    end.

(** [Timestamp.now()]. *)
Definition Timestamp_now : M JsVal :=
  let! t := Date_now in ret (JTimestamp t).

(** The round trip of a Firestore call. *)
Definition firestore : M unit :=
  fun w =>
    match faults w with
    | [] => (JS.Normal tt, w)
    | f :: rest =>
        let w' := mkWorld (tasks w) (users w) (clock w) rest (ids w) (replies w) in
        match f with
        | Some message => (JS.Throw message, w')
        | None => (JS.Normal tt, w')
        end
    end.

(** [getDoc(doc(db, "tasks", id))]: the data when the document exists. *)
Definition getTask (id : string) : M (option Obj) :=
  let! _ := firestore in fun w => (JS.Normal (tasks w !! id), w).

(** [getDoc(doc(db, "users", id))]. *)
Definition getUser (id : string) : M (option Obj) :=
  let! _ := firestore in fun w => (JS.Normal (users w !! id), w).

(** [getDocs(query(tasksRef, where("userId", "==", userId)))]. *)
Definition getTasksOf (userId : string) : M (list (string * Obj)) :=
  let! _ := firestore in
  fun w =>
    (JS.Normal
       (List.filter (fun doc : string * Obj =>
                       match snd doc !! "userId" with
                       | Some (JStr u) => String.eqb u userId
                       | _ => false
                       end)
                    (map_to_list (tasks w))), w).

(** [addDoc(tasksRef, data)]: stores [data] under a new id. *)
Definition addDoc (data : Obj) : M string :=
  let! _ := firestore in
  fun w =>
    let id := default "" (head (ids w)) in
    (JS.Normal id,
     mkWorld (<[id := data]> (tasks w)) (users w) (clock w) (faults w)
             (tail (ids w)) (replies w)).

(** [updateDoc(taskRef, changes)]: overwrites the given fields of an
    existing document, and rejects when there is none. *)
Definition updateDoc (id : string) (changes : Obj) : M unit :=
  let! _ := firestore in
  fun w =>
    match tasks w !! id with
    | Some data =>
        (JS.Normal tt,
         mkWorld (<[id := spread data changes]> (tasks w)) (users w) (clock w)
                 (faults w) (ids w) (replies w))
    | None => (JS.Throw "No document to update", w)
    end.

(** [deleteDoc(taskRef)]. *)
Definition deleteDoc (id : string) : M unit :=
  let! _ := firestore in
  fun w =>
    (JS.Normal tt,
     mkWorld (delete id (tasks w)) (users w) (clock w) (faults w) (ids w) (replies w)).

(** [await fetch(...)] of the generation API. *)
Definition fetch : M (bool * JS.completion JsVal) :=
  fun w =>
    match replies w with
    | [] => (JS.Throw "fetch failed", w)
    | r :: rest =>
        let w' := mkWorld (tasks w) (users w) (clock w) (faults w) (ids w) rest in
        match r with
        | NetworkError message => (JS.Throw message, w')
        | HttpReply ok json => (JS.Normal (ok, json), w')
        end
    end.

(** The request to the generation API as three handlers make it: the text
    of the first candidate, or an error. *)
Definition askGemini : M JsVal :=
  let! geminiResponse := fetch in
  if negb (fst geminiResponse) then throw "Gemini API request failed"
  else
    let! geminiData := lift (snd geminiResponse) in
    let! aiText := lift (candidateText geminiData) in
    if negb (truthy aiText) then throw "No response from AI"
    else ret aiText.

(** *** Responses *)

Record Response := mkResponse {
  status : Z;
  body : JsVal
}.

(** [res.json(o)]. *)
Definition json (o : Obj) : Response := mkResponse 200 (JObj o).

(** [res.status(code).json({ error: message })]. *)
Definition errorJson (code : Z) (message : string) : Response :=
  mkResponse code (JObj (object [("error", JStr message)])).

(** [error.message || fallback]. *)
Definition messageOr (message fallback : string) : string :=
  if String.eqb message "" then fallback else message.

(** [xs.map(f)] for an [f] that may throw. *)
Fixpoint mapC {A B} (f : A -> JS.completion B) (xs : list A) : JS.completion (list B) :=
  match xs with
  | [] => JS.Normal []
  | x :: rest =>
      let* y := f x in
      let* ys := mapC f rest in
      JS.Normal (y :: ys)
  end.

(** The values a [for ... of] loop visits. *)
Definition iterate (v : JsVal) : JS.completion (list JsVal) :=
  match v with
  | JArr xs => JS.Normal xs
  | JStr s => JS.Normal (List.map (fun c => JStr (String c EmptyString)) (list_ascii_of_string s))
  | _ => JS.Throw "TypeError: value is not iterable"
  end.

(** *** The handlers *)

Section Handlers.

(** Library functions the handlers call and whose results they only pass
    on: [JSON.parse(text)], the time value of [new Date(v)], the time value
    of a date after [setHours(parseInt(hours), parseInt(minutes))] for a
    time string ["hours:minutes"], and [Timestamp.fromDate(date)]. *)
Variable JSON_parse : string -> JS.completion JsVal.
Variable Date_new : JsVal -> option Z.
Variable Date_setHours : option Z -> string -> option Z.
Variable Timestamp_fromDate : JsVal -> JS.completion JsVal.

(** **** GET /api/tasks/:userId *)

(** The task object built from a stored document. *)
Definition taskOfDoc (doc : string * Obj) : JS.completion JsVal :=
  let data := snd doc in
  let* scheduledTime := toDate (field data "scheduledTime") in
  let* createdAt := toDate (field data "createdAt") in
  let* updatedAt := toDate (field data "updatedAt") in
  JS.Normal (JObj (object
    [ ("id", JStr (fst doc));
      ("userId", field data "userId");
      ("title", field data "title");
      ("description", field data "description");
      ("scheduledTime", scheduledTime);
      ("duration", field data "duration");
      ("completed", field data "completed");
      ("notificationSent", jor (field data "notificationSent") (JBool false));
      ("xpReward", field data "xpReward");
      ("createdAt", createdAt);
      ("updatedAt", updatedAt) ])).

Definition getTasks_try (userId : string) : M Response :=
  let! docs := getTasksOf userId in
  let! tasks := lift (mapC taskOfDoc docs) in
  ret (mkResponse 200 (JArr tasks)).

(** The [catch] block of the handler. *)
Definition getTasks_catch (message : string) : Response :=
  errorJson 500 "Failed to fetch tasks".

Definition getTasks (userId : string) : M Response :=
  try_catch (getTasks_try userId) (fun message => ret (getTasks_catch message)).

(** **** POST /api/tasks *)

(** [const { userId, ...taskData } = req.body]. *)
Definition splitUserId (reqBody : JsVal) : JS.completion (JsVal * Obj) :=
  match reqBody with
  | JUndefined | JNull => JS.Throw "TypeError: Cannot destructure property 'userId'"
  | JObj o => JS.Normal (field o "userId", delete "userId" o)
  | _ => JS.Normal (JUndefined, ∅)
  end.

(** The document the manual, AI-parse and chat paths store:
    [{ userId, ...validatedData, scheduledTime, completed: false,
       notificationSent: false, createdAt: now, updatedAt: now }]. *)
Definition newTask (userId : JsVal) (validatedData : Obj) (scheduledTime now : JsVal)
  : Obj :=
  assign (spread (object [("userId", userId)]) validatedData)
    [ ("scheduledTime", scheduledTime);
      ("completed", JBool false);
      ("notificationSent", JBool false);
      ("createdAt", now);
      ("updatedAt", now) ].

(** Validation done, the three paths store the task in the same way. *)
Definition storeTask (userId : JsVal) (validatedData : Obj) : M (string * Obj * JsVal) :=
  let! now := Timestamp_now in
  let! scheduledTime := lift (Timestamp_fromDate (field validatedData "scheduledTime")) in
  let task := newTask userId validatedData scheduledTime now in
  let! id := addDoc task in
  ret (id, task, now).

Definition createTask_try (reqBody : JsVal) : M Response :=
  let! parts := lift (splitUserId reqBody) in
  let userId := fst parts in
  let taskData := snd parts in
  let! validatedData :=
    lift (insertTaskSchema_parse
            (JObj (assign taskData
                     [("scheduledTime", JDate (Date_new (field taskData "scheduledTime")))]))) in
  let! stored := storeTask userId validatedData in
  let '(id, task, now) := stored in
  let! nowDate := lift (toDate now) in
  let createdTask :=
    assign (spread (object [("id", JStr id)]) task)
      [ ("scheduledTime", field validatedData "scheduledTime");
        ("createdAt", nowDate);
        ("updatedAt", nowDate) ] in
  (* syncTaskToCalendar only writes to the log *)
  ret (json createdTask).

(** The [catch] block of the handler. *)
Definition createTask_catch (message : string) : Response :=
  errorJson 400 (messageOr message "Failed to create task").

Definition createTask (reqBody : JsVal) : M Response :=
  try_catch (createTask_try reqBody) (fun message => ret (createTask_catch message)).

(** **** PUT /api/tasks/:id *)

Definition updateTask_try (id : string) (updates : JsVal) : M Response :=
  let! validatedData := lift (updateTaskSchema_parse updates) in
  let! now := Timestamp_now in
  let updateData := assign validatedData [("updatedAt", now)] in
  let! updateData :=
    if truthy (field validatedData "scheduledTime")
    then let! ts := lift (Timestamp_fromDate (field validatedData "scheduledTime")) in
         ret (<["scheduledTime" := ts]> updateData)
    else ret updateData in
  let! _ := updateDoc id updateData in
  ret (json (object [("success", JBool true); ("id", JStr id)])).

(** The [catch] block of the handler. *)
Definition updateTask_catch (message : string) : Response :=
  errorJson 400 (messageOr message "Failed to update task").

Definition updateTask (id : string) (updates : JsVal) : M Response :=
  try_catch (updateTask_try id updates) (fun message => ret (updateTask_catch message)).

(** **** DELETE /api/tasks/:id *)

Definition deleteTask_try (id : string) : M Response :=
  let! _ := deleteDoc id in
  ret (json (object [("success", JBool true); ("id", JStr id)])).

(** The [catch] block of the handler. *)
Definition deleteTask_catch (message : string) : Response :=
  errorJson 500 "Failed to delete task".

Definition deleteTask (id : string) : M Response :=
  try_catch (deleteTask_try id) (fun message => ret (deleteTask_catch message)).

(** **** POST /api/tasks/:id/complete *)

Definition completeTask_try (id : string) : M Response :=
  let! taskSnap := getTask id in
  match taskSnap with
  | None => ret (errorJson 404 "Task not found")
  | Some taskData =>
      let! now := Timestamp_now in
      let! _ := updateDoc id (object [("completed", JBool true); ("updatedAt", now)]) in
      ret (json (object [ ("success", JBool true);
                          ("id", JStr id);
                          ("xpReward", jor (field taskData "xpReward") (JNum 50)) ]))
  end.

(** The [catch] block of the handler. *)
Definition completeTask_catch (message : string) : Response :=
  errorJson 500 "Failed to complete task".

Definition completeTask (id : string) : M Response :=
  try_catch (completeTask_try id) (fun message => ret (completeTask_catch message)).

(** **** POST /api/ai/parse-task *)

(** The response of the two routes that answer with the stored task. *)
Definition storedTaskJson (id : string) (task validatedData : Obj) (nowDate : JsVal) : Obj :=
  assign (spread (object [("id", JStr id)]) task)
    [ ("scheduledTime", field validatedData "scheduledTime");
      ("createdAt", nowDate);
      ("updatedAt", nowDate) ].

Definition parseTask_try (reqBody : JsVal) : M Response :=
  let! userId := lift (get reqBody "userId") in
  let! prompt := lift (get reqBody "prompt") in
  if negb (truthy prompt) || negb (truthy userId)
  then ret (errorJson 400 "Missing prompt or userId")
  else
    (* the prompt quotes [new Date().toISOString()] *)
    let! _ := Date_now in
    let! aiText := askGemini in
    let! jsonMatch := lift (jsMatch "{" "}" aiText) in
    match jsonMatch with
    | None => throw "Could not parse AI response"
    | Some text =>
        let! parsedTask := lift (JSON_parse text) in
        let! title := lift (get parsedTask "title") in
        let! description := lift (get parsedTask "description") in
        let! scheduledTime := lift (get parsedTask "scheduledTime") in
        let! duration := lift (get parsedTask "duration") in
        let! xpReward := lift (get parsedTask "xpReward") in
        let! validatedData :=
          lift (insertTaskSchema_parse
                  (JObj (object
                     [ ("title", title);
                       ("description", jor description (JStr ""));
                       ("scheduledTime", JDate (Date_new scheduledTime));
                       ("duration", jor duration (JNum 30));
                       ("xpReward", jor xpReward (JNum 50)) ]))) in
        let! stored := storeTask userId validatedData in
        let '(id, task, now) := stored in
        let! nowDate := lift (toDate now) in
        ret (json (storedTaskJson id task validatedData nowDate))
    end.

(** The [catch] block of the handler. *)
Definition parseTask_catch (message : string) : Response :=
  errorJson 500 (messageOr message "Failed to parse task").

Definition parseTask (reqBody : JsVal) : M Response :=
  try_catch (parseTask_try reqBody) (fun message => ret (parseTask_catch message)).

(** **** POST /api/chat *)

(** The user lookup inside the first nested [try]; its result only enters
    the prompt. [doc(db, "users", userId)] needs a string. *)
Definition lookupUser (userId : JsVal) : M unit :=
  match userId with
  | JStr u => let! _ := getUser u in ret tt
  | _ => throw "TypeError: path segment must be a string"
  end.

(** The body of the nested [try] that creates a task from the detection
    result; it yields the new value of [createdTask]. *)
Definition detectAndCreate (text : string) (userId : JsVal) : M JsVal :=
  let! taskDetection := lift (JSON_parse text) in
  let! isTaskRequest := lift (get taskDetection "isTaskRequest") in
  if negb (truthy isTaskRequest) then ret JNull
  else
    let! taskData := lift (get taskDetection "taskData") in
    if negb (truthy taskData) || negb (truthy userId) then ret JNull
    else
      let! requested := lift (get taskData "scheduledTime") in
      let! scheduledTime :=
        if truthy requested then ret (JDate (Date_new requested))
        else let! t := Date_now in ret (JDate (Some (t + 24 * 60 * 60 * 1000)%Z)) in
      let! title := lift (get taskData "title") in
      let! description := lift (get taskData "description") in
      let! duration := lift (get taskData "duration") in
      let! xpReward := lift (get taskData "xpReward") in
      let! validatedData :=
        lift (insertTaskSchema_parse
                (JObj (object
                   [ ("title", jor title (JStr "New Task"));
                     ("description", jor description (JStr ""));
                     ("scheduledTime", scheduledTime);
                     ("duration", jor duration (JNum 30));
                     ("xpReward", jor xpReward (JNum 50)) ]))) in
      let! stored := storeTask userId validatedData in
      let '(id, task, now) := stored in
      ret (JObj (assign (spread (object [("id", JStr id)]) task)
                   [("scheduledTime", field validatedData "scheduledTime")])).

(** The task-detection step of the chat handler; it yields [createdTask]. *)
Definition detectTask (userId : JsVal) : M JsVal :=
  let! taskDetectionResponse := fetch in
  if fst taskDetectionResponse then
    let! taskDetectionData := lift (snd taskDetectionResponse) in
    let! taskDetectionText := lift (candidateText taskDetectionData) in
    if truthy taskDetectionText then
      let! jsonMatch := lift (jsMatch "{" "}" taskDetectionText) in
      match jsonMatch with
      | Some text =>
          try_catch (detectAndCreate text userId) (fun _ => ret JNull)
      | None => ret JNull
      end
    else ret JNull
  else ret JNull.

Definition chat_try (reqBody : JsVal) : M Response :=
  let! message := lift (get reqBody "message") in
  let! userId := lift (get reqBody "userId") in
  if negb (truthy message) then ret (errorJson 400 "Message is required")
  else
    let! _ :=
      if truthy userId
      then try_catch (lookupUser userId) (fun _ => ret tt)
      else ret tt in
    let! createdTask := detectTask userId in
    let! reply := askGemini in
    ret (json (object [("reply", reply); ("taskCreated", createdTask)])).

(** The [catch] block of the handler. *)
Definition chat_catch (message : string) : Response :=
  mkResponse 500 (JObj (object
    [ ("error", JStr "Failed to get response");
      ("reply", JStr "I'm having trouble connecting right now. Please try again in a moment!") ])).

Definition chat (reqBody : JsVal) : M Response :=
  try_catch (chat_try reqBody) (fun message => ret (chat_catch message)).

(** **** POST /api/planner/generate *)

(** [userProfile.healthIssues] and [userProfile.mentalHealth]. *)
Definition defaultProfile : JsVal * JsVal := (JArr [], JArr []).

(** The nested [try] that loads the profile. *)
Definition loadProfile (userId : JsVal) : M (JsVal * JsVal) :=
  match userId with
  | JStr u =>
      let! userSnap := getUser u in
      match userSnap with
      | Some userData =>
          ret (jor (field userData "healthIssues") (JArr []),
               jor (field userData "mentalHealth") (JArr []))
      | None => ret defaultProfile
      end
  | _ => throw "TypeError: path segment must be a string"
  end.

(** [list.length > 0 ? list.join(', ') : 'None specified'] in the prompt:
    it throws when the value has a positive length but no [join]. Of an
    object only a numeric [length] is considered. *)
Definition joinOrNone (list : JsVal) : JS.completion unit :=
  match list with
  | JStr (String _ _) => JS.Throw "TypeError: join is not a function"
  | JObj o =>
      match field o "length" with
      | JNum n => if PrimFloat.ltb 0 n
                  then JS.Throw "TypeError: join is not a function"
                  else JS.Normal tt
      | _ => JS.Normal tt
      end
  | _ => JS.Normal tt
  end.

(** [list.includes(item)] in the prompt. *)
Definition listIncludes (list : JsVal) (item : string) : JS.completion bool :=
  match list with
  | JArr xs =>
      JS.Normal (existsb (fun x => match x with
                                   | JStr s => String.eqb s item
                                   | _ => false
                                   end) xs)
  | JStr s => JS.Normal (JS.includes s item)
  | _ => JS.Throw "TypeError: includes is not a function"
  end.

(** Building the prompt of the planner from the profile. *)
Definition plannerPrompt (profile : JsVal * JsVal) : JS.completion unit :=
  let healthIssues := fst profile in
  let mentalHealth := snd profile in
  let* _ := joinOrNone healthIssues in
  let* _ := joinOrNone mentalHealth in
  let* _ := listIncludes healthIssues "Back/Posture Problems" in
  let* anxiety := listIncludes healthIssues "Anxiety/Stress" in
  let* _ := if anxiety then JS.Normal true else listIncludes mentalHealth "Anxiety" in
  let* depression := listIncludes healthIssues "Depression/Mood Issues" in
  let* _ := if depression then JS.Normal true else listIncludes mentalHealth "Depression" in
  let* _ := listIncludes healthIssues "Sleep Issues" in
  JS.Normal tt.

(** The document the planner stores for one task of one day; [createdAt]
    and [updatedAt] are two calls of [Timestamp.now()]. *)
Definition plannedTask (userId task scheduledTime createdAt updatedAt : JsVal)
  : JS.completion Obj :=
  let* title := get task "title" in
  let* description := get task "description" in
  let* duration := get task "duration" in
  let* xpReward := get task "xpReward" in
  let* category := get task "category" in
  JS.Normal (object
    [ ("userId", userId);
      ("title", title);
      ("description", description);
      ("scheduledTime", scheduledTime);
      ("duration", duration);
      ("xpReward", xpReward);
      ("category", category);
      ("completed", JBool false);
      ("notificationSent", JBool false);
      ("autoGenerated", JBool true);
      ("createdAt", createdAt);
      ("updatedAt", updatedAt) ]).

(** One pass of the inner loop. *)
Definition planTask (userId dayPlan task : JsVal) : M JsVal :=
  let! date := lift (get dayPlan "date") in
  let! time := lift (get task "time") in
  match time with
  | JStr hoursMinutes =>
      let taskDate := JDate (Date_setHours (Date_new date) hoursMinutes) in
      let! scheduledTime := lift (Timestamp_fromDate taskDate) in
      let! createdAt := Timestamp_now in
      let! updatedAt := Timestamp_now in
      let! task := lift (plannedTask userId task scheduledTime createdAt updatedAt) in
      let! id := addDoc task in
      ret (JObj (assign (spread (object [("id", JStr id)]) task)
                   [("scheduledTime", taskDate)]))
  | _ => throw "TypeError: task.time.split is not a function"
  end.

(** The inner loop [for (const task of dayPlan.tasks)]. *)
Fixpoint planTasks (userId dayPlan : JsVal) (tasks : list JsVal) (createdTasks : list JsVal)
  : M (list JsVal) :=
  match tasks with
  | [] => ret createdTasks
  | task :: rest =>
      let! created := planTask userId dayPlan task in
      planTasks userId dayPlan rest (createdTasks ++ [created])
  end.

(** The outer loop [for (const dayPlan of weekPlan)]. *)
Fixpoint planDays (userId : JsVal) (days : list JsVal) (createdTasks : list JsVal)
  : M (list JsVal) :=
  match days with
  | [] => ret createdTasks
  | dayPlan :: rest =>
      let! tasksOfDay := lift (get dayPlan "tasks") in
      let! tasks := lift (iterate tasksOfDay) in
      let! createdTasks := planTasks userId dayPlan tasks createdTasks in
      planDays userId rest createdTasks
  end.

Definition generatePlan_try (reqBody : JsVal) : M Response :=
  let! userId := lift (get reqBody "userId") in
  if negb (truthy userId) then ret (errorJson 400 "User ID required")
  else
    let! today := Date_now in
    let! userProfile := try_catch (loadProfile userId) (fun _ => ret defaultProfile) in
    let! _ := lift (plannerPrompt userProfile) in
    let! aiText := askGemini in
    let! jsonMatch := lift (jsMatch "[" "]" aiText) in
    match jsonMatch with
    | None => throw "Could not parse AI response"
    | Some text =>
        let! weekPlan := lift (JSON_parse text) in
        let! days := lift (iterate weekPlan) in
        let! createdTasks := planDays userId days [] in
        ret (json (object
               [ ("success", JBool true);
                 ("weekPlan", weekPlan);
                 ("tasksCreated", JNum (JS.of_nat (length createdTasks)));
                 ("tasks", JArr createdTasks) ]))
    end.

(** The [catch] block of the handler. *)
Definition generatePlan_catch (message : string) : Response :=
  errorJson 500 (messageOr message "Failed to generate plan").

Definition generatePlan (reqBody : JsVal) : M Response :=
  try_catch (generatePlan_try reqBody) (fun message => ret (generatePlan_catch message)).

(** **** The routes that [registerRoutes] installs *)

Inductive Request :=
| GET_tasks (userId : string)
| POST_tasks (reqBody : JsVal)
| PUT_task (id : string) (reqBody : JsVal)
| DELETE_task (id : string)
| POST_task_complete (id : string)
| POST_ai_parse_task (reqBody : JsVal)
| POST_chat (reqBody : JsVal)
| POST_planner_generate (reqBody : JsVal).

Definition registerRoutes (req : Request) : M Response :=
  match req with
  | GET_tasks userId => getTasks userId
  | POST_tasks reqBody => createTask reqBody
  | PUT_task id reqBody => updateTask id reqBody
  | DELETE_task id => deleteTask id
  | POST_task_complete id => completeTask id
  | POST_ai_parse_task reqBody => parseTask reqBody
  | POST_chat reqBody => chat reqBody
  | POST_planner_generate reqBody => generatePlan reqBody
  end.

(** The outermost [try] block of each handler. *)
Definition tryBlock (req : Request) : M Response :=
  match req with
  | GET_tasks userId => getTasks_try userId
  | POST_tasks reqBody => createTask_try reqBody
  | PUT_task id reqBody => updateTask_try id reqBody
  | DELETE_task id => deleteTask_try id
  | POST_task_complete id => completeTask_try id
  | POST_ai_parse_task reqBody => parseTask_try reqBody
  | POST_chat reqBody => chat_try reqBody
  | POST_planner_generate reqBody => generatePlan_try reqBody
  end.

(** The outermost [catch] block of each handler. *)
Definition catchBlock (req : Request) (message : string) : Response :=
  match req with
  | GET_tasks _ => getTasks_catch message
  | POST_tasks _ => createTask_catch message
  | PUT_task _ _ => updateTask_catch message
  | DELETE_task _ => deleteTask_catch message
  | POST_task_complete _ => completeTask_catch message
  | POST_ai_parse_task _ => parseTask_catch message
  | POST_chat _ => chat_catch message
  | POST_planner_generate _ => generatePlan_catch message
  end.

End Handlers.

(** A task document as a creation path should store it: not completed, no
    notification sent. *)
Definition isFresh (doc : Obj) : Prop :=
  doc !! "completed" = Some (JBool false)
  /\ doc !! "notificationSent" = Some (JBool false).

(** Creation and update time are the same timestamp. *)
Definition isStampedOnce (doc : Obj) : Prop :=
  exists now, doc !! "createdAt" = Some now /\ doc !! "updatedAt" = Some now.

Definition isFreshOnce (doc : Obj) : Prop := isFresh doc /\ isStampedOnce doc.

(** A step that completes normally yields a value satisfying [Q]. *)
Definition post {A} (m : M A) (Q : A -> Prop) : Prop :=
  forall w a w', m w = (JS.Normal a, w') -> Q a.

(** Every task document present after the step was there before, unchanged,
    or satisfies [P]. *)
Definition storesOnly {A} (P : Obj -> Prop) (m : M A) : Prop :=
  forall w r w',
    m w = (r, w') ->
    forall id doc, tasks w' !! id = Some doc -> tasks w !! id = Some doc \/ P doc.

(** A response that reports an error: status 400 or 500 and a JSON object
    with an [error] string. *)
Definition isErrorResponse (r : Response) : Prop :=
  (status r = 400%Z \/ status r = 500%Z)
  /\ exists o message, body r = JObj o /\ o !! "error" = Some (JStr message).

(** A response a handler can send: 200, or 400, 404 or 500 with a JSON
    object holding an [error] string. *)
Definition isHandlerResponse (r : Response) : Prop :=
  status r = 200%Z
  \/ ((status r = 400%Z \/ status r = 404%Z \/ status r = 500%Z)
      /\ exists o message, body r = JObj o /\ o !! "error" = Some (JStr message)).

(** *** Notions used to describe what the routes do to the stored tasks *)

(** The keys a PUT can write: those of [updateTaskSchema] and [updatedAt]. *)
Definition updatableKeys : list string :=
  ["title"; "description"; "scheduledTime"; "duration"; "completed"; "xpReward";
   "updatedAt"].


(** Every coming Firestore call is answered. *)
Definition firestoreAnswers (w : World) : Prop :=
  Forall (fun f => f = None) (faults w).

(** A step relates the tasks collection before and after it by [R],
    whether it completes or throws. *)
Definition relates {A} (R : gmap string Obj -> gmap string Obj -> Prop) (m : M A) : Prop :=
  forall w r w', m w = (r, w') -> R (tasks w) (tasks w').

(** A property of single documents holds of the whole collection. *)
Definition allTasks (P : Obj -> Prop) (t : gmap string Obj) : Prop :=
  forall id doc, t !! id = Some doc -> P doc.

(** The collection keeps satisfying [P]. *)
Definition keeps (P : Obj -> Prop) (t t' : gmap string Obj) : Prop :=
  allTasks P t -> allTasks P t'.

(** [notificationSent] is not [true]. *)
Definition notNotified (doc : Obj) : Prop :=
  doc !! "notificationSent" <> Some (JBool true).

(** [createdAt] and [updatedAt] are timestamps. *)
Definition hasTimestamps (doc : Obj) : Prop :=
  (exists c, doc !! "createdAt" = Some (JTimestamp c))
  /\ (exists u, doc !! "updatedAt" = Some (JTimestamp u)).

(** No id disappears from the collection. *)
Definition keepsIds (t t' : gmap string Obj) : Prop :=
  forall id, is_Some (t !! id) -> is_Some (t' !! id).

(** Between [t] and [t'] every task is still there, the tasks other than
    [id] are as they were, and in task [id] only keys of [ks] differ. *)
Definition changesOnly (ks : list string) (id : string) (t t' : gmap string Obj) : Prop :=
  forall id' doc,
    t !! id' = Some doc ->
    exists doc',
      t' !! id' = Some doc'
      /\ (id' <> id -> doc' = doc)
      /\ (forall k, ~ In k ks -> doc' !! k = doc !! k).

(** An object has no keys outside [ks]. *)
Definition keysWithin (ks : list string) (o : Obj) : Prop :=
  forall k, ~ In k ks -> o !! k = None.



(** What is known of a document a route adds: it is fresh, [createdAt] and
    [updatedAt] are timestamps, and [scheduledTime] is a result of
    [Timestamp.fromDate]. *)
Definition isCreated (fromDate : JsVal -> JS.completion JsVal) (doc : Obj) : Prop :=
  isFresh doc
  /\ hasTimestamps doc
  /\ exists date s, fromDate date = JS.Normal s /\ doc !! "scheduledTime" = Some s.

(** What is known of the changes a route passes to [updateDoc]: only
    updatable keys, [updatedAt] a timestamp, and a [scheduledTime], if any,
    a result of [Timestamp.fromDate]. *)
Definition isUpdate (fromDate : JsVal -> JS.completion JsVal) (changes : Obj) : Prop :=
  keysWithin updatableKeys changes
  /\ (exists n, changes !! "updatedAt" = Some (JTimestamp n))
  /\ (forall s, changes !! "scheduledTime" = Some s ->
        exists date, fromDate date = JS.Normal s).

(** The three fields that [GET /api/tasks/:userId] converts with
    [toDate()] are timestamps. *)
Definition isListable (doc : Obj) : Prop :=
  (exists s, doc !! "scheduledTime" = Some (JTimestamp s))
  /\ hasTimestamps doc.

(** [Timestamp.fromDate] throws or returns a timestamp. *)
Definition givesTimestamps (fromDate : JsVal -> JS.completion JsVal) : Prop :=
  forall date s, fromDate date = JS.Normal s -> exists ms, s = JTimestamp ms.

(** A step leaves a component of the world as it is, whether it completes
    or throws. *)
Definition unchanged {A X} (proj : World -> X) (m : M A) : Prop :=
  forall w r w', m w = (r, w') -> proj w' = proj w.

Definition isDelete (req : Request) : bool :=
  match req with DELETE_task _ => true | _ => false end.

(** The task belongs to the user. *)
Definition ownedBy (userId : string) (doc : Obj) : Prop :=
  doc !! "userId" = Some (JStr userId).

(** The routes that ask the generation API. *)
Definition callsGemini (req : Request) : bool :=
  match req with
  | POST_ai_parse_task _ | POST_chat _ | POST_planner_generate _ => true
  | _ => false
  end.

(** The generation API is down: every coming request to it fails in the
    network or is answered with a status that is not [ok]. *)
Definition isFailure (reply : FetchReply) : Prop :=
  match reply with
  | NetworkError _ => True
  | HttpReply ok _ => ok = false
  end.

Definition apiDown (w : World) : Prop := Forall isFailure (replies w).

(** A step started while the generation API is down: it leaves the tasks
    as they are, the API is still down, and a value it returns satisfies
    [Q]. *)
Definition offline {A} (Q : A -> Prop) (m : M A) : Prop :=
  forall w r w',
    apiDown w ->
    m w = (r, w') ->
    tasks w' = tasks w /\ apiDown w'
    /\ match r with JS.Normal a => Q a | JS.Throw _ => True end.

(** The character occurs in the string. *)
Fixpoint occurs (c : ascii) (s : string) : bool :=
  match s with
  | EmptyString => false
  | String a rest => Ascii.eqb a c || occurs c rest
  end.

End Routes.

(** ** Concrete inputs used by the examples below *)

Module Examples.
Import Pose Face FaceApi.

Definition kp (name : string) (x y : float) : Keypoint :=
  {| kp_x := x; kp_y := y; kp_score := Some 0.9%float; kp_name := Some name |}.

(** Level shoulders 200 px above the hips, nose centred. *)
Definition upright_body : Body :=
  {| b_nose := kp "nose" 320 100;
     b_leftShoulder := kp "left_shoulder" 380 200;
     b_rightShoulder := kp "right_shoulder" 260 200;
     b_leftHip := kp "left_hip" 360 400;
     b_rightHip := kp "right_hip" 280 400 |}.

(** Level shoulders only 100 px above the hips. *)
Definition slouched_level_body : Body :=
  {| b_nose := kp "nose" 320 100;
     b_leftShoulder := kp "left_shoulder" 380 300;
     b_rightShoulder := kp "right_shoulder" 260 300;
     b_leftHip := kp "left_hip" 360 400;
     b_rightHip := kp "right_hip" 280 400 |}.

(** The same torso length and head offset, the shoulders 60 px apart in
    height. *)
Definition slouched_tilted_body : Body :=
  {| b_nose := kp "nose" 320 100;
     b_leftShoulder := kp "left_shoulder" 380 330;
     b_rightShoulder := kp "right_shoulder" 260 270;
     b_leftHip := kp "left_hip" 360 400;
     b_rightHip := kp "right_hip" 280 400 |}.

Definition pose_of_body (b : Body) : Pose :=
  {| keypoints := [b_nose b; b_leftShoulder b; b_rightShoulder b; b_leftHip b; b_rightHip b];
     pose_score := Some 0.8%float |}.

(** The upright pose listed in another order, with an elbow added. *)
Definition upright_pose_reordered : Pose :=
  {| keypoints := [kp "left_elbow" 400 300; b_rightHip upright_body;
                   b_leftHip upright_body; b_rightShoulder upright_body;
                   b_leftShoulder upright_body; b_nose upright_body];
     pose_score := None |}.

(** A pose whose hips were not detected. *)
Definition pose_without_hips : Pose :=
  {| keypoints := [kp "nose" 320 100; kp "left_shoulder" 380 200;
                   kp "right_shoulder" 260 200];
     pose_score := Some 0.4%float |}.

Definition origin : FaceLandmark := {| lm_x := 0; lm_y := 0; lm_z := 0 |}.

(** Ten landmarks: enough to classify, too few for the smile and eyebrow
    heuristics. *)
Definition ten_landmarks : list FaceLandmark := repeat origin 10.

(** Expressions dominated by anger. *)
Definition angry_face : FaceExpressions :=
  {| neutral := 0.05; happy := 0.02; sad := 0.03; angry := 0.8;
     fearful := 0.04; disgusted := 0.03; surprised := 0.03 |}.

(** 468 landmarks with a wide, flat mouth whose corners lie above the nose
    tip in image coordinates: [detectSmile] answers true. *)
Definition smiling_face : list FaceLandmark :=
  <[1%nat := mkLandmark 0.5 0.7 0]>
    (<[13%nat := mkLandmark 0.5 0.59 0]>
       (<[14%nat := mkLandmark 0.5 0.61 0]>
          (<[61%nat := mkLandmark 0.4 0.6 0]>
             (<[291%nat := mkLandmark 0.6 0.6 0]> (repeat origin 468))))).

(** Blendshapes with a strong frown and no smile. *)
Definition frown_shapes : option (list Classifications) :=
  Some [mkClassifications [mkCategory "mouthFrown" 0.9%float]].

(** Expressions in which nothing exceeds the neutral probability. *)
Definition calm_face : FaceExpressions :=
  {| neutral := 0.4; happy := 0.4; sad := 0.1; angry := 0.05;
     fearful := 0.02; disgusted := 0.02; surprised := 0.01 |}.

(** A network in which only the third source of the face models works. *)
Definition unpkg_only : string -> bool :=
  String.eqb "https://unpkg.com/face-api.js@0.22.2/weights".

End Examples.

(** ** Concrete worlds and requests used by the examples below *)

Module RouteExamples.
Import Routes.

(** Stand-ins for the library functions.  The text ["[plan]"] stands for the
    JSON serialisation of [week_plan]; the date string is parsed to midnight
    UTC of that day; [setHours] is taken in UTC; [Timestamp.fromDate]
    accepts valid dates. *)
Definition week_plan : JsVal :=
  JArr [ JObj (object
           [ ("day", JStr "Saturday");
             ("date", JStr "2025-11-29");
             ("tasks", JArr [ JObj (object
                 [ ("title", JStr "Morning Yoga Session");
                   ("description", JStr "15 min gentle yoga");
                   ("time", JStr "07:00");
                   ("duration", JNum 15);
                   ("category", JStr "wellness");
                   ("xpReward", JNum 30) ]) ]) ]) ].

Definition JSON_parse (text : string) : JS.completion JsVal :=
  if String.eqb text "[plan]" then JS.Normal week_plan
  else JS.Throw "SyntaxError: Unexpected token".

Definition Date_new (v : JsVal) : option Z :=
  match v with
  | JStr "2025-11-29" => Some 1764374400000%Z
  | JNum _ => Some 0%Z
  | _ => None
  end.

Definition Date_setHours (d : option Z) (time : string) : option Z :=
  match d with
  | Some ms => if String.eqb time "07:00" then Some (ms + 7 * 3600000)%Z else Some ms
  | None => None
  end.

Definition Timestamp_fromDate (d : JsVal) : JS.completion JsVal :=
  match d with
  | JDate (Some ms) => JS.Normal (JTimestamp ms)
  | _ => JS.Throw "TypeError: invalid date"
  end.

(** A reply of the generation API whose first candidate has the text
    [text]. *)
Definition gemini (text : string) : FetchReply :=
  HttpReply true (JS.Normal (JObj (object
    [("candidates", JArr [JObj (object
        [("content", JObj (object
            [("parts", JArr [JObj (object [("text", JStr text)])])]))])])]))).

(** A stored task whose recorded reward is 0. *)
Definition zero_xp_task : Obj :=
  object [ ("userId", JStr "u1"); ("title", JStr "Stretch");
           ("completed", JBool false); ("notificationSent", JBool false);
           ("xpReward", JNum 0);
           ("createdAt", JTimestamp 1000); ("updatedAt", JTimestamp 1000) ].

(** A stored task with the reward 30. *)
Definition yoga_task : Obj :=
  object [ ("userId", JStr "u1"); ("title", JStr "Yoga");
           ("completed", JBool false); ("notificationSent", JBool false);
           ("xpReward", JNum 30);
           ("createdAt", JTimestamp 1000); ("updatedAt", JTimestamp 1000) ].

(** A world holding these two tasks; the clock reads 5000. *)
Definition two_tasks : World :=
  {| tasks := <["t0" := zero_xp_task]> (<["t1" := yoga_task]> ∅);
     users := ∅;
     clock := [5000%Z];
     faults := [];
     ids := [];
     replies := [] |}.

(** The same world when Firestore rejects the next call. *)
Definition firestore_down : World :=
  {| tasks := tasks two_tasks;
     users := ∅;
     clock := [5000%Z];
     faults := [Some "unavailable"];
     ids := [];
     replies := [] |}.

(** An empty database whose clock advances by one millisecond per reading,
    and a generation API that answers the planner with the plan. *)
Definition planner_world : World :=
  {| tasks := ∅;
     users := ∅;
     clock := [1000%Z; 1001%Z; 1002%Z];
     faults := [];
     ids := ["new1"];
     replies := [gemini "[plan]"] |}.

Definition planner_request : JsVal :=
  JObj (object [("userId", JStr "u1"); ("preferences", JStr "Wellness")]).

(** A chat in which the user lookup is rejected by Firestore, the task
    detection request is not [ok], and the chat request is answered. *)
Definition chat_world : World :=
  {| tasks := ∅;
     users := ∅;
     clock := [];
     faults := [Some "unavailable"];
     ids := [];
     replies := [HttpReply false (JS.Normal JNull); gemini "Hello!"] |}.

Definition chat_request : JsVal :=
  JObj (object [("message", JStr "hi"); ("userId", JStr "u1")]).

(** A request body for [POST /api/tasks] with a key the schema does not
    know. *)
Definition yoga_body : JsVal :=
  JObj (object [ ("title", JStr "Yoga");
                 ("scheduledTime", JDate (Some 1764374400000%Z));
                 ("completed", JBool true) ]).

(** A task as the routes store it, and a world holding it. *)
Definition walk_task : Obj :=
  object [ ("userId", JStr "u1"); ("title", JStr "Walk");
           ("scheduledTime", JTimestamp 1764374400000);
           ("completed", JBool false); ("notificationSent", JBool false);
           ("xpReward", JNum 20);
           ("createdAt", JTimestamp 1000); ("updatedAt", JTimestamp 1000) ].

Definition one_task : World :=
  {| tasks := <["t2" := walk_task]> ∅;
     users := ∅;
     clock := [5000%Z];
     faults := [];
     ids := ["t3"];
     replies := [] |}.

(** A PUT body as the client sends it: JSON has no dates, the time is an
    ISO string. *)
Definition reschedule_body : JsVal :=
  JObj (object [ ("title", JStr "Evening walk");
                 ("scheduledTime", JStr "2025-11-29T18:00:00.000Z") ]).

(** A PUT body without a time. *)
Definition rename_body : JsVal :=
  JObj (object [ ("title", JStr "Evening walk"); ("userId", JStr "u2") ]).

End RouteExamples.

(* ===================================================================== *)
(** * Part II: properties *)
(* ===================================================================== *)

(** ** The built-ins on concrete inputs *)

Example Math_floor_examples :
  JS.Math_floor (0.99 * JS.of_nat 4)%float = Some 3%Z
  /\ JS.Math_floor (0.5 * JS.of_nat 3)%float = Some 1%Z
  /\ JS.Math_floor 0 = Some 0%Z
  /\ JS.Math_floor (-0.5)%float = Some (-1)%Z
  /\ JS.Math_floor PrimFloat.nan = None.
Proof. vm_compute. repeat split; reflexivity. Qed.

Example includes_examples :
  JS.includes "Slouching detected" "Slouching" = true
  /\ JS.includes "Leaning left" "Leaning" = true
  /\ JS.includes "Leaning left" "Leaning right" = false
  /\ JS.includes "Forward head posture" "Forward head" = true
  /\ JS.includes "" "x" = false.
Proof. vm_compute. repeat split; reflexivity. Qed.

Example slice_last_examples :
  JS.slice_last 2 [1; 2; 3]%nat = [2; 3]%nat
  /\ JS.slice_last 19 [1; 2; 3]%nat = [1; 2; 3]%nat
  /\ JS.last_entry [1; 2; 3]%nat = Some 3%nat
  /\ JS.last_entry (@nil nat) = None.
Proof. vm_compute. repeat split; reflexivity. Qed.

Example matchBetween_examples :
  Routes.matchBetween "{" "}" "Sure: {x} and {y} done" = Some "{x} and {y}"
  /\ Routes.matchBetween "{" "}" "} then {" = None
  /\ Routes.matchBetween "[" "]" "no brackets" = None.
Proof. vm_compute. repeat split; reflexivity. Qed.

Example isInteger_examples :
  Routes.isInteger 30 = true
  /\ Routes.isInteger 30.5 = false
  /\ Routes.isInteger 0 = true
  /\ Routes.isInteger PrimFloat.infinity = false.
Proof. vm_compute. repeat split; reflexivity. Qed.

Example truthy_examples :
  Routes.truthy (Routes.JNum 0) = false
  /\ Routes.truthy (Routes.JNum PrimFloat.nan) = false
  /\ Routes.truthy (Routes.JNum 30) = true
  /\ Routes.truthy (Routes.JStr "") = false
  /\ Routes.truthy (Routes.JArr []) = true.
Proof. vm_compute. repeat split; reflexivity. Qed.

(** The creation schema keeps the known keys, drops the others and fills in
    the default reward. *)
Example insertTaskSchema_example :
  match Routes.insertTaskSchema_parse
          (Routes.JObj (Routes.object
             [ ("title", Routes.JStr "Yoga");
               ("scheduledTime", Routes.JDate (Some 1764374400000%Z));
               ("completed", Routes.JBool true) ])) with
  | JS.Normal o =>
      o !! "title" = Some (Routes.JStr "Yoga")
      /\ o !! "xpReward" = Some (Routes.JNum 50)
      /\ o !! "completed" = None
  | JS.Throw _ => False
  end.
Proof. vm_compute. repeat split; reflexivity. Qed.

Example insertTaskSchema_rejects :
  Routes.insertTaskSchema_parse
    (Routes.JObj (Routes.object
       [ ("title", Routes.JStr "");
         ("scheduledTime", Routes.JDate (Some 1764374400000%Z)) ]))
  = JS.Throw Routes.zodError.
Proof. vm_compute. reflexivity. Qed.

(** ** Posture analysis *)

Section PostureFacts.
Import Pose.

(** With fewer than five named keypoints the analysis gives up. *)
Lemma analyzePosture_insufficient (pose : Pose) (rest : list Pose) :
  body_of pose = None ->
  analyzePosture (Some (pose :: rest)) = insufficient.
Proof.
  unfold body_of, analyzePosture; cbv zeta.
  destruct (find_named "nose" _); [|reflexivity].
  destruct (find_named "left_shoulder" _); [|reflexivity].
  destruct (find_named "right_shoulder" _); [|reflexivity].
  destruct (find_named "left_hip" _); [|reflexivity].
  destruct (find_named "right_hip" _); [discriminate|reflexivity].
Qed.

(** With all five keypoints the result is a function of the measured
    quantities alone. *)
Lemma analyzePosture_measured (pose : Pose) (rest : list Pose) (b : Body) :
  body_of pose = Some b ->
  analyzePosture (Some (pose :: rest))
  = posture_of (torso_length b) (shoulder_difference b)
               (left_shoulder_lower b) (head_offset b).
Proof.
  unfold body_of, analyzePosture; cbv zeta.
  destruct (find_named "nose" _) as [n|]; [|discriminate].
  destruct (find_named "left_shoulder" _) as [ls|]; [|discriminate].
  destruct (find_named "right_shoulder" _) as [rs|]; [|discriminate].
  destruct (find_named "left_hip" _) as [lh|]; [|discriminate].
  destruct (find_named "right_hip" _) as [rh|]; [|discriminate].
  intros [= <-].
  unfold posture_of, torso_length, shoulder_difference, left_shoulder_lower,
    head_offset, JS.lt, JS.gt, JS.Math_abs; cbn [b_nose b_leftShoulder
    b_rightShoulder b_leftHip b_rightHip].
  destruct (PrimFloat.ltb (PrimFloat.abs _) 150);
    destruct (PrimFloat.ltb 20 _);
    destruct (PrimFloat.ltb (kp_y rs) (kp_y ls));
    destruct (PrimFloat.ltb 30 _); reflexivity.
Qed.

Lemma posture_of_status_label torso diff lower head :
  In (status (posture_of torso diff lower head)) postureLabels.
Proof.
  unfold posture_of, status_by_precedence, postureLabels; cbn [status].
  destruct (PrimFloat.ltb torso 150), (PrimFloat.ltb 20 diff), lower,
    (PrimFloat.ltb 30 head); cbn; tauto.
Qed.

Lemma posture_of_score_range torso diff lower head :
  (0 <= score (posture_of torso diff lower head) <= 100)%Z.
Proof.
  unfold posture_of, score_by_penalties; cbn [score].
  destruct (PrimFloat.ltb torso 150), (PrimFloat.ltb 20 diff),
    (PrimFloat.ltb 30 head); lia.
Qed.

(** Every input falls in one of the three cases. *)
Lemma analyzePosture_cases (poses : option (list Pose)) :
  analyzePosture poses = no_pose
  \/ analyzePosture poses = insufficient
  \/ exists pose rest b,
       poses = Some (pose :: rest) /\ body_of pose = Some b
       /\ analyzePosture poses
          = posture_of (torso_length b) (shoulder_difference b)
                       (left_shoulder_lower b) (head_offset b).
Proof.
  destruct poses as [[|pose rest]|]; [left; reflexivity| |left; reflexivity].
  destruct (body_of pose) as [b|] eqn:Hb.
  - right; right. exists pose, rest, b. eauto using analyzePosture_measured.
  - right; left. now apply analyzePosture_insufficient.
Qed.

End PostureFacts.

(** ** Mood classification *)

Section MoodFacts.
Import Face.

(** With at least 468 landmarks every index [detectSmile] reads exists. *)
Lemma lookup_present (lms : list FaceLandmark) (i n : nat) :
  (length lms <? n)%nat = false -> (i < n)%nat -> exists l, lms !! i = Some l.
Proof.
  intros Hlen Hi. apply Nat.ltb_ge in Hlen.
  destruct (lookup_lt_is_Some_2 lms i) as [l Hl]; [lia|]. now exists l.
Qed.

(** [detectSmile] never throws. *)
Lemma detectSmile_total (landmarks : option (list FaceLandmark)) :
  exists b, detectSmile landmarks = JS.Normal b.
Proof.
  destruct landmarks as [lms|]; [|now exists false].
  unfold detectSmile.
  destruct (length lms <? 468)%nat eqn:Hlen; [now exists false|].
  destruct (lookup_present lms 61 468 Hlen) as [a Ha]; [lia|].
  destruct (lookup_present lms 291 468 Hlen) as [b Hb]; [lia|].
  destruct (lookup_present lms 13 468 Hlen) as [c Hc]; [lia|].
  destruct (lookup_present lms 14 468 Hlen) as [d Hd]; [lia|].
  destruct (lookup_present lms 1 468 Hlen) as [e He]; [lia|].
  rewrite Ha, Hb, Hc, Hd, He. cbn [JS.prop JS.bind]. eauto.
Qed.

(** Without enough landmarks the smile test answers [false]. *)
Lemma detectSmile_short (lms : list FaceLandmark) :
  (length lms < 468)%nat -> detectSmile (Some lms) = JS.Normal false.
Proof.
  intros H. unfold detectSmile.
  destruct (Nat.ltb_spec (length lms) 468); [reflexivity|lia].
Qed.

(** With at least ten landmarks the label is a function of the blendshape
    verdict, the smile test and the eyebrow ratio. *)
Lemma classifyMood_factors (lms : list FaceLandmark)
    (blendshapes : option (list Classifications)) :
  (10 <= length lms)%nat ->
  exists smiling,
    detectSmile (Some lms) = JS.Normal smiling
    /\ classifyMood (Some lms) blendshapes
       = JS.Normal (mood_of (shapes_verdict blendshapes) smiling (eyebrow_ratio lms)).
Proof.
  intros Hlen.
  destruct (detectSmile_total (Some lms)) as [smiling Hs].
  exists smiling. split; [exact Hs|].
  unfold classifyMood.
  destruct (Nat.ltb_spec (length lms) 10) as [?|_]; [lia|].
  rewrite Hs. cbn [JS.bind].
  unfold shapes_verdict, eyebrow_ratio, mood_of, mood_of_ratio, JS.gt, JS.lt,
    JS.Math_abs.
  destruct blendshapes as [[|first rest]|];
    [ | destruct (scanShapes (categories first) 0 0) as [sm fr];
        destruct (PrimFloat.ltb 0.3 sm); [reflexivity|];
        destruct (PrimFloat.ltb 0.3 fr); [reflexivity|] | ];
    (destruct smiling; [reflexivity|];
     destruct (300 <=? length lms)%nat; [|reflexivity];
     destruct (lms !! 70%nat) as [le|]; [|reflexivity];
     destruct (lms !! 300%nat) as [re|]; [|reflexivity];
     destruct (lms !! 1%nat) as [nt|]; [|reflexivity];
     destruct (lms !! 152%nat) as [ch|]; [|reflexivity];
     destruct (PrimFloat.ltb 0 _); [|reflexivity];
     destruct (PrimFloat.ltb _ 0.3); [reflexivity|];
     destruct (PrimFloat.ltb _ 0.4); reflexivity).
Qed.

Lemma mood_of_ratio_label (r : float) : In (mood_of_ratio r) moodLabels.
Proof.
  unfold mood_of_ratio, moodLabels.
  destruct (PrimFloat.ltb r 0.3), (PrimFloat.ltb r 0.4); cbn; tauto.
Qed.

Lemma shapes_verdict_label (blendshapes : option (list Classifications)) (m : string) :
  shapes_verdict blendshapes = Some m -> m = "Happy" \/ m = "Sad".
Proof.
  unfold shapes_verdict.
  destruct blendshapes as [[|first rest]|]; try discriminate.
  destruct (scanShapes (categories first) 0 0) as [sm fr].
  destruct (PrimFloat.ltb 0.3 sm); [intros [= <-]; now left|].
  destruct (PrimFloat.ltb 0.3 fr); [intros [= <-]; now right|discriminate].
Qed.

Lemma mood_of_label verdict smiling ratio :
  (forall m, verdict = Some m -> m = "Happy" \/ m = "Sad") ->
  In (mood_of verdict smiling ratio) moodLabels.
Proof.
  intros Hv. unfold mood_of.
  destruct verdict as [m|].
  - destruct (Hv m eq_refl) as [-> | ->]; cbn; tauto.
  - destruct smiling; [cbn; tauto|].
    destruct ratio; [apply mood_of_ratio_label|cbn; tauto].
Qed.

(** [classifyMood] never throws and answers with one of the five labels. *)
Lemma classifyMood_label (landmarks : option (list FaceLandmark))
    (blendshapes : option (list Classifications)) :
  exists m, classifyMood landmarks blendshapes = JS.Normal m /\ In m moodLabels.
Proof.
  destruct landmarks as [lms|].
  - destruct (Nat.ltb_spec (length lms) 10) as [Hlt|Hge].
    + exists "Analyzing...". split; [|cbn; tauto].
      unfold classifyMood. destruct (Nat.ltb_spec (length lms) 10); [reflexivity|lia].
    + destruct (classifyMood_factors lms blendshapes Hge) as (s & _ & ->).
      eexists; split; [reflexivity|].
      apply mood_of_label, shapes_verdict_label.
  - exists "Analyzing...". split; [reflexivity|cbn; tauto].
Qed.

End MoodFacts.

(** ** Emotion detection *)

Section EmotionFacts.
Import FaceApi.

(** The loop returns the initial pair or one of the entries. *)
Lemma maxEntry_choice (es : list (string * float)) (init : string * float) :
  maxEntry es init = init \/ In (maxEntry es init) es.
Proof.
  unfold maxEntry. revert init.
  induction es as [|e es IH]; intros init; cbn [fold_left]; [now left|].
  destruct (IH (if JS.gt (snd e) (snd init) then e else init)) as [H|H].
  - rewrite H. destruct (JS.gt (snd e) (snd init)); [right; now left|now left].
  - right; now right.
Qed.

Lemma detectEmotion_label (d : Detection) :
  match detectEmotion d with
  | Some r => In (expression r) emotionLabels
  | None => True
  end.
Proof.
  destruct d as [msg| |e]; cbn [detectEmotion]; trivial.
  destruct (maxEntry (entries e) ("neutral", neutral e)) as [k p] eqn:Hm.
  cbn [expression].
  assert (Hk : In k ["neutral"; "happy"; "sad"; "angry"; "fearful"; "disgusted"; "surprised"]).
  { destruct (maxEntry_choice (entries e) ("neutral", neutral e)) as [H|H];
      rewrite Hm in H.
    - injection H as -> _. now left.
    - apply (in_map fst) in H. exact H. }
  cbn in Hk.
  destruct Hk as [<-|[<-|[<-|[<-|[<-|[<-|[<-|[]]]]]]]]; cbn; tauto.
Qed.

End EmotionFacts.

(** ** The rolling history *)

Section HistoryFacts.
Import CameraTools.

Lemma slice_last_length {A} (n : nat) (xs : list A) :
  length (JS.slice_last n xs) = Nat.min n (length xs).
Proof.
  unfold JS.slice_last. rewrite length_skipn.
  destruct (Nat.min_spec n (length xs)) as [[? ->]|[? ->]]; lia.
Qed.

(** [slice(-n)] is the suffix of the last [n] elements. *)
Lemma slice_last_suffix {A} (n : nat) (xs : list A) :
  firstn (length xs - n) xs ++ JS.slice_last n xs = xs.
Proof. unfold JS.slice_last. apply firstn_skipn. Qed.

Lemma updateHistory_length (entry : HistoryEntry) (prev : list HistoryEntry) :
  (length prev <= 20)%nat -> (length (updateHistory entry prev) <= 20)%nat.
Proof.
  intros H. unfold updateHistory.
  destruct (isNewEntry prev entry); [|exact H].
  rewrite length_app, slice_last_length. cbn [length]. lia.
Qed.

Lemma step_history_bound (s : State) (e : Event) :
  (length (history s) <= 20)%nat -> (length (history (step s e)) <= 20)%nat.
Proof.
  intros H. destruct e as [m w| |t d|t poses]; cbn [step].
  - unfold startAnalysis.
    destruct (negb (isModelLoaded s) && negb m); [exact H|].
    destruct (negb w); cbn; [exact H|lia].
  - exact H.
  - unfold analyzeMoodFrame. destruct (FaceApi.detectEmotion d); [|exact H].
    cbn [history]. now apply updateHistory_length.
  - unfold analyzePostureFrame. destruct poses as [[|p ps]|]; try exact H.
    cbn [history]. now apply updateHistory_length.
Qed.

Lemma fold_history_bound (events : list Event) (s : State) :
  (length (history s) <= 20)%nat ->
  (length (history (fold_left step events s)) <= 20)%nat.
Proof.
  revert s. induction events as [|e events IH]; intros s H; cbn [fold_left].
  - exact H.
  - apply IH. now apply step_history_bound.
Qed.

End HistoryFacts.

(** ** The task and AI routes *)

Section RouteFacts.
Import Routes.

(** *** Objects *)

Lemma object_two (k1 k2 : string) (v1 v2 : JsVal) (data : Obj) :
  spread data (object [(k1, v1); (k2, v2)]) = <[k2 := v2]> (<[k1 := v1]> data).
Proof.
  unfold spread, object, assign; cbn [fold_left fst snd].
  rewrite <- !insert_union_l. now rewrite (left_id_L ∅ (∪)).
Qed.

Lemma error_field (message : string) :
  object [("error", JStr message)] !! "error" = Some (JStr message).
Proof. unfold object, assign; cbn [fold_left fst snd]. apply lookup_insert_eq. Qed.

Lemma errorJson_isErrorResponse (code : Z) (message : string) :
  code = 400%Z \/ code = 500%Z -> isErrorResponse (errorJson code message).
Proof.
  intros H. split; [exact H|].
  exists (object [("error", JStr message)]), message.
  split; [reflexivity|apply error_field].
Qed.

Lemma errorJson_isHandlerResponse (code : Z) (message : string) :
  code = 400%Z \/ code = 404%Z \/ code = 500%Z -> isHandlerResponse (errorJson code message).
Proof.
  intros H. right. split; [exact H|].
  exists (object [("error", JStr message)]), message.
  split; [reflexivity|apply error_field].
Qed.

(** *** Steps that complete normally establish a postcondition *)

Lemma post_ret {A} (a : A) (Q : A -> Prop) : Q a -> post (ret a) Q.
Proof. intros H w b w' [= <- _]. exact H. Qed.

Lemma post_throw {A} (message : string) (Q : A -> Prop) : post (throw message) Q.
Proof. intros w b w' [=]. Qed.

Lemma post_bind {A B} (m : M A) (k : A -> M B) (Q : B -> Prop) :
  (forall a, post (k a) Q) -> post (bind m k) Q.
Proof.
  intros H w b w'. unfold bind.
  destruct (m w) as [[a|e] w1]; [apply H|discriminate].
Qed.

(** *** [try]/[catch] with a handler that responds never throws *)

Lemma try_catch_responds {A} (body : M A) (handler : string -> A) (w : World) :
  exists a w',
    try_catch body (fun e => ret (handler e)) w = (JS.Normal a, w')
    /\ (forall e w1, body w = (JS.Throw e, w1) -> w' = w1 /\ a = handler e)
    /\ (forall b w1, body w = (JS.Normal b, w1) -> w' = w1 /\ a = b).
Proof.
  unfold try_catch, ret.
  destruct (body w) as [[b|e] w1]; eexists; eexists;
    (split; [reflexivity|]); split; intros ? ? [=]; subst; auto.
Qed.

(** *** Running the steps *)

Lemma bind_normal {A B} (m : M A) (k : A -> M B) (w : World) (a : A) (w1 : World) :
  m w = (JS.Normal a, w1) -> bind m k w = k a w1.
Proof. intros H. unfold bind. now rewrite H. Qed.

(** Under a Firestore that answers, a call leaves the collections and the
    clock as they are. *)
Lemma firestore_answers (w : World) :
  Forall (fun f => f = None) (faults w) ->
  exists w',
    firestore w = (JS.Normal tt, w')
    /\ tasks w' = tasks w /\ clock w' = clock w
    /\ Forall (fun f => f = None) (faults w').
Proof.
  intros H. unfold firestore.
  destruct (faults w) as [|f rest] eqn:E.
  - exists w. rewrite E. auto.
  - inversion H as [|? ? Hf Hrest]; subst.
    eexists. split; [reflexivity|]. cbn. auto.
Qed.

Lemma getTask_answers (id : string) (w : World) :
  Forall (fun f => f = None) (faults w) ->
  exists w',
    getTask id w = (JS.Normal (tasks w !! id), w')
    /\ tasks w' = tasks w /\ clock w' = clock w
    /\ Forall (fun f => f = None) (faults w').
Proof.
  intros H. destruct (firestore_answers w H) as (w' & Hf & Ht & Hc & Hup).
  exists w'. unfold getTask. rewrite (bind_normal _ _ _ _ _ Hf).
  rewrite Ht. auto.
Qed.

Lemma Timestamp_now_reads (w : World) :
  exists w',
    Timestamp_now w = (JS.Normal (JTimestamp (default 0%Z (head (clock w)))), w')
    /\ tasks w' = tasks w /\ faults w' = faults w.
Proof.
  unfold Timestamp_now, bind, Date_now.
  destruct (clock w); eexists; (split; [reflexivity|]); cbn; auto.
Qed.

Lemma updateDoc_answers (id : string) (changes data : Obj) (w : World) :
  Forall (fun f => f = None) (faults w) ->
  tasks w !! id = Some data ->
  exists w',
    updateDoc id changes w = (JS.Normal tt, w')
    /\ tasks w' = <[id := spread data changes]> (tasks w).
Proof.
  intros H Hlook. destruct (firestore_answers w H) as (w1 & Hf & Ht & _ & _).
  unfold updateDoc. rewrite (bind_normal _ _ _ _ _ Hf). cbv beta.
  rewrite Ht, Hlook.
  eexists. split; [reflexivity|]. reflexivity.
Qed.

(** *** Every handler is its [try] block guarded by its [catch] block *)

Lemma catchBlock_isErrorResponse (req : Request) (message : string) :
  isErrorResponse (catchBlock req message).
Proof.
  destruct req; cbn [catchBlock];
    try (apply errorJson_isErrorResponse; tauto).
  unfold chat_catch. split; [right; reflexivity|].
  eexists; eexists; split; [reflexivity|].
  unfold object, assign; cbn [fold_left fst snd].
  rewrite lookup_insert_ne by discriminate. apply lookup_insert_eq.
Qed.

Lemma json_isHandlerResponse (o : Obj) : isHandlerResponse (json o).
Proof. now left. Qed.

Section WithLibrary.
Variable JSON_parse : string -> JS.completion JsVal.
Variable Date_new : JsVal -> option Z.
Variable Date_setHours : option Z -> string -> option Z.
Variable Timestamp_fromDate : JsVal -> JS.completion JsVal.

Abbreviation route := (registerRoutes JSON_parse Date_new Date_setHours Timestamp_fromDate).
Abbreviation block := (tryBlock JSON_parse Date_new Date_setHours Timestamp_fromDate).

Lemma registerRoutes_guarded (req : Request) :
  route req = try_catch (block req) (fun message => ret (catchBlock req message)).
Proof. destruct req; reflexivity. Qed.

(** One step of a proof that a block only returns handler responses. *)
Ltac post_step :=
  match goal with
  | |- post (ret (json _)) _ => apply post_ret, json_isHandlerResponse
  | |- post (ret (mkResponse 200 _)) _ => apply post_ret; now left
  | |- post (ret (errorJson _ _)) _ =>
      apply post_ret, errorJson_isHandlerResponse; tauto
  | |- post (throw _) _ => apply post_throw
  | |- post (bind _ _) _ => apply post_bind; intros
  | |- post (if ?b then _ else _) _ => destruct b
  | |- post (match ?x with _ => _ end) _ => destruct x
  end.

Lemma tryBlock_responses (req : Request) : post (block req) isHandlerResponse.
Proof.
  destruct req; cbn [tryBlock];
    unfold getTasks_try, createTask_try, updateTask_try, deleteTask_try,
      completeTask_try, parseTask_try, chat_try, generatePlan_try;
    repeat post_step.
Qed.

End WithLibrary.

(** *** What the creation paths store *)

Lemma storesOnly_same_tasks {A} (P : Obj -> Prop) (m : M A) :
  (forall w r w', m w = (r, w') -> tasks w' = tasks w) -> storesOnly P m.
Proof. intros H w r w' E id doc Hdoc. left. now rewrite <- (H w r w' E). Qed.

Lemma storesOnly_ret {A} (P : Obj -> Prop) (a : A) : storesOnly P (ret a).
Proof. apply storesOnly_same_tasks. now intros w r w' [= _ <-]. Qed.

Lemma storesOnly_throw {A} (P : Obj -> Prop) (e : string) : storesOnly P (@throw A e).
Proof. apply storesOnly_same_tasks. now intros w r w' [= _ <-]. Qed.

Lemma storesOnly_lift {A} (P : Obj -> Prop) (c : JS.completion A) : storesOnly P (lift c).
Proof. apply storesOnly_same_tasks. now intros w r w' [= _ <-]. Qed.

Lemma storesOnly_bind {A B} (P : Obj -> Prop) (m : M A) (k : A -> M B) :
  storesOnly P m -> (forall a, storesOnly P (k a)) -> storesOnly P (bind m k).
Proof.
  intros Hm Hk w r w' E id doc Hdoc. unfold bind in E.
  destruct (m w) as [[a|e] w1] eqn:Em.
  - destruct (Hk a w1 r w' E id doc Hdoc) as [H|H]; [|now right].
    exact (Hm w _ w1 Em id doc H).
  - injection E as <- <-. exact (Hm w _ w1 Em id doc Hdoc).
Qed.

Lemma storesOnly_try_catch {A} (P : Obj -> Prop) (body : M A) (handler : string -> M A) :
  storesOnly P body -> (forall e, storesOnly P (handler e)) ->
  storesOnly P (try_catch body handler).
Proof.
  intros Hb Hh w r w' E id doc Hdoc. unfold try_catch in E.
  destruct (body w) as [[a|e] w1] eqn:Eb.
  - injection E as <- <-. exact (Hb w _ w1 Eb id doc Hdoc).
  - destruct (Hh e w1 r w' E id doc Hdoc) as [H|H]; [|now right].
    exact (Hb w _ w1 Eb id doc H).
Qed.

Lemma storesOnly_firestore (P : Obj -> Prop) : storesOnly P firestore.
Proof.
  apply storesOnly_same_tasks. intros w r w'. unfold firestore.
  destruct (faults w) as [|[e|] rest]; now intros [= _ <-].
Qed.

Lemma storesOnly_Date_now (P : Obj -> Prop) : storesOnly P Date_now.
Proof.
  apply storesOnly_same_tasks. intros w r w'. unfold Date_now.
  destruct (clock w); now intros [= _ <-].
Qed.

Lemma storesOnly_Timestamp_now (P : Obj -> Prop) : storesOnly P Timestamp_now.
Proof.
  apply storesOnly_bind; [apply storesOnly_Date_now|intros; apply storesOnly_ret].
Qed.

Lemma storesOnly_fetch (P : Obj -> Prop) : storesOnly P fetch.
Proof.
  apply storesOnly_same_tasks. intros w r w'. unfold fetch.
  destruct (replies w) as [|[e|ok json] rest]; now intros [= _ <-].
Qed.

Lemma storesOnly_getUser (P : Obj -> Prop) (id : string) : storesOnly P (getUser id).
Proof.
  apply storesOnly_bind; [apply storesOnly_firestore|intros _].
  apply storesOnly_same_tasks. now intros w r w' [= _ <-].
Qed.

Lemma storesOnly_addDoc (P : Obj -> Prop) (data : Obj) :
  P data -> storesOnly P (addDoc data).
Proof.
  intros HP. apply storesOnly_bind; [apply storesOnly_firestore|intros _].
  intros w r w' [= _ <-] id doc. cbn [tasks].
  destruct (decide (default "" (head (ids w)) = id)) as [->|Hne].
  - rewrite lookup_insert_eq. intros [= <-]. now right.
  - rewrite lookup_insert_ne by exact Hne. now left.
Qed.

Lemma storesOnly_bind_lift {A B} (P : Obj -> Prop) (c : JS.completion A) (k : A -> M B) :
  (forall a, c = JS.Normal a -> storesOnly P (k a)) -> storesOnly P (bind (lift c) k).
Proof.
  intros Hk w r w' E. unfold bind, lift in E.
  destruct c as [a|e].
  - exact (Hk a eq_refl w r w' E).
  - injection E as <- <-. intros id doc Hdoc. now left.
Qed.

(** The document of the manual, AI-parse and chat paths. *)
Lemma newTask_fresh (userId : JsVal) (validatedData : Obj) (scheduledTime now : JsVal) :
  isFresh (newTask userId validatedData scheduledTime now)
  /\ isStampedOnce (newTask userId validatedData scheduledTime now).
Proof.
  unfold isFresh, isStampedOnce, newTask, assign; cbn [fold_left fst snd].
  split; [split|exists now; split];
    repeat (rewrite lookup_insert_ne by discriminate);
    apply lookup_insert_eq.
Qed.

(** The document of the planner path. *)
Lemma plannedTask_fresh (userId task scheduledTime createdAt updatedAt : JsVal) (doc : Obj) :
  plannedTask userId task scheduledTime createdAt updatedAt = JS.Normal doc ->
  isFresh doc
  /\ doc !! "createdAt" = Some createdAt /\ doc !! "updatedAt" = Some updatedAt.
Proof.
  unfold plannedTask.
  destruct (get task "title") as [title|]; [|discriminate].
  destruct (get task "description") as [description|]; [|discriminate].
  destruct (get task "duration") as [duration|]; [|discriminate].
  destruct (get task "xpReward") as [xpReward|]; [|discriminate].
  destruct (get task "category") as [category|]; [|discriminate].
  cbn [JS.bind]. intros [= <-].
  unfold isFresh, object, assign; cbn [fold_left fst snd].
  repeat split;
    repeat (rewrite lookup_insert_ne by discriminate);
    apply lookup_insert_eq.
Qed.

Section CreationPaths.
Variable JSON_parse : string -> JS.completion JsVal.
Variable Date_new : JsVal -> option Z.
Variable Date_setHours : option Z -> string -> option Z.
Variable Timestamp_fromDate : JsVal -> JS.completion JsVal.

(** One step of a proof about what a block stores. *)
Ltac stores_step :=
  match goal with
  | |- storesOnly _ (ret _) => apply storesOnly_ret
  | |- storesOnly _ (throw _) => apply storesOnly_throw
  | |- storesOnly _ (lift _) => apply storesOnly_lift
  | |- storesOnly _ firestore => apply storesOnly_firestore
  | |- storesOnly _ Date_now => apply storesOnly_Date_now
  | |- storesOnly _ Timestamp_now => apply storesOnly_Timestamp_now
  | |- storesOnly _ fetch => apply storesOnly_fetch
  | |- storesOnly _ (getUser _) => apply storesOnly_getUser
  | |- storesOnly _ (addDoc (newTask _ _ _ _)) =>
      apply storesOnly_addDoc, newTask_fresh
  | |- storesOnly _ (bind _ _) => apply storesOnly_bind; [|intros]
  | |- storesOnly _ (try_catch _ _) => apply storesOnly_try_catch; [|intros]
  | |- storesOnly _ (if ?b then _ else _) => destruct b
  | |- storesOnly _ (match ?x with _ => _ end) => destruct x
  end.

Lemma storeTask_stores (userId : JsVal) (validatedData : Obj) :
  storesOnly isFreshOnce (storeTask Timestamp_fromDate userId validatedData).
Proof. unfold storeTask. repeat stores_step. Qed.

Lemma askGemini_stores (P : Obj -> Prop) : storesOnly P askGemini.
Proof. unfold askGemini. repeat stores_step. Qed.

Lemma createTask_stores (reqBody : JsVal) :
  storesOnly isFreshOnce (createTask Date_new Timestamp_fromDate reqBody).
Proof.
  unfold createTask, createTask_try.
  repeat first [apply storeTask_stores | stores_step].
Qed.

Lemma parseTask_stores (reqBody : JsVal) :
  storesOnly isFreshOnce (parseTask JSON_parse Date_new Timestamp_fromDate reqBody).
Proof.
  unfold parseTask, parseTask_try.
  repeat first [apply storeTask_stores | apply askGemini_stores | stores_step].
Qed.

Lemma chat_stores (reqBody : JsVal) :
  storesOnly isFreshOnce (chat JSON_parse Date_new Timestamp_fromDate reqBody).
Proof.
  unfold chat, chat_try, detectTask, detectAndCreate, lookupUser.
  repeat first [apply storeTask_stores | apply askGemini_stores | stores_step].
Qed.

Lemma planTask_stores (userId dayPlan task : JsVal) :
  storesOnly isFresh (planTask Date_new Date_setHours Timestamp_fromDate userId dayPlan task).
Proof.
  unfold planTask.
  apply storesOnly_bind; [stores_step|intros date].
  apply storesOnly_bind; [stores_step|intros time].
  destruct time; try apply storesOnly_throw.
  apply storesOnly_bind; [stores_step|intros scheduledTime].
  apply storesOnly_bind; [stores_step|intros createdAt].
  apply storesOnly_bind; [stores_step|intros updatedAt].
  apply storesOnly_bind_lift. intros doc E.
  apply storesOnly_bind; [|intros; stores_step].
  apply storesOnly_addDoc. exact (proj1 (plannedTask_fresh _ _ _ _ _ _ E)).
Qed.

Lemma planTasks_stores (userId dayPlan : JsVal) (tasks created : list JsVal) :
  storesOnly isFresh
    (planTasks Date_new Date_setHours Timestamp_fromDate userId dayPlan tasks created).
Proof.
  revert created. induction tasks as [|task rest IH]; intros created; cbn [planTasks].
  - apply storesOnly_ret.
  - apply storesOnly_bind; [apply planTask_stores|intros; apply IH].
Qed.

Lemma planDays_stores (userId : JsVal) (days created : list JsVal) :
  storesOnly isFresh
    (planDays Date_new Date_setHours Timestamp_fromDate userId days created).
Proof.
  revert created. induction days as [|dayPlan rest IH]; intros created; cbn [planDays].
  - apply storesOnly_ret.
  - repeat first [apply planTasks_stores | apply IH | stores_step].
Qed.

Lemma generatePlan_stores (reqBody : JsVal) :
  storesOnly isFresh
    (generatePlan JSON_parse Date_new Date_setHours Timestamp_fromDate reqBody).
Proof.
  unfold generatePlan, generatePlan_try, loadProfile.
  repeat first [apply planDays_stores | apply askGemini_stores | stores_step].
Qed.

(** On all four creation paths every stored document has [completed] and
    [notificationSent] false; on the manual, AI-parse and chat paths its
    [createdAt] and [updatedAt] are one and the same timestamp. *)
Lemma creation_paths_store_fresh_tasks (reqBody : JsVal) :
  storesOnly isFreshOnce
    (createTask Date_new Timestamp_fromDate reqBody)
  /\ storesOnly isFreshOnce
       (parseTask JSON_parse Date_new Timestamp_fromDate reqBody)
  /\ storesOnly isFreshOnce
       (chat JSON_parse Date_new Timestamp_fromDate reqBody)
  /\ storesOnly isFresh
       (generatePlan JSON_parse Date_new Date_setHours Timestamp_fromDate reqBody).
Proof.
  split; [apply createTask_stores|].
  split; [apply parseTask_stores|].
  split; [apply chat_stores|apply generatePlan_stores].
Qed.

End CreationPaths.

End RouteFacts.

(** ** Claims about the classifiers *)

Section ClassifierClaims.
Import Pose Face FaceApi.

(** C1, as stated, fails: [detectEmotion], the mood classifier the camera
    panel calls, reports "Angry" for a face whose dominant expression is
    anger, and "Angry" is not one of the five mood labels. *)
Lemma C1_angry_is_not_a_mood_label :
  detectEmotion (FaceFound Examples.angry_face)
  = Some {| expression := "Angry"; probability := 0.8 |}
  /\ ~ In "Angry" moodLabels.
Proof.
  split; [vm_compute; reflexivity|].
  unfold moodLabels. cbn. intros H.
  repeat (destruct H as [H|H]; [discriminate H|]). exact H.
Qed.

(** C1 (amended): [classifyMood] never throws and returns one of Happy,
    Neutral, Sad, Stressed, Analyzing...; [analyzePosture] returns one of
    good, slouching, leaning_left, leaning_right, forward_head; and
    [detectEmotion], when it returns a result, reports one of Happy, Sad,
    Angry, Neutral, Surprised, Stressed. *)
Theorem C1_emitted_labels :
  (forall landmarks blendshapes,
      exists m, classifyMood landmarks blendshapes = JS.Normal m /\ In m moodLabels)
  /\ (forall poses, In (status (analyzePosture poses)) postureLabels)
  /\ (forall d, match detectEmotion d with
                | Some r => In (expression r) emotionLabels
                | None => True
                end).
Proof.
  split; [exact classifyMood_label|]. split; [|exact detectEmotion_label].
  intros poses.
  destruct (analyzePosture_cases poses) as [-> | [-> | (pose & rest & b & _ & _ & ->)]].
  - cbn; tauto.
  - cbn; tauto.
  - apply posture_of_status_label.
Qed.

(** The five keypoint names [analyzePosture] looks up. *)
Lemma body_of_missing (pose : Pose) (name : string) :
  In name ["nose"; "left_shoulder"; "right_shoulder"; "left_hip"; "right_hip"] ->
  find_named name (keypoints pose) = None ->
  body_of pose = None.
Proof.
  unfold body_of. cbn [In].
  intros [<-|[<-|[<-|[<-|[<-|[]]]]]] ->; try reflexivity;
    repeat (match goal with
            | |- context [match ?f with Some _ => _ | None => _ end] => destruct f
            end; try reflexivity).
Qed.

(** C2: with fewer than ten face landmarks (or none at all) [classifyMood]
    returns "Analyzing..." without throwing; with a null or empty pose list,
    or a first pose lacking one of the five required keypoints,
    [analyzePosture] returns status "good", score 0 and a single explanatory
    issue. *)
Theorem C2_insufficient_landmarks :
  (forall lms blendshapes,
      (length lms < 10)%nat ->
      classifyMood (Some lms) blendshapes = JS.Normal "Analyzing...")
  /\ (forall blendshapes, classifyMood None blendshapes = JS.Normal "Analyzing...")
  /\ analyzePosture None
     = {| status := "good"; score := 0; issues := ["No pose detected"] |}
  /\ analyzePosture (Some [])
     = {| status := "good"; score := 0; issues := ["No pose detected"] |}
  /\ (forall pose rest name,
         In name ["nose"; "left_shoulder"; "right_shoulder"; "left_hip"; "right_hip"] ->
         find_named name (keypoints pose) = None ->
         analyzePosture (Some (pose :: rest))
         = {| status := "good"; score := 0;
              issues := ["Insufficient keypoints detected"] |}).
Proof.
  repeat split.
  - intros lms bs Hlen. unfold classifyMood.
    destruct (Nat.ltb_spec (length lms) 10); [reflexivity|lia].
  - intros pose rest name Hin Hnone.
    apply analyzePosture_insufficient. eauto using body_of_missing.
Qed.

Lemma C2_insufficient_landmarks_witness :
  classifyMood (Some [Examples.origin; Examples.origin]) None = JS.Normal "Analyzing..."
  /\ analyzePosture (Some [Examples.pose_without_hips])
     = {| status := "good"; score := 0;
          issues := ["Insufficient keypoints detected"] |}.
Proof.
  destruct C2_insufficient_landmarks as (Hmood & _ & _ & _ & Hpose).
  split.
  - apply Hmood. simpl. lia.
  - apply (Hpose _ _ "left_hip"); [simpl; tauto | reflexivity].
Defined.

Lemma issues_by_flags_spec (slouch lean lower forward : bool) :
  let l := issues_by_flags slouch lean lower forward in
  (In "Slouching detected" l <-> slouch = true)
  /\ (In "Leaning left" l <-> lean = true /\ lower = true)
  /\ (In "Leaning right" l <-> lean = true /\ lower = false)
  /\ (In "Forward head posture" l <-> forward = true).
Proof.
  destruct slouch, lean, lower, forward; cbn;
    repeat split; intros; try tauto; try discriminate;
    repeat match goal with
           | H : _ /\ _ |- _ => destruct H
           | H : _ \/ _ |- _ => destruct H
           end; try discriminate; try tauto.
Qed.

(** C5: for a pose with the five required keypoints, [analyzePosture] flags
    slouching iff the vertical distance between shoulder and hip midpoints is
    below 150, leaning iff the shoulders' vertical difference exceeds 20
    (left when the left shoulder is lower on screen, right otherwise), and
    forward head iff the horizontal distance from the nose to the shoulder
    midpoint exceeds 30; the status follows the precedence slouching,
    leaning_left, leaning_right, forward_head, good. *)
Theorem C5_posture_thresholds (pose : Pose) (rest : list Pose) (b : Body) :
  body_of pose = Some b ->
  let r := analyzePosture (Some (pose :: rest)) in
  (In "Slouching detected" (issues r) <-> PrimFloat.ltb (torso_length b) 150 = true)
  /\ (In "Leaning left" (issues r)
      <-> PrimFloat.ltb 20 (shoulder_difference b) = true /\ left_shoulder_lower b = true)
  /\ (In "Leaning right" (issues r)
      <-> PrimFloat.ltb 20 (shoulder_difference b) = true /\ left_shoulder_lower b = false)
  /\ (In "Forward head posture" (issues r) <-> PrimFloat.ltb 30 (head_offset b) = true)
  /\ status r = (if PrimFloat.ltb (torso_length b) 150 then "slouching"
                 else if PrimFloat.ltb 20 (shoulder_difference b)
                         && left_shoulder_lower b then "leaning_left"
                 else if PrimFloat.ltb 20 (shoulder_difference b) then "leaning_right"
                 else if PrimFloat.ltb 30 (head_offset b) then "forward_head"
                 else "good").
Proof.
  intros Hb r. subst r. rewrite (analyzePosture_measured pose rest b Hb).
  unfold posture_of; cbn [issues status].
  pose proof (issues_by_flags_spec (PrimFloat.ltb (torso_length b) 150)
                (PrimFloat.ltb 20 (shoulder_difference b)) (left_shoulder_lower b)
                (PrimFloat.ltb 30 (head_offset b))) as H.
  cbv zeta in H. destruct H as (H1 & H2 & H3 & H4).
  split; [exact H1|]. split; [exact H2|]. split; [exact H3|]. split; [exact H4|].
  reflexivity.
Qed.

Lemma C5_posture_thresholds_witness :
  let r := analyzePosture (Some [Examples.pose_of_body Examples.slouched_tilted_body]) in
  In "Slouching detected" (issues r) /\ In "Leaning left" (issues r)
  /\ status r = "slouching".
Proof.
  pose proof (C5_posture_thresholds
                (Examples.pose_of_body Examples.slouched_tilted_body) []
                Examples.slouched_tilted_body eq_refl) as H.
  cbv zeta in H. destruct H as (H1 & H2 & _ & _ & H5).
  cbv zeta. split; [|split].
  - apply H1. vm_compute. reflexivity.
  - apply H2. vm_compute. split; reflexivity.
  - rewrite H5. vm_compute. reflexivity.
Defined.

(** C9: the score of [analyzePosture] always lies in [0, 100]; for a pose
    with the five required keypoints it is 100 minus 30 when slouching is
    flagged, minus 20 when leaning is flagged, minus 25 when forward head is
    flagged, not below 0; it is 100 exactly when there are no issues, which
    is exactly when the status is "good". *)
Theorem C9_posture_score :
  (forall poses, (0 <= score (analyzePosture poses) <= 100)%Z)
  /\ (forall pose rest b,
         body_of pose = Some b ->
         let r := analyzePosture (Some (pose :: rest)) in
         score r = Z.max 0 (100 - (if is_slouching b then 30 else 0)
                                - (if is_leaning b then 20 else 0)
                                - (if is_forward_head b then 25 else 0))%Z
         /\ (score r = 100%Z <-> issues r = [])
         /\ (issues r = [] <-> status r = "good")).
Proof.
  split.
  - intros poses.
    destruct (analyzePosture_cases poses) as [-> | [-> | (pose & rest & b & _ & _ & ->)]];
      [cbn; lia | cbn; lia | apply posture_of_score_range].
  - intros pose rest b Hb r. subst r.
    rewrite (analyzePosture_measured pose rest b Hb).
    unfold posture_of, is_slouching, is_leaning, is_forward_head,
      score_by_penalties, issues_by_flags, status_by_precedence;
      cbn [score issues status].
    destruct (PrimFloat.ltb (torso_length b) 150),
      (PrimFloat.ltb 20 (shoulder_difference b)), (left_shoulder_lower b),
      (PrimFloat.ltb 30 (head_offset b)); cbn;
      repeat split; intros; try reflexivity; try discriminate; try lia.
Qed.

Lemma C9_posture_score_witness :
  let r := analyzePosture (Some [Examples.pose_of_body Examples.slouched_tilted_body]) in
  score r = 50%Z /\ (issues r = [] <-> status r = "good").
Proof.
  destruct C9_posture_score as [_ H].
  specialize (H (Examples.pose_of_body Examples.slouched_tilted_body) []
                Examples.slouched_tilted_body eq_refl).
  cbv zeta in H. destruct H as (Hs & _ & Hg).
  cbv zeta. split; [rewrite Hs; vm_compute; reflexivity | exact Hg].
Defined.

(** C3: for fixed landmarks the label, confidence and smile flag of
    [analyzeMood] do not depend on the value drawn by [Math.random()], and
    the whole result of [analyzePosture] (label, score and issues) is
    determined by the five keypoints it reads from the first pose; the
    encouragement string does depend on the random draw. *)
Theorem C3_deterministic_label_and_score :
  (forall landmarks blendshapes random1 random2,
      match analyzeMood landmarks blendshapes random1,
            analyzeMood landmarks blendshapes random2 with
      | JS.Normal a, JS.Normal b =>
          mood a = mood b /\ confidence a = confidence b /\ isSmiling a = isSmiling b
      | JS.Throw m1, JS.Throw m2 => m1 = m2
      | _, _ => False
      end)
  /\ (forall pose1 rest1 pose2 rest2,
         body_of pose1 = body_of pose2 ->
         analyzePosture (Some (pose1 :: rest1)) = analyzePosture (Some (pose2 :: rest2)))
  /\ (exists a b,
         analyzeMood (Some Examples.ten_landmarks) None 0 = JS.Normal a
         /\ analyzeMood (Some Examples.ten_landmarks) None 0.5 = JS.Normal b
         /\ mood a = mood b
         /\ encouragement a <> encouragement b).
Proof.
  split; [|split].
  - intros landmarks blendshapes random1 random2. unfold analyzeMood.
    destruct (classifyMood_label landmarks blendshapes) as (m & -> & _).
    destruct (detectSmile_total landmarks) as (s & ->).
    cbn [JS.bind]. destruct landmarks as [lms|]; cbn; auto.
  - intros pose1 rest1 pose2 rest2 Hb.
    destruct (body_of pose1) as [b|] eqn:H1.
    + rewrite (analyzePosture_measured pose1 rest1 b H1).
      now rewrite (analyzePosture_measured pose2 rest2 b (eq_sym Hb)).
    + rewrite (analyzePosture_insufficient pose1 rest1 H1).
      now rewrite (analyzePosture_insufficient pose2 rest2 (eq_sym Hb)).
  - eexists. eexists.
    split; [vm_compute; reflexivity|]. split; [vm_compute; reflexivity|].
    split; [reflexivity|]. cbn [encouragement]. discriminate.
Qed.

Lemma C3_deterministic_label_and_score_witness :
  analyzePosture (Some [Examples.pose_of_body Examples.upright_body])
  = analyzePosture (Some [Examples.upright_pose_reordered;
                          Examples.pose_of_body Examples.slouched_level_body]).
Proof.
  destruct C3_deterministic_label_and_score as (_ & H & _).
  apply H. reflexivity.
Defined.

(** C4, as stated, fails: two poses with the same torso length (100) and
    the same head offset (0), whose shoulder-height differences lie on either
    side of the threshold 20, get the same label, because slouching takes
    precedence. *)
Lemma C4_shoulder_threshold_masked_by_slouching :
  body_of (Examples.pose_of_body Examples.slouched_level_body)
  = Some Examples.slouched_level_body
  /\ body_of (Examples.pose_of_body Examples.slouched_tilted_body)
     = Some Examples.slouched_tilted_body
  /\ torso_length Examples.slouched_level_body = 100%float
  /\ torso_length Examples.slouched_tilted_body = 100%float
  /\ head_offset Examples.slouched_level_body = 0%float
  /\ head_offset Examples.slouched_tilted_body = 0%float
  /\ shoulder_difference Examples.slouched_level_body = 0%float
  /\ shoulder_difference Examples.slouched_tilted_body = 60%float
  /\ status (analyzePosture (Some [Examples.pose_of_body Examples.slouched_level_body]))
     = "slouching"
  /\ status (analyzePosture (Some [Examples.pose_of_body Examples.slouched_tilted_body]))
     = "slouching".
Proof. vm_compute. repeat split; reflexivity. Qed.

(** C4 (amended): the label depends on each measured quantity only through
    the side of its threshold it lies on, so it changes at most once as the
    quantity crosses the threshold; it does change exactly when no check of
    higher precedence decides the label.  Torso length across 150 always
    changes the label; shoulder difference across 20 changes it iff the
    torso is not below 150; head offset across 30 changes it iff the torso is
    not below 150 and the shoulder difference does not exceed 20; the
    eyebrow ratio across 0.3, or across 0.4 while not below 0.3, changes the
    mood label iff neither the blendshapes nor the smile test decided it.
    [analyzePosture] and [classifyMood] compute these functions. *)
Theorem C4_threshold_flips :
  (forall pose rest b,
      body_of pose = Some b ->
      analyzePosture (Some (pose :: rest))
      = posture_of (torso_length b) (shoulder_difference b)
                   (left_shoulder_lower b) (head_offset b))
  /\ (forall t t' diff lower head,
         (PrimFloat.ltb t 150 = PrimFloat.ltb t' 150 ->
          status (posture_of t diff lower head) = status (posture_of t' diff lower head))
         /\ (PrimFloat.ltb t 150 <> PrimFloat.ltb t' 150 ->
             status (posture_of t diff lower head) <> status (posture_of t' diff lower head)))
  /\ (forall torso d d' lower head,
         (PrimFloat.ltb 20 d = PrimFloat.ltb 20 d' ->
          status (posture_of torso d lower head) = status (posture_of torso d' lower head))
         /\ (PrimFloat.ltb 20 d <> PrimFloat.ltb 20 d' ->
             (status (posture_of torso d lower head) <> status (posture_of torso d' lower head)
              <-> PrimFloat.ltb torso 150 = false)))
  /\ (forall torso diff lower h h',
         (PrimFloat.ltb 30 h = PrimFloat.ltb 30 h' ->
          status (posture_of torso diff lower h) = status (posture_of torso diff lower h'))
         /\ (PrimFloat.ltb 30 h <> PrimFloat.ltb 30 h' ->
             (status (posture_of torso diff lower h) <> status (posture_of torso diff lower h')
              <-> PrimFloat.ltb torso 150 = false /\ PrimFloat.ltb 20 diff = false)))
  /\ (forall lms blendshapes,
         (10 <= length lms)%nat ->
         exists smiling,
           detectSmile (Some lms) = JS.Normal smiling
           /\ classifyMood (Some lms) blendshapes
              = JS.Normal (mood_of (shapes_verdict blendshapes) smiling (eyebrow_ratio lms)))
  /\ (forall verdict smiling r r',
         (PrimFloat.ltb r 0.3 = PrimFloat.ltb r' 0.3 ->
          PrimFloat.ltb r 0.4 = PrimFloat.ltb r' 0.4 ->
          mood_of verdict smiling (Some r) = mood_of verdict smiling (Some r'))
         /\ (PrimFloat.ltb r 0.3 <> PrimFloat.ltb r' 0.3 ->
             (mood_of verdict smiling (Some r) <> mood_of verdict smiling (Some r')
              <-> verdict = None /\ smiling = false))
         /\ (PrimFloat.ltb r 0.3 = false -> PrimFloat.ltb r' 0.3 = false ->
             PrimFloat.ltb r 0.4 <> PrimFloat.ltb r' 0.4 ->
             (mood_of verdict smiling (Some r) <> mood_of verdict smiling (Some r')
              <-> verdict = None /\ smiling = false))).
Proof.
  split; [exact analyzePosture_measured|].
  split; [|split; [|split; [|split; [exact classifyMood_factors|]]]].
  - intros t t' diff lower head.
    unfold posture_of, status_by_precedence; cbn [status].
    destruct (PrimFloat.ltb t 150), (PrimFloat.ltb t' 150),
      (PrimFloat.ltb 20 diff), lower, (PrimFloat.ltb 30 head); cbn;
      split; intros; congruence.
  - intros torso d d' lower head.
    unfold posture_of, status_by_precedence; cbn [status].
    destruct (PrimFloat.ltb torso 150), (PrimFloat.ltb 20 d), (PrimFloat.ltb 20 d'),
      lower, (PrimFloat.ltb 30 head); cbn;
      split; intros; try split; intros; congruence.
  - intros torso diff lower h h'.
    unfold posture_of, status_by_precedence; cbn [status].
    destruct (PrimFloat.ltb torso 150), (PrimFloat.ltb 20 diff), lower,
      (PrimFloat.ltb 30 h), (PrimFloat.ltb 30 h'); cbn;
      split; intros; try split; intros;
      repeat match goal with H : _ /\ _ |- _ => destruct H end;
      try split; congruence.
  - intros verdict smiling r r'.
    unfold mood_of, mood_of_ratio.
    destruct verdict as [m|], smiling, (PrimFloat.ltb r 0.3), (PrimFloat.ltb r' 0.3),
      (PrimFloat.ltb r 0.4), (PrimFloat.ltb r' 0.4);
      repeat split; intros;
      repeat match goal with H : _ /\ _ |- _ => destruct H end;
      congruence.
Qed.

Lemma C4_threshold_flips_witness :
  status (posture_of 140 0 false 0) <> status (posture_of 160 0 false 0)
  /\ status (posture_of 200 10 false 0) <> status (posture_of 200 30 false 0)
  /\ status (posture_of 200 0 false 20) <> status (posture_of 200 0 false 40)
  /\ mood_of None false (Some 0.45%float) <> mood_of None false (Some 0.35%float)
  /\ mood_of None false (Some 0.35%float) <> mood_of None false (Some 0.25%float).
Proof.
  destruct C4_threshold_flips as (_ & Ht & Hd & Hh & _ & Hm).
  split; [|split; [|split; [|split]]].
  - destruct (Ht 140 160 0 false 0)%float as [_ H]. apply H. vm_compute. discriminate.
  - destruct (Hd 200 10 30 false 0)%float as [_ H]. apply H; vm_compute;
      [discriminate|reflexivity].
  - destruct (Hh 200 0 false 20 40)%float as [_ H]. apply H; vm_compute;
      [discriminate|split; reflexivity].
  - destruct (Hm None false 0.45 0.35)%float as (_ & _ & H). apply H; vm_compute;
      [reflexivity|reflexivity|discriminate|split; reflexivity].
  - destruct (Hm None false 0.35 0.25)%float as (_ & H & _). apply H; vm_compute;
      [discriminate|split; reflexivity].
Defined.

End ClassifierClaims.

(** ** Claim about the rolling history *)

Section HistoryClaims.
Import CameraTools.

(** C6: after any sequence of starts, stops and mood or posture frames the
    history holds at most 20 entries; an update (the updater's branch taken
    when the history is empty or the new entry differs from the last one in
    time or label) appends the new entry after the last 19 previous entries,
    any older ones being dropped, and otherwise the history is left as it
    is; a start that goes through (models available, webcam ready) sets
    [isAnalyzing] and empties the history. *)
Theorem C6_history_bounded :
  (forall events, (length (history (run events)) <= 20)%nat)
  /\ (forall entry prev,
         isNewEntry prev entry = true ->
         exists dropped kept,
           prev = dropped ++ kept
           /\ length kept = Nat.min 19 (length prev)
           /\ updateHistory entry prev = kept ++ [entry])
  /\ (forall entry prev,
         isNewEntry prev entry = false -> updateHistory entry prev = prev)
  /\ (forall modelsInitialize webcamReady s,
         (isModelLoaded s || modelsInitialize) && webcamReady = true ->
         isAnalyzing (startAnalysis modelsInitialize webcamReady s) = true
         /\ history (startAnalysis modelsInitialize webcamReady s) = []).
Proof.
  split; [|split; [|split]].
  - intros events. unfold run. apply fold_history_bound. cbn. lia.
  - intros entry prev Hnew.
    exists (firstn (length prev - 19) prev), (JS.slice_last 19 prev).
    split; [symmetry; apply slice_last_suffix|].
    split; [apply slice_last_length|].
    unfold updateHistory. now rewrite Hnew.
  - intros entry prev Hold. unfold updateHistory. now rewrite Hold.
  - intros m w s H. unfold startAnalysis.
    destruct (isModelLoaded s), m, w; cbn in H |- *; try discriminate; auto.
Qed.

Lemma C6_history_bounded_witness :
  (exists dropped kept,
      [mkEntry "10:00:01" "Happy" "mood" None] = dropped ++ kept
      /\ length kept = 1%nat
      /\ updateHistory (mkEntry "10:00:02" "Happy" "mood" None)
           [mkEntry "10:00:01" "Happy" "mood" None]
         = kept ++ [mkEntry "10:00:02" "Happy" "mood" None])
  /\ updateHistory (mkEntry "10:00:01" "Happy" "mood" None)
       [mkEntry "10:00:01" "Happy" "mood" None]
     = [mkEntry "10:00:01" "Happy" "mood" None]
  /\ history (startAnalysis true true
                (mkState false false [mkEntry "10:00:01" "Happy" "mood" None])) = [].
Proof.
  destruct C6_history_bounded as (_ & Happend & Hsame & Hstart).
  split; [|split].
  - apply (Happend (mkEntry "10:00:02" "Happy" "mood" None)
             [mkEntry "10:00:01" "Happy" "mood" None]). reflexivity.
  - apply Hsame. reflexivity.
  - apply Hstart. reflexivity.
Defined.

End HistoryClaims.

(** ** Claims about the routes *)

Section RouteClaims.
Import Routes.

(** C7, as stated, fails: in the chat handler Firestore rejects the user
    lookup, the nested [catch] logs the error, and the request is answered
    with status 200 and the reply, not with an error payload. *)
Lemma C7_chat_replies_after_lookup_error :
  fst (lookupUser (JStr "u1") RouteExamples.chat_world) = JS.Throw "unavailable"
  /\ fst (chat RouteExamples.JSON_parse RouteExamples.Date_new
               RouteExamples.Timestamp_fromDate
               RouteExamples.chat_request RouteExamples.chat_world)
     = JS.Normal {| status := 200;
                    body := JObj (object [("reply", JStr "Hello!");
                                          ("taskCreated", JNull)]) |}.
Proof. split; vm_compute; reflexivity. Qed.

Section WithLibrary.
Variable JSON_parse : string -> JS.completion JsVal.
Variable Date_new : JsVal -> option Z.
Variable Date_setHours : option Z -> string -> option Z.
Variable Timestamp_fromDate : JsVal -> JS.completion JsVal.

Abbreviation route := (registerRoutes JSON_parse Date_new Date_setHours Timestamp_fromDate).
Abbreviation block := (tryBlock JSON_parse Date_new Date_setHours Timestamp_fromDate).

(** C7 (amended): no exception leaves a handler of a task or AI route, and
    the handler always sends one response.  When its outermost [try] block
    throws, the response is the one of its [catch] block: status 400 or 500
    and a JSON object with an [error] string (the thrown message where the
    handler forwards it, a fixed message otherwise).  When the [try] block
    completes, also after an error that one of its nested [try] blocks has
    caught and logged, the response is the one the [try] block sends, with
    status 200, or 400 or 404 with an [error] string. *)
Theorem C7_errors_answered_in_handler (req : Request) (w : World) :
  exists response w',
    route req w = (JS.Normal response, w')
    /\ isHandlerResponse response
    /\ (forall message w1,
           block req w = (JS.Throw message, w1) ->
           w' = w1 /\ response = catchBlock req message /\ isErrorResponse response)
    /\ (forall r w1,
           block req w = (JS.Normal r, w1) -> w' = w1 /\ response = r).
Proof.
  rewrite (registerRoutes_guarded JSON_parse Date_new Date_setHours Timestamp_fromDate req).
  destruct (try_catch_responds (block req) (catchBlock req) w)
    as (a & w' & Heq & Hthrow & Hnormal).
  exists a, w'. split; [exact Heq|]. split; [|split].
  - destruct (block req w) as [[r|e] w1] eqn:E.
    + destruct (Hnormal r w1 eq_refl) as [_ ->].
      exact (tryBlock_responses JSON_parse Date_new Date_setHours Timestamp_fromDate
               req w r w1 E).
    + destruct (Hthrow e w1 eq_refl) as [_ ->].
      destruct (catchBlock_isErrorResponse req e) as [[H|H] Hbody];
        right; (split; [tauto|exact Hbody]).
  - intros message w1 E. destruct (Hthrow message w1 E) as [-> ->].
    repeat split; try apply catchBlock_isErrorResponse.
  - exact Hnormal.
Qed.

End WithLibrary.

Lemma C7_errors_answered_in_handler_witness :
  exists response w',
    registerRoutes RouteExamples.JSON_parse RouteExamples.Date_new
      RouteExamples.Date_setHours RouteExamples.Timestamp_fromDate
      (POST_task_complete "t0") RouteExamples.firestore_down
    = (JS.Normal response, w')
    /\ isErrorResponse response.
Proof.
  destruct (C7_errors_answered_in_handler RouteExamples.JSON_parse
              RouteExamples.Date_new RouteExamples.Date_setHours
              RouteExamples.Timestamp_fromDate
              (POST_task_complete "t0") RouteExamples.firestore_down)
    as (response & w' & Heq & _ & Hthrow & _).
  exists response, w'. split; [exact Heq|].
  apply (Hthrow "unavailable" RouteExamples.two_tasks).
  vm_compute. reflexivity.
Defined.

(** C8, as stated, fails: a stored task whose [xpReward] is 0 is answered
    with the reward 50, not with the stored value. *)
Lemma C8_stored_zero_reward_answered_with_50 :
  tasks RouteExamples.two_tasks !! "t0" = Some RouteExamples.zero_xp_task
  /\ RouteExamples.zero_xp_task !! "xpReward" = Some (JNum 0)
  /\ fst (completeTask "t0" RouteExamples.two_tasks)
     = JS.Normal (json (object [ ("success", JBool true); ("id", JStr "t0");
                                 ("xpReward", JNum 50) ])).
Proof. repeat split; vm_compute; reflexivity. Qed.

(** C8 (amended): when the Firestore calls succeed, the completion endpoint
    answers 404 with an error payload and changes no task if no task has the
    given id; otherwise it sets [completed] to true and [updatedAt] to the
    current time in the stored task and answers with the stored [xpReward]
    when that value is truthy, and with 50 when it is missing or falsy
    (undefined, null, 0, NaN, the empty string, false). *)
Theorem C8_complete_task (id : string) (w : World) :
  Forall (fun f => f = None) (faults w) ->
  exists w',
    match tasks w !! id with
    | None =>
        completeTask id w = (JS.Normal (errorJson 404 "Task not found"), w')
        /\ tasks w' = tasks w
    | Some taskData =>
        completeTask id w
        = (JS.Normal (json (object
             [ ("success", JBool true);
               ("id", JStr id);
               ("xpReward", if truthy (field taskData "xpReward")
                            then field taskData "xpReward"
                            else JNum 50) ])), w')
        /\ tasks w'
           = <[id := <["updatedAt" := JTimestamp (default 0%Z (head (clock w)))]>
                       (<["completed" := JBool true]> taskData)]> (tasks w)
    end.
Proof.
  intros Hup.
  destruct (getTask_answers id w Hup) as (w1 & Hget & Ht1 & Hc1 & Hup1).
  unfold completeTask, try_catch, completeTask_try.
  rewrite (bind_normal _ _ _ _ _ Hget).
  destruct (tasks w !! id) as [taskData|] eqn:Hlook.
  - destruct (Timestamp_now_reads w1) as (w2 & Hnow & Ht2 & Hf2).
    rewrite (bind_normal _ _ _ _ _ Hnow).
    rewrite <- Hf2 in Hup1.
    assert (Hlook2 : tasks w2 !! id = Some taskData) by now rewrite Ht2, Ht1.
    destruct (updateDoc_answers id
                (object [("completed", JBool true);
                         ("updatedAt", JTimestamp (default 0%Z (head (clock w1))))])
                taskData w2 Hup1 Hlook2) as (w3 & Hupd & Ht3).
    rewrite (bind_normal _ _ _ _ _ Hupd). cbn [ret].
    exists w3. split; [reflexivity|].
    rewrite Ht3, Ht2, Ht1, Hc1. now rewrite object_two.
  - exists w1. split; [reflexivity|exact Ht1].
Qed.

Lemma C8_complete_task_witness :
  exists w',
    completeTask "t1" RouteExamples.two_tasks
    = (JS.Normal (json (object [ ("success", JBool true); ("id", JStr "t1");
                                 ("xpReward", JNum 30) ])), w').
Proof.
  destruct (C8_complete_task "t1" RouteExamples.two_tasks) as (w' & H).
  - constructor.
  - exists w'. exact (proj1 H).
Defined.

(** C10 fails on the planner path: with a clock that advances between two
    readings, the document that POST /api/planner/generate stores has
    [createdAt] 1001 and [updatedAt] 1002, since the handler calls
    [Timestamp.now()] once for each field. *)
Theorem C10_planner_stamps_differ :
  let result :=
    generatePlan RouteExamples.JSON_parse RouteExamples.Date_new
      RouteExamples.Date_setHours RouteExamples.Timestamp_fromDate
      RouteExamples.planner_request RouteExamples.planner_world in
  match fst result with
  | JS.Normal response => status response = 200%Z
  | JS.Throw _ => False
  end
  /\ match tasks (snd result) !! "new1" with
     | Some doc =>
         doc !! "completed" = Some (JBool false)
         /\ doc !! "notificationSent" = Some (JBool false)
         /\ doc !! "scheduledTime" = Some (JTimestamp 1764399600000)
         /\ doc !! "createdAt" = Some (JTimestamp 1001)
         /\ doc !! "updatedAt" = Some (JTimestamp 1002)
     | None => False
     end.
Proof. vm_compute. repeat split; reflexivity. Qed.

End RouteClaims.

(* ===================================================================== *)
(** * Part III: further properties of the code *)
(* ===================================================================== *)

(** ** The rolling history and the camera panel *)

Section HistoryExtras.
Import CameraTools.

Lemma last_entry_cons {A} (a b : A) (l : list A) :
  JS.last_entry (a :: b :: l) = JS.last_entry (b :: l).
Proof.
  unfold JS.last_entry.
  replace (length (a :: b :: l) - 1)%nat with (S (length l)) by (cbn [length]; lia).
  replace (length (b :: l) - 1)%nat with (length l) by (cbn [length]; lia).
  reflexivity.
Qed.

Lemma last_entry_app_one {A} (l : list A) (e : A) : JS.last_entry (l ++ [e]) = Some e.
Proof.
  induction l as [|a l IH]; [reflexivity|].
  destruct l as [|b l]; [reflexivity|].
  cbn [app] in *. now rewrite last_entry_cons.
Qed.

Lemma last_entry_skipn {A} (n : nat) (l : list A) :
  (n < length l)%nat -> JS.last_entry (skipn n l) = JS.last_entry l.
Proof.
  revert l. induction n as [|n IH]; intros l H; [reflexivity|].
  destruct l as [|a l]; cbn [length] in H; [lia|].
  cbn [skipn]. rewrite IH by lia.
  destruct l as [|b l]; cbn [length] in H; [lia|].
  now rewrite last_entry_cons.
Qed.

Lemma last_entry_slice_last {A} (l : list A) :
  JS.last_entry (JS.slice_last 19 l) = JS.last_entry l.
Proof.
  unfold JS.slice_last. destruct l as [|a l]; [reflexivity|].
  apply last_entry_skipn. cbn [length]. lia.
Qed.

Lemma adjacentDiffer_tail (a : HistoryEntry) (l : list HistoryEntry) :
  adjacentDiffer (a :: l) -> adjacentDiffer l.
Proof. destruct l; cbn; tauto. Qed.

Lemma adjacentDiffer_skipn (n : nat) (l : list HistoryEntry) :
  adjacentDiffer l -> adjacentDiffer (skipn n l).
Proof.
  revert l. induction n as [|n IH]; intros l H; [exact H|].
  destruct l as [|a l]; [exact H|].
  cbn [skipn]. apply IH. eapply adjacentDiffer_tail, H.
Qed.

Lemma adjacentDiffer_app_one (l : list HistoryEntry) (e : HistoryEntry) :
  adjacentDiffer l ->
  (forall a, JS.last_entry l = Some a -> differs a e) ->
  adjacentDiffer (l ++ [e]).
Proof.
  induction l as [|a l IH]; intros Hl Hlast; [exact I|].
  destruct l as [|b l].
  - cbn. split; [now apply Hlast|exact I].
  - cbn [app adjacentDiffer] in *. destruct Hl as [Hab Hrest].
    split; [exact Hab|]. apply IH; [exact Hrest|].
    intros c Hc. apply Hlast. now rewrite last_entry_cons.
Qed.

Lemma isNewEntry_differs (prev : list HistoryEntry) (e a : HistoryEntry) :
  isNewEntry prev e = true -> JS.last_entry prev = Some a -> differs a e.
Proof.
  unfold isNewEntry, differs. intros H Hl. rewrite Hl in H.
  apply orb_true_iff in H as [H|H]; apply negb_true_iff in H;
    apply String.eqb_neq in H; auto.
Qed.

Lemma updateHistory_adjacentDiffer (e : HistoryEntry) (prev : list HistoryEntry) :
  adjacentDiffer prev -> adjacentDiffer (updateHistory e prev).
Proof.
  intros H. unfold updateHistory.
  destruct (isNewEntry prev e) eqn:Hnew; [|exact H].
  apply adjacentDiffer_app_one.
  - now apply adjacentDiffer_skipn.
  - intros a Ha. rewrite last_entry_slice_last in Ha.
    eapply isNewEntry_differs; eauto.
Qed.

(** Any property of the whole history that the empty history has and that
    an update preserves holds after every sequence of events. *)
Lemma run_invariant (I : list HistoryEntry -> Prop) :
  I [] ->
  (forall e prev, I prev -> isFrameEntry e -> I (updateHistory e prev)) ->
  forall events, I (history (run events)).
Proof.
  intros Hnil Hupd events. unfold run.
  assert (H : forall s, I (history s) -> I (history (fold_left step events s))).
  { induction events as [|ev events IH]; intros s Hs; cbn [fold_left]; [exact Hs|].
    apply IH. destruct ev as [m w| |t d|t poses]; cbn [step].
    - unfold startAnalysis.
      destruct (negb (isModelLoaded s) && negb m); [exact Hs|].
      destruct (negb w); cbn [history]; [exact Hs|exact Hnil].
    - exact Hs.
    - unfold analyzeMoodFrame.
      pose proof (detectEmotion_label d) as Hl.
      destruct (FaceApi.detectEmotion d) as [r|]; [|exact Hs].
      cbn [history]. apply Hupd; [exact Hs|].
      left. cbn [type label suggestion]. auto.
    - unfold analyzePostureFrame.
      destruct poses as [[|p ps]|]; try exact Hs.
      cbn [history]. apply Hupd; [exact Hs|].
      right. cbn [type label suggestion]. split; [reflexivity|]. split.
      + destruct (analyzePosture_cases (Some (p :: ps)))
          as [-> | [-> | (pose & rest & b & _ & _ & ->)]];
          [cbn; tauto | cbn; tauto | apply posture_of_status_label].
      + eexists. split; [reflexivity|].
        unfold postureSuggestion.
        destruct (Pose.issues _); [cbn; tauto|].
        destruct (Pose.some_includes "Slouching" _); [cbn; tauto|].
        destruct (Pose.some_includes "Leaning" _); [cbn; tauto|].
        destruct (Pose.some_includes "Forward head" _); cbn; tauto. }
  apply H. exact Hnil.
Qed.

(** X1: in the history shown by the camera panel no entry is ever followed
    by one with the same time and the same label, whatever the sequence of
    starts, stops and frames. *)
Theorem history_never_repeats_an_entry (events : list Event) :
  adjacentDiffer (history (run events)).
Proof.
  apply (run_invariant adjacentDiffer); [exact I|].
  intros e prev H _. now apply updateHistory_adjacentDiffer.
Qed.

(** X2: every entry of the history was built by one of the two frame loops:
    a mood entry carries one of the six labels of [detectEmotion] and the
    suggestion that [moodSuggestion] gives for that label, a posture entry
    carries one of the five posture labels and one of the five posture
    suggestions. *)
Theorem history_entries_come_from_frames (events : list Event) :
  Forall isFrameEntry (history (run events)).
Proof.
  apply (run_invariant (Forall isFrameEntry)); [constructor|].
  intros e prev H He. unfold updateHistory.
  destruct (isNewEntry prev e); [|exact H].
  apply Forall_app. split.
  - unfold JS.slice_last. rewrite <- (firstn_skipn (length prev - 19) prev) in H.
    apply Forall_app in H. tauto.
  - constructor; [exact He|constructor].
Qed.

(** X3: an update works as a window of 20: while the history has at most 19
    entries the new entry is added at the end, and from a history of 20
    entries the oldest one is dropped; in both cases the new entry is the
    last one. *)
Theorem updateHistory_window (e : HistoryEntry) (prev : list HistoryEntry) :
  isNewEntry prev e = true ->
  ((length prev <= 19)%nat -> updateHistory e prev = prev ++ [e])
  /\ (length prev = 20%nat -> updateHistory e prev = tail prev ++ [e])
  /\ JS.last_entry (updateHistory e prev) = Some e.
Proof.
  intros Hnew. unfold updateHistory. rewrite Hnew. unfold JS.slice_last.
  split; [|split].
  - intros H. replace (length prev - 19)%nat with 0%nat by lia. reflexivity.
  - intros H. rewrite H. cbn [Nat.sub]. now destruct prev.
  - apply last_entry_app_one.
Qed.

Lemma updateHistory_window_witness :
  updateHistory (mkEntry "10:00:02" "Sad" "mood" None)
    [mkEntry "10:00:01" "Happy" "mood" None]
  = [mkEntry "10:00:01" "Happy" "mood" None; mkEntry "10:00:02" "Sad" "mood" None].
Proof.
  destruct (updateHistory_window (mkEntry "10:00:02" "Sad" "mood" None)
              [mkEntry "10:00:01" "Happy" "mood" None] eq_refl) as (H & _ & _).
  apply H. simpl. lia.
Defined.

(** X4: the suggestion logged with a posture entry follows the label:
    slouching, leaning (either side) and forward head each get their own
    advice and a good posture gets the praise.  When the first pose lacks
    one of the five keypoints the label is "good" as well, but the
    suggestion is the empty string. *)
Theorem posture_suggestion_follows_label (pose : Pose.Pose) (rest : list Pose.Pose) :
  let r := Pose.analyzePosture (Some (pose :: rest)) in
  postureSuggestion r
  = if String.eqb (Pose.status r) "slouching"
    then "💡 Sit up straight, align your back"
    else if String.eqb (Pose.status r) "leaning_left"
            || String.eqb (Pose.status r) "leaning_right"
    then "💡 Move your shoulders up and level them"
    else if String.eqb (Pose.status r) "forward_head"
    then "💡 Pull your head back, align with shoulders"
    else match Pose.body_of pose with
         | Some _ => "✅ Great! Keep maintaining this posture"
         | None => ""
         end.
Proof.
  cbv zeta. destruct (Pose.body_of pose) as [b|] eqn:Hb.
  - rewrite (analyzePosture_measured pose rest b Hb).
    unfold Pose.posture_of, postureSuggestion, Pose.status_by_precedence,
      Pose.issues_by_flags; cbn [Pose.status Pose.issues].
    destruct (PrimFloat.ltb (Pose.torso_length b) 150),
      (PrimFloat.ltb 20 (Pose.shoulder_difference b)), (Pose.left_shoulder_lower b),
      (PrimFloat.ltb 30 (Pose.head_offset b)); reflexivity.
  - rewrite (analyzePosture_insufficient pose rest Hb). reflexivity.
Qed.

(** X5: of the six labels that [detectEmotion] reports, the panel has an
    emoji for four; "Angry" and "Surprised" are shown with the fallback
    emoji, and they are logged with the suggestion of a neutral mood. *)
Theorem unmapped_emotions_shown_as_neutral (d : FaceApi.Detection) :
  match FaceApi.detectEmotion d with
  | Some r =>
      (getMoodEmoji (FaceApi.expression r) = "🤔"
       <-> FaceApi.expression r = "Angry" \/ FaceApi.expression r = "Surprised")
      /\ (moodSuggestion (FaceApi.expression r) = "😐 Neutral mood detected"
          <-> FaceApi.expression r = "Neutral" \/ FaceApi.expression r = "Angry"
              \/ FaceApi.expression r = "Surprised")
  | None => True
  end.
Proof.
  pose proof (detectEmotion_label d) as H.
  destruct (FaceApi.detectEmotion d) as [r|]; [|exact I].
  unfold FaceApi.emotionLabels in H. cbn [In] in H.
  destruct H as [<-|[<-|[<-|[<-|[<-|[<-|[]]]]]]];
    (split;
     (split; intros H;
      [ try (vm_compute in H; discriminate H); auto
      | try reflexivity;
        repeat (destruct H as [H|H]; try discriminate H) ])).
Qed.

End HistoryExtras.

(** ** The task schemas *)

Section SchemaExtras.
Import Routes.

Lemma keysWithin_empty (ks : list string) : keysWithin ks ∅.
Proof. intros k _. apply lookup_empty. Qed.

Lemma keysWithin_insert (ks : list string) (k : string) (v : JsVal) (o : Obj) :
  In k ks -> keysWithin ks o -> keysWithin ks (<[k := v]> o).
Proof.
  intros Hk Ho k' Hk'. rewrite lookup_insert_ne; [now apply Ho|].
  intros ->. now apply Hk'.
Qed.

Lemma keysWithin_more (ks ks' : list string) (o : Obj) :
  (forall k, In k ks -> In k ks') -> keysWithin ks o -> keysWithin ks' o.
Proof. intros Hsub Ho k Hk. apply Ho. intros H. apply Hk, Hsub, H. Qed.

Lemma optionalKey_within (ks : list string) (input : Obj) (k : string)
    (check : JsVal -> bool) (out out' : Obj) :
  In k ks -> keysWithin ks out ->
  optionalKey input k check out = JS.Normal out' -> keysWithin ks out'.
Proof.
  intros Hk Ho. unfold optionalKey.
  destruct (input !! k) as [v|]; [|now intros [= <-]].
  destruct v; try (destruct (check _); [intros [= <-]; now apply keysWithin_insert|discriminate]).
  now intros [= <-].
Qed.

Lemma requiredKey_within (ks : list string) (input : Obj) (k : string)
    (check : JsVal -> bool) (out out' : Obj) :
  In k ks -> keysWithin ks out ->
  requiredKey input k check out = JS.Normal out' -> keysWithin ks out'.
Proof.
  intros Hk Ho. unfold requiredKey.
  destruct (input !! k) as [v|]; [|discriminate].
  destruct (check v); [intros [= <-]; now apply keysWithin_insert|discriminate].
Qed.

(** The result of [updateTaskSchema.parse] has only the six keys of the
    schema. *)
Lemma updateTaskSchema_within (input : JsVal) (o : Obj) :
  updateTaskSchema_parse input = JS.Normal o ->
  keysWithin ["title"; "description"; "scheduledTime"; "duration"; "completed"; "xpReward"] o.
Proof.
  unfold updateTaskSchema_parse. destruct input; try discriminate.
  cbn [JS.bind].
  set (ks := ["title"; "description"; "scheduledTime"; "duration"; "completed"; "xpReward"]).
  destruct (optionalKey fields "title" isTitle ∅) as [o1|] eqn:E1; [|discriminate]. cbn [JS.bind].
  destruct (optionalKey fields "description" isString o1) as [o2|] eqn:E2; [|discriminate]. cbn [JS.bind].
  destruct (optionalKey fields "scheduledTime" isDate o2) as [o3|] eqn:E3; [|discriminate]. cbn [JS.bind].
  destruct (optionalKey fields "duration" isDuration o3) as [o4|] eqn:E4; [|discriminate]. cbn [JS.bind].
  destruct (optionalKey fields "completed" isBoolean o4) as [o5|] eqn:E5; [|discriminate]. cbn [JS.bind].
  intros E6.
  assert (In "title" ks /\ In "description" ks /\ In "scheduledTime" ks
          /\ In "duration" ks /\ In "completed" ks /\ In "xpReward" ks)
    as (H1 & H2 & H3 & H4 & H5 & H6) by (cbn; tauto).
  eapply optionalKey_within in E1; [|exact H1|apply keysWithin_empty].
  eapply optionalKey_within in E2; [|exact H2|exact E1].
  eapply optionalKey_within in E3; [|exact H3|exact E2].
  eapply optionalKey_within in E4; [|exact H4|exact E3].
  eapply optionalKey_within in E5; [|exact H5|exact E4].
  eapply optionalKey_within in E6; [exact E6|exact H6|exact E5].
Qed.

Lemma optionalKey_spec (input : Obj) (k : string) (check : JsVal -> bool)
    (out out' : Obj) :
  optionalKey input k check out = JS.Normal out' ->
  out' = out \/ exists v, check v = true /\ out' = <[k := v]> out.
Proof.
  unfold optionalKey.
  destruct (input !! k) as [v|]; [|intros [= <-]; now left].
  destruct v;
    try (destruct (check _) eqn:E; [intros [= <-]; right; eauto|discriminate]).
  intros [= <-]; now left.
Qed.


Lemma optionalKey_other (input : Obj) (k k0 : string) (check : JsVal -> bool)
    (out out' : Obj) :
  k <> k0 -> optionalKey input k check out = JS.Normal out' -> out' !! k0 = out !! k0.
Proof.
  intros Hne E. apply optionalKey_spec in E as [->|(v & _ & ->)]; [reflexivity|].
  now rewrite lookup_insert_ne.
Qed.

(** A [scheduledTime] that [updateTaskSchema.parse] lets through is a valid
    date. *)
Lemma updateTaskSchema_date (input : JsVal) (o : Obj) (v : JsVal) :
  updateTaskSchema_parse input = JS.Normal o ->
  o !! "scheduledTime" = Some v -> isDate v = true.
Proof.
  unfold updateTaskSchema_parse. destruct input; try discriminate.
  cbn [JS.bind].
  destruct (optionalKey fields "title" isTitle ∅) as [o1|] eqn:E1; [|discriminate]. cbn [JS.bind].
  destruct (optionalKey fields "description" isString o1) as [o2|] eqn:E2; [|discriminate]. cbn [JS.bind].
  destruct (optionalKey fields "scheduledTime" isDate o2) as [o3|] eqn:E3; [|discriminate]. cbn [JS.bind].
  destruct (optionalKey fields "duration" isDuration o3) as [o4|] eqn:E4; [|discriminate]. cbn [JS.bind].
  destruct (optionalKey fields "completed" isBoolean o4) as [o5|] eqn:E5; [|discriminate]. cbn [JS.bind].
  intros E6.
  rewrite (optionalKey_other _ "xpReward" "scheduledTime" _ _ _ ltac:(discriminate) E6).
  rewrite (optionalKey_other _ "completed" "scheduledTime" _ _ _ ltac:(discriminate) E5).
  rewrite (optionalKey_other _ "duration" "scheduledTime" _ _ _ ltac:(discriminate) E4).
  apply optionalKey_spec in E3 as [->|(d & Hd & ->)].
  - rewrite (optionalKey_other _ "description" "scheduledTime" _ _ _ ltac:(discriminate) E2).
    rewrite (optionalKey_other _ "title" "scheduledTime" _ _ _ ltac:(discriminate) E1).
    now rewrite lookup_empty.
  - rewrite lookup_insert_eq. now intros [= <-].
Qed.





End SchemaExtras.

(** ** Mood analysis and emotion detection *)

Section FaceExtras.
Import Face FaceApi.



(** X7: with at least 10 but fewer than 468 landmarks, and blendshapes that
    do not decide, [analyzeMood] never reports a smile or the mood "Happy":
    the result has [isSmiling] false, confidence 0.5 and one of the moods
    Stressed, Sad and Neutral. *)
Theorem few_landmarks_never_happy (lms : list FaceLandmark)
    (blendshapes : option (list Classifications)) (random : float) :
  (10 <= length lms < 468)%nat ->
  shapes_verdict blendshapes = None ->
  exists m,
    analyzeMood (Some lms) blendshapes random
    = JS.Normal {| mood := m; confidence := 0.5; isSmiling := false;
                   encouragement := generateEncouragement m random |}
    /\ In m ["Stressed"; "Sad"; "Neutral"].
Proof.
  intros [Hlo Hhi] Hv.
  destruct (classifyMood_factors lms blendshapes Hlo) as (smiling & Hs & Hm).
  rewrite (detectSmile_short lms Hhi) in Hs. injection Hs as <-.
  unfold analyzeMood. rewrite Hm, (detectSmile_short lms Hhi). cbn [JS.bind JS.prop].
  destruct (Nat.leb_spec 468 (length lms)) as [?|_]; [lia|].
  rewrite Hv. eexists. split; [reflexivity|].
  unfold mood_of, mood_of_ratio.
  destruct (eyebrow_ratio lms) as [r|]; [|cbn; tauto].
  destruct (PrimFloat.ltb r 0.3), (PrimFloat.ltb r 0.4); cbn; tauto.
Qed.

Lemma few_landmarks_never_happy_witness :
  exists m,
    analyzeMood (Some Examples.ten_landmarks) None 0.5
    = JS.Normal {| mood := m; confidence := 0.5; isSmiling := false;
                   encouragement := generateEncouragement m 0.5 |}
    /\ In m ["Stressed"; "Sad"; "Neutral"].
Proof.
  apply few_landmarks_never_happy; [vm_compute; split; lia|reflexivity].
Defined.

Lemma scanShapes_no_match (shapes : list Category) :
  Forall (fun c => categoryName c <> "mouthSmile" /\ categoryName c <> "mouthFrown") shapes ->
  scanShapes shapes 0 0 = (0%float, 0%float).
Proof.
  induction 1 as [|c shapes [Hs Hf] _ IH]; [reflexivity|].
  cbn [scanShapes].
  apply String.eqb_neq in Hs, Hf. rewrite Hs, Hf. exact IH.
Qed.

(** X8: blendshape categories influence the mood only under the exact names
    "mouthSmile" and "mouthFrown": when the first classification has no
    category of either name, [classifyMood] returns what it returns without
    blendshapes. *)
Theorem other_blendshapes_are_ignored (landmarks : option (list FaceLandmark))
    (first : Classifications) (rest : list Classifications) :
  Forall (fun c => categoryName c <> "mouthSmile" /\ categoryName c <> "mouthFrown")
         (categories first) ->
  classifyMood landmarks (Some (first :: rest)) = classifyMood landmarks None.
Proof.
  intros H. unfold classifyMood.
  destruct landmarks as [lms|]; [|reflexivity].
  destruct (length lms <? 10)%nat; [reflexivity|].
  destruct (detectSmile (Some lms)) as [smiling|e]; [|reflexivity].
  cbn [JS.bind]. now rewrite (scanShapes_no_match _ H).
Qed.

Lemma other_blendshapes_are_ignored_witness :
  classifyMood (Some Examples.ten_landmarks)
    (Some [mkClassifications [mkCategory "mouthSmileLeft" 0.9;
                              mkCategory "mouthSmileRight" 0.9]])
  = classifyMood (Some Examples.ten_landmarks) None.
Proof.
  apply other_blendshapes_are_ignored.
  repeat constructor; discriminate.
Defined.

(** X9: when [analyzeMood] reports a smile, the mood is "Happy", except when
    the blendshapes decide for "Sad" (frown score above 0.3, smile score
    not): then the result says [isSmiling] and "Sad" at once. *)
Theorem smile_without_happy_only_on_frown (landmarks : option (list FaceLandmark))
    (blendshapes : option (list Classifications)) (random : float) (r : MoodResult) :
  analyzeMood landmarks blendshapes random = JS.Normal r ->
  isSmiling r = true ->
  mood r = "Happy" \/ (mood r = "Sad" /\ shapes_verdict blendshapes = Some "Sad").
Proof.
  unfold analyzeMood. destruct landmarks as [lms|].
  - destruct (Nat.ltb_spec (length lms) 10) as [Hshort|Hlong].
    + rewrite (detectSmile_short lms) by lia.
      destruct (classifyMood (Some lms) blendshapes); [|discriminate].
      cbn [JS.bind JS.prop]. intros [= <-]. discriminate.
    + destruct (classifyMood_factors lms blendshapes Hlong) as (smiling & -> & ->).
      cbn [JS.bind JS.prop]. intros [= <-]. cbn [isSmiling mood]. intros ->.
      unfold mood_of.
      destruct (shapes_verdict blendshapes) as [m|] eqn:Hv; [|now left].
      destruct (shapes_verdict_label blendshapes m Hv) as [-> | ->]; auto.
  - cbn. discriminate.
Qed.

Lemma smile_without_happy_only_on_frown_witness :
  detectSmile (Some Examples.smiling_face) = JS.Normal true
  /\ classifyMood (Some Examples.smiling_face) Examples.frown_shapes = JS.Normal "Sad"
  /\ ("Sad" = "Happy"
      \/ ("Sad" = "Sad" /\ shapes_verdict Examples.frown_shapes = Some "Sad")).
Proof.
  split; [vm_compute; reflexivity|]. split; [vm_compute; reflexivity|].
  apply (smile_without_happy_only_on_frown (Some Examples.smiling_face)
           Examples.frown_shapes 0
           {| mood := "Sad"; confidence := 0.85; isSmiling := true;
              encouragement := generateEncouragement "Sad" 0 |}).
  - vm_compute. reflexivity.
  - reflexivity.
Defined.

Lemma maxEntry_dominated (es : list (string * float)) (init : string * float) :
  Forall (fun kp => PrimFloat.ltb (snd init) (snd kp) = false) es ->
  maxEntry es init = init.
Proof.
  unfold maxEntry. induction 1 as [|kp es Hkp _ IH]; [reflexivity|].
  cbn [fold_left].
  replace (JS.gt (snd kp) (snd init)) with false by (symmetry; exact Hkp).
  exact IH.
Qed.

(** X10: the label and the probability that [detectEmotion] reports belong
    to one and the same expression of the detected face; and when no
    expression has a probability above the neutral one (ties included) the
    report is "Neutral" with the neutral probability. *)
Theorem detectEmotion_reports_one_expression (e : FaceExpressions) :
  (exists k p,
      In (k, p) (entries e)
      /\ detectEmotion (FaceFound e)
         = Some {| expression := default "Neutral" (lookupEmotion k emotionMap);
                   probability := p |})
  /\ (Forall (fun kp => PrimFloat.ltb (neutral e) (snd kp) = false) (entries e) ->
      detectEmotion (FaceFound e)
      = Some {| expression := "Neutral"; probability := neutral e |}).
Proof.
  split.
  - cbn [detectEmotion].
    destruct (maxEntry (entries e) ("neutral", neutral e)) as [k p] eqn:Hm.
    exists k, p. split; [|reflexivity].
    destruct (maxEntry_choice (entries e) ("neutral", neutral e)) as [H|H];
      rewrite Hm in H.
    + rewrite H. now left.
    + exact H.
  - intros H. cbn [detectEmotion].
    now rewrite (maxEntry_dominated (entries e) ("neutral", neutral e) H).
Qed.

Lemma detectEmotion_reports_one_expression_witness :
  detectEmotion (FaceFound Examples.calm_face)
  = Some {| expression := "Neutral"; probability := 0.4 |}.
Proof.
  destruct (detectEmotion_reports_one_expression Examples.calm_face) as [_ H].
  apply H. vm_compute. repeat constructor.
Defined.

End FaceExtras.

(** ** What the routes do to the stored tasks *)

Section Effects.
Import Routes.

(** A reflexive and transitive relation between the collection before and
    after. *)
Variable R : gmap string Obj -> gmap string Obj -> Prop.
Hypothesis R_refl : forall t, R t t.
Hypothesis R_trans : forall t1 t2 t3, R t1 t2 -> R t2 t3 -> R t1 t3.

Lemma relates_same {A} (m : M A) :
  (forall w r w', m w = (r, w') -> tasks w' = tasks w) -> relates R m.
Proof. intros H w r w' E. rewrite (H w r w' E). apply R_refl. Qed.

Lemma relates_ret {A} (a : A) : relates R (ret a).
Proof. apply relates_same. now intros w r w' [= _ <-]. Qed.

Lemma relates_throw {A} (e : string) : relates R (@throw A e).
Proof. apply relates_same. now intros w r w' [= _ <-]. Qed.

Lemma relates_lift {A} (c : JS.completion A) : relates R (lift c).
Proof. apply relates_same. now intros w r w' [= _ <-]. Qed.

Lemma relates_bind {A B} (m : M A) (k : A -> M B) :
  relates R m -> (forall a, relates R (k a)) -> relates R (bind m k).
Proof.
  intros Hm Hk w r w' E. unfold bind in E.
  destruct (m w) as [[a|e] w1] eqn:Em.
  - eapply R_trans; [exact (Hm w _ w1 Em)|exact (Hk a w1 r w' E)].
  - injection E as <- <-. exact (Hm w _ w1 Em).
Qed.

Lemma relates_bind_post {A B} (Q : A -> Prop) (m : M A) (k : A -> M B) :
  relates R m -> post m Q -> (forall a, Q a -> relates R (k a)) -> relates R (bind m k).
Proof.
  intros Hm Hq Hk w r w' E. unfold bind in E.
  destruct (m w) as [[a|e] w1] eqn:Em.
  - eapply R_trans; [exact (Hm w _ w1 Em)|].
    exact (Hk a (Hq w a w1 Em) w1 r w' E).
  - injection E as <- <-. exact (Hm w _ w1 Em).
Qed.

Lemma relates_bind_lift {A B} (c : JS.completion A) (k : A -> M B) :
  (forall a, c = JS.Normal a -> relates R (k a)) -> relates R (bind (lift c) k).
Proof.
  intros Hk w r w' E. unfold bind, lift in E.
  destruct c as [a|e].
  - exact (Hk a eq_refl w r w' E).
  - injection E as <- <-. apply R_refl.
Qed.

Lemma relates_try_catch {A} (body : M A) (handler : string -> M A) :
  relates R body -> (forall e, relates R (handler e)) -> relates R (try_catch body handler).
Proof.
  intros Hb Hh w r w' E. unfold try_catch in E.
  destruct (body w) as [[a|e] w1] eqn:Eb.
  - injection E as <- <-. exact (Hb w _ w1 Eb).
  - eapply R_trans; [exact (Hb w _ w1 Eb)|exact (Hh e w1 r w' E)].
Qed.

Lemma relates_firestore : relates R firestore.
Proof.
  apply relates_same. intros w r w'. unfold firestore.
  destruct (faults w) as [|[e|] rest]; now intros [= _ <-].
Qed.

Lemma relates_Date_now : relates R Date_now.
Proof.
  apply relates_same. intros w r w'. unfold Date_now.
  destruct (clock w); now intros [= _ <-].
Qed.

Lemma relates_Timestamp_now : relates R Timestamp_now.
Proof. apply relates_bind; [apply relates_Date_now|intros; apply relates_ret]. Qed.

Lemma relates_fetch : relates R fetch.
Proof.
  apply relates_same. intros w r w'. unfold fetch.
  destruct (replies w) as [|[e|ok json] rest]; now intros [= _ <-].
Qed.

Lemma relates_getUser (id : string) : relates R (getUser id).
Proof.
  apply relates_bind; [apply relates_firestore|intros _].
  apply relates_same. now intros w r w' [= _ <-].
Qed.

Lemma relates_getTask (id : string) : relates R (getTask id).
Proof.
  apply relates_bind; [apply relates_firestore|intros _].
  apply relates_same. now intros w r w' [= _ <-].
Qed.

Lemma relates_getTasksOf (userId : string) : relates R (getTasksOf userId).
Proof.
  apply relates_bind; [apply relates_firestore|intros _].
  apply relates_same. now intros w r w' [= _ <-].
Qed.

Lemma relates_addDoc (data : Obj) :
  (forall t id, R t (<[id := data]> t)) -> relates R (addDoc data).
Proof.
  intros H. apply relates_bind; [apply relates_firestore|intros _].
  intros w r w' [= _ <-]. cbn [tasks]. apply H.
Qed.

Lemma relates_updateDoc (id : string) (changes : Obj) :
  (forall t doc, t !! id = Some doc -> R t (<[id := spread doc changes]> t)) ->
  relates R (updateDoc id changes).
Proof.
  intros H. apply relates_bind; [apply relates_firestore|intros _].
  intros w r w'. destruct (tasks w !! id) as [doc|] eqn:E.
  - intros [= _ <-]. cbn [tasks]. now apply H.
  - intros [= _ <-]. apply R_refl.
Qed.

Lemma relates_deleteDoc (id : string) :
  (forall t, R t (delete id t)) -> relates R (deleteDoc id).
Proof.
  intros H. apply relates_bind; [apply relates_firestore|intros _].
  intros w r w' [= _ <-]. cbn [tasks]. apply H.
Qed.

(** One step of a proof about the effect of a block. *)
Ltac relates_step :=
  match goal with
  | |- relates _ (ret _) => apply relates_ret
  | |- relates _ (throw _) => apply relates_throw
  | |- relates _ (lift _) => apply relates_lift
  | |- relates _ firestore => apply relates_firestore
  | |- relates _ Date_now => apply relates_Date_now
  | |- relates _ Timestamp_now => apply relates_Timestamp_now
  | |- relates _ fetch => apply relates_fetch
  | |- relates _ (getUser _) => apply relates_getUser
  | |- relates _ (getTask _) => apply relates_getTask
  | |- relates _ (getTasksOf _) => apply relates_getTasksOf
  | |- relates _ (bind _ _) => apply relates_bind; [|intros]
  | |- relates _ (try_catch _ _) => apply relates_try_catch; [|intros]
  | |- relates _ (if ?b then _ else _) => destruct b
  | |- relates _ (match ?x with _ => _ end) => destruct x
  end.

Lemma relates_askGemini : relates R askGemini.
Proof. unfold askGemini. repeat relates_step. Qed.

Lemma post_Timestamp_now : post Timestamp_now (fun v => exists t, v = JTimestamp t).
Proof.
  intros w a w'. unfold Timestamp_now, bind, Date_now, ret.
  destruct (clock w); intros [= <- _]; eauto.
Qed.

Lemma post_bind_lift {A B} (c : JS.completion A) (k : A -> M B) (Q : B -> Prop) :
  (forall a, c = JS.Normal a -> post (k a) Q) -> post (bind (lift c) k) Q.
Proof.
  intros H w b w'. unfold bind, lift.
  destruct c as [a|e]; [apply (H a eq_refl)|discriminate].
Qed.

(** *** The documents and changes the handlers pass to Firestore *)

Section RouteEffects.
Variable Timestamp_fromDate : JsVal -> JS.completion JsVal.

Lemma newTask_created (userId : JsVal) (validatedData : Obj) (date s : JsVal) (t : Z) :
  Timestamp_fromDate date = JS.Normal s ->
  isCreated Timestamp_fromDate (newTask userId validatedData s (JTimestamp t)).
Proof.
  intros Hs. split; [apply newTask_fresh|]. split; [split|].
  - exists t. unfold newTask, assign; cbn [fold_left fst snd].
    rewrite lookup_insert_ne by discriminate. apply lookup_insert_eq.
  - exists t. unfold newTask, assign; cbn [fold_left fst snd]. apply lookup_insert_eq.
  - exists date, s. split; [exact Hs|].
    unfold newTask, assign; cbn [fold_left fst snd].
    repeat (rewrite lookup_insert_ne by discriminate). apply lookup_insert_eq.
Qed.

Lemma plannedTask_created (userId task date s : JsVal) (c u : Z) (doc : Obj) :
  Timestamp_fromDate date = JS.Normal s ->
  plannedTask userId task s (JTimestamp c) (JTimestamp u) = JS.Normal doc ->
  isCreated Timestamp_fromDate doc.
Proof.
  intros Hs E.
  destruct (plannedTask_fresh _ _ _ _ _ _ E) as (Hfresh & Hc & Hu).
  split; [exact Hfresh|]. split; [split; eauto|].
  exists date, s. split; [exact Hs|].
  revert E. unfold plannedTask.
  destruct (get task "title") as [title|]; [|discriminate].
  destruct (get task "description") as [description|]; [|discriminate].
  destruct (get task "duration") as [duration|]; [|discriminate].
  destruct (get task "xpReward") as [xpReward|]; [|discriminate].
  destruct (get task "category") as [category|]; [|discriminate].
  cbn [JS.bind]. intros [= <-].
  unfold object, assign; cbn [fold_left fst snd].
  repeat (rewrite lookup_insert_ne by discriminate). apply lookup_insert_eq.
Qed.

Lemma stamped_isUpdate (validatedData : Obj) (t : Z) :
  keysWithin ["title"; "description"; "scheduledTime"; "duration"; "completed"; "xpReward"]
    validatedData ->
  validatedData !! "scheduledTime" = None ->
  isUpdate Timestamp_fromDate (assign validatedData [("updatedAt", JTimestamp t)]).
Proof.
  intros Hkeys Hnone. unfold assign; cbn [fold_left fst snd]. split; [|split].
  - apply keysWithin_insert; [cbn; tauto|].
    eapply keysWithin_more; [|exact Hkeys]. cbn; tauto.
  - exists t. apply lookup_insert_eq.
  - intros s. rewrite lookup_insert_ne by discriminate. now rewrite Hnone.
Qed.

Lemma rescheduled_isUpdate (validatedData : Obj) (t : Z) (date ts : JsVal) :
  keysWithin ["title"; "description"; "scheduledTime"; "duration"; "completed"; "xpReward"]
    validatedData ->
  Timestamp_fromDate date = JS.Normal ts ->
  isUpdate Timestamp_fromDate
    (<["scheduledTime" := ts]> (assign validatedData [("updatedAt", JTimestamp t)])).
Proof.
  intros Hkeys Hts. unfold assign; cbn [fold_left fst snd]. split; [|split].
  - apply keysWithin_insert; [cbn; tauto|].
    apply keysWithin_insert; [cbn; tauto|].
    eapply keysWithin_more; [|exact Hkeys]. cbn; tauto.
  - exists t. rewrite lookup_insert_ne by discriminate. apply lookup_insert_eq.
  - intros s. rewrite lookup_insert_eq. intros [= <-]. eauto.
Qed.

Lemma completion_isUpdate (t : Z) :
  isUpdate Timestamp_fromDate
    (object [("completed", JBool true); ("updatedAt", JTimestamp t)]).
Proof.
  unfold object, assign; cbn [fold_left fst snd]. split; [|split].
  - apply keysWithin_insert; [cbn; tauto|].
    apply keysWithin_insert; [cbn; tauto|]. apply keysWithin_empty.
  - exists t. apply lookup_insert_eq.
  - intros s. rewrite !lookup_insert_ne by discriminate. now rewrite lookup_empty.
Qed.

(** A valid date is truthy, so the handler converts every [scheduledTime]
    that the schema lets through. *)
Lemma not_truthy_no_date (validatedData : Obj) :
  (forall v, validatedData !! "scheduledTime" = Some v -> isDate v = true) ->
  truthy (field validatedData "scheduledTime") = false ->
  validatedData !! "scheduledTime" = None.
Proof.
  intros Hdate. unfold field.
  destruct (validatedData !! "scheduledTime") as [v|]; [|reflexivity].
  specialize (Hdate v eq_refl). destruct v as [| | | | |[ms|]| | |]; discriminate.
Qed.

(** *** The effect of each handler *)

Lemma relates_updateTask (id : string) (updates : JsVal) :
  (forall t doc changes,
      t !! id = Some doc -> isUpdate Timestamp_fromDate changes ->
      R t (<[id := spread doc changes]> t)) ->
  relates R (updateTask Timestamp_fromDate id updates).
Proof.
  intros R_update.
  unfold updateTask, updateTask_try.
  apply relates_try_catch; [|intros; apply relates_ret].
  apply relates_bind_lift. intros validatedData Hv.
  pose proof (updateTaskSchema_within _ _ Hv) as Hkeys.
  apply relates_bind_post with (Q := fun v => exists t, v = JTimestamp t);
    [apply relates_Timestamp_now|apply post_Timestamp_now|intros now [t ->]].
  apply relates_bind_post with (Q := isUpdate Timestamp_fromDate).
  - repeat relates_step.
  - destruct (truthy (field validatedData "scheduledTime")) eqn:Htruthy.
    + apply post_bind_lift. intros ts Hts. apply post_ret.
      eapply rescheduled_isUpdate; [exact Hkeys|exact Hts].
    + apply post_ret, stamped_isUpdate; [exact Hkeys|].
      apply not_truthy_no_date; [|exact Htruthy].
      intros v. apply (updateTaskSchema_date _ _ _ Hv).
  - intros updateData Hu.
    apply relates_bind; [|intros; apply relates_ret].
    apply relates_updateDoc. intros t' doc Hdoc. apply R_update; assumption.
Qed.

Lemma relates_completeTask (id : string) :
  (forall t doc changes,
      t !! id = Some doc -> isUpdate Timestamp_fromDate changes ->
      R t (<[id := spread doc changes]> t)) ->
  relates R (completeTask id).
Proof.
  intros R_update.
  unfold completeTask, completeTask_try.
  apply relates_try_catch; [|intros; apply relates_ret].
  apply relates_bind; [apply relates_getTask|intros [taskData|]]; [|apply relates_ret].
  apply relates_bind_post with (Q := fun v => exists t, v = JTimestamp t);
    [apply relates_Timestamp_now|apply post_Timestamp_now|intros now [t ->]].
  apply relates_bind; [|intros; apply relates_ret].
  apply relates_updateDoc. intros. apply R_update; [assumption|].
  apply completion_isUpdate.
Qed.

Variable JSON_parse : string -> JS.completion JsVal.
Variable Date_new : JsVal -> option Z.
Variable Date_setHours : option Z -> string -> option Z.

Hypothesis R_add :
  forall t id data, isCreated Timestamp_fromDate data -> R t (<[id := data]> t).

Hypothesis R_update :
  forall t id doc changes,
    t !! id = Some doc -> isUpdate Timestamp_fromDate changes ->
    R t (<[id := spread doc changes]> t).

Lemma relates_getTasks (userId : string) : relates R (getTasks userId).
Proof. unfold getTasks, getTasks_try. repeat relates_step. Qed.

Lemma relates_storeTask (userId : JsVal) (validatedData : Obj) :
  relates R (storeTask Timestamp_fromDate userId validatedData).
Proof.
  unfold storeTask.
  apply relates_bind_post with (Q := fun v => exists t, v = JTimestamp t);
    [apply relates_Timestamp_now|apply post_Timestamp_now|intros now [t ->]].
  apply relates_bind_lift. intros s Hs.
  apply relates_bind; [|intros; apply relates_ret].
  apply relates_addDoc. intros. eapply R_add, newTask_created, Hs.
Qed.

Lemma relates_createTask (reqBody : JsVal) :
  relates R (createTask Date_new Timestamp_fromDate reqBody).
Proof.
  unfold createTask, createTask_try.
  repeat first [apply relates_storeTask | relates_step].
Qed.

Lemma relates_parseTask (reqBody : JsVal) :
  relates R (parseTask JSON_parse Date_new Timestamp_fromDate reqBody).
Proof.
  unfold parseTask, parseTask_try.
  repeat first [apply relates_storeTask | apply relates_askGemini | relates_step].
Qed.

Lemma relates_chat (reqBody : JsVal) :
  relates R (chat JSON_parse Date_new Timestamp_fromDate reqBody).
Proof.
  unfold chat, chat_try, detectTask, detectAndCreate, lookupUser.
  repeat first [apply relates_storeTask | apply relates_askGemini | relates_step].
Qed.

Lemma relates_planTask (userId dayPlan task : JsVal) :
  relates R (planTask Date_new Date_setHours Timestamp_fromDate userId dayPlan task).
Proof.
  unfold planTask.
  apply relates_bind; [relates_step|intros date].
  apply relates_bind; [relates_step|intros time].
  destruct time; try apply relates_throw.
  apply relates_bind_lift. intros scheduledTime Hs.
  apply relates_bind_post with (Q := fun v => exists t, v = JTimestamp t);
    [apply relates_Timestamp_now|apply post_Timestamp_now|intros createdAt [c ->]].
  apply relates_bind_post with (Q := fun v => exists t, v = JTimestamp t);
    [apply relates_Timestamp_now|apply post_Timestamp_now|intros updatedAt [u ->]].
  apply relates_bind_lift. intros doc E.
  apply relates_bind; [|intros; apply relates_ret].
  apply relates_addDoc. intros. eapply R_add, plannedTask_created; [exact Hs|exact E].
Qed.

Lemma relates_planTasks (userId dayPlan : JsVal) (tasks created : list JsVal) :
  relates R (planTasks Date_new Date_setHours Timestamp_fromDate userId dayPlan tasks created).
Proof.
  revert created. induction tasks as [|task rest IH]; intros created; cbn [planTasks].
  - apply relates_ret.
  - apply relates_bind; [apply relates_planTask|intros; apply IH].
Qed.

Lemma relates_planDays (userId : JsVal) (days created : list JsVal) :
  relates R (planDays Date_new Date_setHours Timestamp_fromDate userId days created).
Proof.
  revert created. induction days as [|dayPlan rest IH]; intros created; cbn [planDays].
  - apply relates_ret.
  - repeat first [apply relates_planTasks | apply IH | relates_step].
Qed.

Lemma relates_generatePlan (reqBody : JsVal) :
  relates R (generatePlan JSON_parse Date_new Date_setHours Timestamp_fromDate reqBody).
Proof.
  unfold generatePlan, generatePlan_try, loadProfile.
  repeat first [apply relates_planDays | apply relates_askGemini | relates_step].
Qed.

Lemma relates_deleteTask (id : string) :
  (forall t, R t (delete id t)) -> relates R (deleteTask id).
Proof.
  intros H. unfold deleteTask, deleteTask_try.
  apply relates_try_catch; [|intros; apply relates_ret].
  apply relates_bind; [apply relates_deleteDoc, H|intros; apply relates_ret].
Qed.

(** Every route relates the collection before and after by [R], when
    adding a created document and applying an update do, and, for the
    DELETE route, deleting the task does. *)
Lemma relates_registerRoutes (req : Request) :
  (forall id t, req = DELETE_task id -> R t (delete id t)) ->
  relates R (registerRoutes JSON_parse Date_new Date_setHours Timestamp_fromDate req).
Proof.
  intros Hdel. destruct req; cbn [registerRoutes].
  - apply relates_getTasks.
  - apply relates_createTask.
  - apply relates_updateTask. intros t. apply R_update.
  - apply relates_deleteTask. intros t. now apply Hdel.
  - apply relates_completeTask. intros t. apply R_update.
  - apply relates_parseTask.
  - apply relates_chat.
  - apply relates_generatePlan.
Qed.

End RouteEffects.

End Effects.

(** ** What the routes keep true of the stored tasks *)

Section Invariants.
Import Routes.

Lemma allTasks_empty (P : Obj -> Prop) : allTasks P ∅.
Proof. intros id doc. now rewrite lookup_empty. Qed.

Lemma allTasks_insert (P : Obj -> Prop) (id : string) (data : Obj) (t : gmap string Obj) :
  P data -> allTasks P t -> allTasks P (<[id := data]> t).
Proof.
  intros Hdata Ht id' doc. destruct (decide (id = id')) as [->|Hne].
  - rewrite lookup_insert_eq. now intros [= <-].
  - rewrite lookup_insert_ne by exact Hne. apply Ht.
Qed.

Lemma keeps_refl (P : Obj -> Prop) (t : gmap string Obj) : keeps P t t.
Proof. now intros H. Qed.

Lemma keeps_trans (P : Obj -> Prop) (t1 t2 t3 : gmap string Obj) :
  keeps P t1 t2 -> keeps P t2 t3 -> keeps P t1 t3.
Proof. unfold keeps. auto. Qed.

Lemma keeps_insert (P : Obj -> Prop) (id : string) (data : Obj) (t : gmap string Obj) :
  P data -> keeps P t (<[id := data]> t).
Proof. intros Hdata Ht. now apply allTasks_insert. Qed.

Lemma keeps_update (P : Obj -> Prop) (id : string) (doc changes : Obj) (t : gmap string Obj) :
  t !! id = Some doc -> (P doc -> P (spread doc changes)) ->
  keeps P t (<[id := spread doc changes]> t).
Proof. intros Hdoc HP Ht. apply allTasks_insert; [apply HP, (Ht id), Hdoc|exact Ht]. Qed.

Lemma keeps_delete (P : Obj -> Prop) (id : string) (t : gmap string Obj) :
  keeps P t (delete id t).
Proof. intros Ht id' doc H. apply lookup_delete_Some in H as [_ H]. exact (Ht id' doc H). Qed.

(** A key that an update does not name keeps its value. *)
Lemma spread_other (doc changes : Obj) (k : string) :
  keysWithin updatableKeys changes -> ~ In k updatableKeys ->
  spread doc changes !! k = doc !! k.
Proof. intros Hkeys Hk. unfold spread. apply lookup_union_r, Hkeys, Hk. Qed.

Lemma notNotified_created (fromDate : JsVal -> JS.completion JsVal) (data : Obj) :
  isCreated fromDate data -> notNotified data.
Proof. intros [[_ H] _]. unfold notNotified. rewrite H. discriminate. Qed.

Lemma notNotified_update (fromDate : JsVal -> JS.completion JsVal) (doc changes : Obj) :
  isUpdate fromDate changes -> notNotified doc -> notNotified (spread doc changes).
Proof.
  intros [Hkeys _] H. unfold notNotified.
  rewrite (spread_other _ _ _ Hkeys); [exact H|].
  cbn. intros Hin. repeat destruct Hin as [Hin|Hin]; try discriminate. exact Hin.
Qed.

Lemma isListable_created (fromDate : JsVal -> JS.completion JsVal) (data : Obj) :
  givesTimestamps fromDate -> isCreated fromDate data -> isListable data.
Proof.
  intros Hgives (_ & Hstamps & date & s & Hs & Hlook). split; [|exact Hstamps].
  destruct (Hgives date s Hs) as [ms ->]. eauto.
Qed.

Lemma isListable_update (fromDate : JsVal -> JS.completion JsVal) (doc changes : Obj) :
  givesTimestamps fromDate -> isUpdate fromDate changes ->
  isListable doc -> isListable (spread doc changes).
Proof.
  intros Hgives (Hkeys & [n Hn] & Hsched) ([s Hs] & [c Hc] & _).
  split; [|split].
  - unfold spread. destruct (changes !! "scheduledTime") as [v|] eqn:E.
    + destruct (Hsched v eq_refl) as [date Hdate].
      destruct (Hgives date v Hdate) as [ms ->].
      exists ms. now apply lookup_union_Some_l.
    + exists s. rewrite lookup_union_r by exact E. exact Hs.
  - exists c. rewrite (spread_other _ _ _ Hkeys); [exact Hc|].
    cbn. intros Hin. repeat destruct Hin as [Hin|Hin]; try discriminate. exact Hin.
  - exists n. unfold spread. now apply lookup_union_Some_l.
Qed.

Lemma keepsIds_refl (t : gmap string Obj) : keepsIds t t.
Proof. now intros id. Qed.

Lemma keepsIds_trans (t1 t2 t3 : gmap string Obj) :
  keepsIds t1 t2 -> keepsIds t2 t3 -> keepsIds t1 t3.
Proof. unfold keepsIds. auto. Qed.

Lemma keepsIds_insert (id : string) (data : Obj) (t : gmap string Obj) :
  keepsIds t (<[id := data]> t).
Proof.
  intros id' H. destruct (decide (id = id')) as [->|Hne].
  - rewrite lookup_insert_eq. eauto.
  - now rewrite lookup_insert_ne.
Qed.

Lemma changesOnly_refl (ks : list string) (id : string) (t : gmap string Obj) :
  changesOnly ks id t t.
Proof. intros id' doc H. exists doc. auto. Qed.

Lemma changesOnly_trans (ks : list string) (id : string) (t1 t2 t3 : gmap string Obj) :
  changesOnly ks id t1 t2 -> changesOnly ks id t2 t3 -> changesOnly ks id t1 t3.
Proof.
  intros H12 H23 id' doc H.
  destruct (H12 id' doc H) as (doc2 & H2 & Hsame2 & Hkeys2).
  destruct (H23 id' doc2 H2) as (doc3 & H3 & Hsame3 & Hkeys3).
  exists doc3. split; [exact H3|]. split.
  - intros Hne. now rewrite (Hsame3 Hne), (Hsame2 Hne).
  - intros k Hk. now rewrite (Hkeys3 k Hk), (Hkeys2 k Hk).
Qed.

Lemma changesOnly_update (fromDate : JsVal -> JS.completion JsVal) (id : string)
    (doc changes : Obj) (t : gmap string Obj) :
  t !! id = Some doc -> isUpdate fromDate changes ->
  changesOnly updatableKeys id t (<[id := spread doc changes]> t).
Proof.
  intros Hdoc [Hkeys _] id' doc' H. destruct (decide (id = id')) as [<-|Hne].
  - exists (spread doc changes). rewrite lookup_insert_eq.
    assert (doc' = doc) as -> by congruence.
    split; [reflexivity|]. split; [congruence|].
    intros k Hk. now apply spread_other.
  - exists doc'. rewrite lookup_insert_ne by exact Hne. auto.
Qed.

Section WithLibrary.
Variable JSON_parse : string -> JS.completion JsVal.
Variable Date_new : JsVal -> option Z.
Variable Date_setHours : option Z -> string -> option Z.
Variable Timestamp_fromDate : JsVal -> JS.completion JsVal.

Abbreviation route := (registerRoutes JSON_parse Date_new Date_setHours Timestamp_fromDate).

(** X12: no route sets [notificationSent] to true. If no stored task is
    marked as notified before a request, whichever route it goes to and
    whatever its body, none is afterwards: the creation paths store
    [false], and neither PUT nor the completion route can write the
    field. *)
Theorem no_route_marks_a_task_notified (req : Request) (w : World) :
  allTasks notNotified (tasks w) ->
  allTasks notNotified (tasks (snd (route req w))).
Proof.
  destruct (route req w) as [r w'] eqn:E. cbn [snd].
  refine (relates_registerRoutes (keeps notNotified) (keeps_refl _) (keeps_trans _)
            Timestamp_fromDate JSON_parse Date_new Date_setHours _ _ req _ w r w' E).
  - intros t id data H. eapply keeps_insert, notNotified_created, H.
  - intros t id doc changes Hdoc H.
    apply keeps_update; [exact Hdoc|]. eapply notNotified_update, H.
  - intros id t _. apply keeps_delete.
Qed.

(** X13: the routes keep the collection listable. When
    [Timestamp.fromDate] returns only timestamps and every stored task has
    timestamps in [scheduledTime], [createdAt] and [updatedAt], the same
    holds after any request to any route. *)
Theorem routes_keep_tasks_listable (req : Request) (w : World) :
  givesTimestamps Timestamp_fromDate ->
  allTasks isListable (tasks w) ->
  allTasks isListable (tasks (snd (route req w))).
Proof.
  intros Hgives.
  destruct (route req w) as [r w'] eqn:E. cbn [snd].
  refine (relates_registerRoutes (keeps isListable) (keeps_refl _) (keeps_trans _)
            Timestamp_fromDate JSON_parse Date_new Date_setHours _ _ req _ w r w' E).
  - intros t id data H. eapply keeps_insert, isListable_created, H. exact Hgives.
  - intros t id doc changes Hdoc H.
    apply keeps_update; [exact Hdoc|]. eapply isListable_update; [exact Hgives|exact H].
  - intros id t _. apply keeps_delete.
Qed.

(** X14: only DELETE removes a task. After a request to any other route,
    every id that had a task still has one. *)
Theorem only_delete_removes_a_task (req : Request) (w : World) (id : string) :
  isDelete req = false ->
  is_Some (tasks w !! id) ->
  is_Some (tasks (snd (route req w)) !! id).
Proof.
  intros Hreq.
  destruct (route req w) as [r w'] eqn:E. cbn [snd].
  refine (relates_registerRoutes keepsIds keepsIds_refl keepsIds_trans
            Timestamp_fromDate JSON_parse Date_new Date_setHours _ _ req _ w r w' E id).
  - intros t id' data _. apply keepsIds_insert.
  - intros t id' doc changes _ _. apply keepsIds_insert.
  - intros id' t ->. discriminate.
Qed.

(** X15: a PUT on task [id], whatever its body, and the completion of task
    [id] leave every other task as it is, remove no task, and change in
    task [id] at most [title], [description], [scheduledTime], [duration],
    [completed], [xpReward] and [updatedAt]: [userId], [createdAt],
    [notificationSent] and the planner's [category] and [autoGenerated]
    stay as stored. *)
Theorem update_changes_only_updatable_keys (id : string) (updates : JsVal) (w : World) :
  changesOnly updatableKeys id (tasks w)
    (tasks (snd (updateTask Timestamp_fromDate id updates w)))
  /\ changesOnly updatableKeys id (tasks w) (tasks (snd (completeTask id w))).
Proof.
  split.
  - destruct (updateTask Timestamp_fromDate id updates w) as [r w'] eqn:E. cbn [snd].
    eapply (relates_updateTask (changesOnly updatableKeys id)); [..|exact E].
    + apply changesOnly_refl.
    + apply changesOnly_trans.
    + intros t doc changes. apply changesOnly_update.
  - destruct (completeTask id w) as [r w'] eqn:E. cbn [snd].
    eapply (relates_completeTask (changesOnly updatableKeys id)); [..|exact E].
    + apply changesOnly_refl.
    + apply changesOnly_trans.
    + intros t doc changes. apply (changesOnly_update Timestamp_fromDate).
Qed.

End WithLibrary.

Lemma stub_givesTimestamps : givesTimestamps RouteExamples.Timestamp_fromDate.
Proof.
  intros date s. unfold RouteExamples.Timestamp_fromDate.
  destruct date as [| | | | |[ms|]| | |]; try discriminate.
  intros [= <-]. eauto.
Qed.

Lemma walk_task_notNotified : notNotified RouteExamples.walk_task.
Proof. intros H. vm_compute in H. discriminate. Qed.

Lemma walk_task_isListable : isListable RouteExamples.walk_task.
Proof.
  split; [|split].
  - exists 1764374400000%Z. reflexivity.
  - exists 1000%Z. reflexivity.
  - exists 1000%Z. reflexivity.
Qed.

Lemma no_route_marks_a_task_notified_witness :
  allTasks notNotified
    (tasks (snd (registerRoutes RouteExamples.JSON_parse RouteExamples.Date_new
                   RouteExamples.Date_setHours RouteExamples.Timestamp_fromDate
                   (PUT_task "t2" RouteExamples.rename_body) RouteExamples.one_task))).
Proof.
  apply no_route_marks_a_task_notified.
  apply allTasks_insert; [apply walk_task_notNotified|apply allTasks_empty].
Defined.

Lemma routes_keep_tasks_listable_witness :
  allTasks isListable
    (tasks (snd (registerRoutes RouteExamples.JSON_parse RouteExamples.Date_new
                   RouteExamples.Date_setHours RouteExamples.Timestamp_fromDate
                   (POST_tasks RouteExamples.yoga_body) RouteExamples.one_task))).
Proof.
  apply routes_keep_tasks_listable.
  - apply stub_givesTimestamps.
  - apply allTasks_insert; [apply walk_task_isListable|apply allTasks_empty].
Defined.

Lemma only_delete_removes_a_task_witness :
  is_Some (tasks (snd (registerRoutes RouteExamples.JSON_parse RouteExamples.Date_new
                         RouteExamples.Date_setHours RouteExamples.Timestamp_fromDate
                         (POST_task_complete "t2") RouteExamples.one_task)) !! "t2").
Proof.
  apply only_delete_removes_a_task.
  - reflexivity.
  - exists RouteExamples.walk_task. reflexivity.
Defined.

End Invariants.

(** ** The user profiles and the generation API *)

Section Profiles.
Import Routes.

Lemma unchanged_ret {A} (a : A) : unchanged users (ret a).
Proof. now intros w r w' [= _ <-]. Qed.

Lemma unchanged_throw {A} (e : string) : unchanged users (@throw A e).
Proof. now intros w r w' [= _ <-]. Qed.

Lemma unchanged_lift {A} (c : JS.completion A) : unchanged users (lift c).
Proof. now intros w r w' [= _ <-]. Qed.

Lemma unchanged_bind {A B} (m : M A) (k : A -> M B) :
  unchanged users m -> (forall a, unchanged users (k a)) -> unchanged users (bind m k).
Proof.
  intros Hm Hk w r w' E. unfold bind in E.
  destruct (m w) as [[a|e] w1] eqn:Em.
  - rewrite (Hk a w1 r w' E). exact (Hm w _ w1 Em).
  - injection E as <- <-. exact (Hm w _ w1 Em).
Qed.

Lemma unchanged_try_catch {A} (body : M A) (handler : string -> M A) :
  unchanged users body -> (forall e, unchanged users (handler e)) ->
  unchanged users (try_catch body handler).
Proof.
  intros Hb Hh w r w' E. unfold try_catch in E.
  destruct (body w) as [[a|e] w1] eqn:Eb.
  - injection E as <- <-. exact (Hb w _ w1 Eb).
  - rewrite (Hh e w1 r w' E). exact (Hb w _ w1 Eb).
Qed.

Lemma unchanged_firestore : unchanged users firestore.
Proof.
  intros w r w'. unfold firestore.
  destruct (faults w) as [|[e|] rest]; now intros [= _ <-].
Qed.

Lemma unchanged_Date_now : unchanged users Date_now.
Proof. intros w r w'. unfold Date_now. destruct (clock w); now intros [= _ <-]. Qed.

Lemma unchanged_fetch : unchanged users fetch.
Proof.
  intros w r w'. unfold fetch.
  destruct (replies w) as [|[e|ok json] rest]; now intros [= _ <-].
Qed.

Lemma unchanged_after_firestore {A} (k : M A) :
  (forall w r w', k w = (r, w') -> users w' = users w) ->
  unchanged users (let! _ := firestore in k).
Proof. intros H. apply unchanged_bind; [apply unchanged_firestore|intros _; exact H]. Qed.

Lemma unchanged_getTask (id : string) : unchanged users (getTask id).
Proof. apply unchanged_after_firestore. now intros w r w' [= _ <-]. Qed.

Lemma unchanged_getUser (id : string) : unchanged users (getUser id).
Proof. apply unchanged_after_firestore. now intros w r w' [= _ <-]. Qed.

Lemma unchanged_getTasksOf (userId : string) : unchanged users (getTasksOf userId).
Proof. apply unchanged_after_firestore. now intros w r w' [= _ <-]. Qed.

Lemma unchanged_addDoc (data : Obj) : unchanged users (addDoc data).
Proof. apply unchanged_after_firestore. now intros w r w' [= _ <-]. Qed.

Lemma unchanged_updateDoc (id : string) (changes : Obj) :
  unchanged users (updateDoc id changes).
Proof.
  apply unchanged_after_firestore. intros w r w'.
  destruct (tasks w !! id); now intros [= _ <-].
Qed.

Lemma unchanged_deleteDoc (id : string) : unchanged users (deleteDoc id).
Proof. apply unchanged_after_firestore. now intros w r w' [= _ <-]. Qed.

(** One step of a proof that a block leaves the profiles alone. *)
Ltac unchanged_step :=
  match goal with
  | |- unchanged _ (ret _) => apply unchanged_ret
  | |- unchanged _ (throw _) => apply unchanged_throw
  | |- unchanged _ (lift _) => apply unchanged_lift
  | |- unchanged _ firestore => apply unchanged_firestore
  | |- unchanged _ Date_now => apply unchanged_Date_now
  | |- unchanged _ fetch => apply unchanged_fetch
  | |- unchanged _ (getUser _) => apply unchanged_getUser
  | |- unchanged _ (getTask _) => apply unchanged_getTask
  | |- unchanged _ (getTasksOf _) => apply unchanged_getTasksOf
  | |- unchanged _ (addDoc _) => apply unchanged_addDoc
  | |- unchanged _ (updateDoc _ _) => apply unchanged_updateDoc
  | |- unchanged _ (deleteDoc _) => apply unchanged_deleteDoc
  | |- unchanged _ (bind _ _) => apply unchanged_bind; [|intros]
  | |- unchanged _ (try_catch _ _) => apply unchanged_try_catch; [|intros]
  | |- unchanged _ (if ?b then _ else _) => destruct b
  | |- unchanged _ (match ?x with _ => _ end) => destruct x
  end.

Section WithLibrary.
Variable JSON_parse : string -> JS.completion JsVal.
Variable Date_new : JsVal -> option Z.
Variable Date_setHours : option Z -> string -> option Z.
Variable Timestamp_fromDate : JsVal -> JS.completion JsVal.

Lemma unchanged_planTasks (userId dayPlan : JsVal) (tasks created : list JsVal) :
  unchanged users
    (planTasks Date_new Date_setHours Timestamp_fromDate userId dayPlan tasks created).
Proof.
  revert created. induction tasks as [|task rest IH]; intros created; cbn [planTasks].
  - apply unchanged_ret.
  - apply unchanged_bind; [|intros; apply IH].
    unfold planTask, Timestamp_now. repeat unchanged_step.
Qed.

Lemma unchanged_planDays (userId : JsVal) (days created : list JsVal) :
  unchanged users (planDays Date_new Date_setHours Timestamp_fromDate userId days created).
Proof.
  revert created. induction days as [|dayPlan rest IH]; intros created; cbn [planDays].
  - apply unchanged_ret.
  - repeat first [apply unchanged_planTasks | apply IH | unchanged_step].
Qed.

(** X16: no route writes to the user profiles. Whatever the request and
    whatever Firestore and the generation API answer, the [users]
    collection is afterwards what it was; in particular completing a task
    reports its reward but credits it to nobody. *)
Theorem routes_never_write_profiles (req : Request) (w : World) :
  users (snd (registerRoutes JSON_parse Date_new Date_setHours Timestamp_fromDate req w))
  = users w.
Proof.
  destruct (registerRoutes _ _ _ _ req w) as [r w'] eqn:E. cbn [snd].
  revert w r w' E. change (unchanged users
    (registerRoutes JSON_parse Date_new Date_setHours Timestamp_fromDate req)).
  destruct req; cbn [registerRoutes];
    unfold getTasks, getTasks_try, createTask, createTask_try,
      updateTask, updateTask_try, deleteTask, deleteTask_try,
      completeTask, completeTask_try, parseTask, parseTask_try,
      chat, chat_try, detectTask, detectAndCreate, lookupUser,
      generatePlan, generatePlan_try, loadProfile, storeTask, askGemini, Timestamp_now;
    repeat first [apply unchanged_planDays | unchanged_step].
Qed.

End WithLibrary.

End Profiles.

Section Offline.
Import Routes.

Lemma offline_ret {A} (Q : A -> Prop) (a : A) : Q a -> offline Q (ret a).
Proof. intros H w r w' Hdown [= <- <-]. auto. Qed.

Lemma offline_throw {A} (Q : A -> Prop) (e : string) : offline Q (throw e).
Proof. intros w r w' Hdown [= <- <-]. auto. Qed.

Lemma offline_lift {A} (Q : A -> Prop) (c : JS.completion A) :
  (forall a, c = JS.Normal a -> Q a) -> offline Q (lift c).
Proof. intros H w r w' Hdown [= <- <-]. destruct c; auto. Qed.

Lemma offline_bind {A B} (Q1 : A -> Prop) (Q : B -> Prop) (m : M A) (k : A -> M B) :
  offline Q1 m -> (forall a, Q1 a -> offline Q (k a)) -> offline Q (bind m k).
Proof.
  intros Hm Hk w r w' Hdown E. unfold bind in E.
  destruct (m w) as [[a|e] w1] eqn:Em.
  - destruct (Hm w _ w1 Hdown Em) as (Ht & Hdown1 & Ha).
    destruct (Hk a Ha w1 r w' Hdown1 E) as (Ht' & Hdown' & Hr).
    rewrite Ht', Ht. auto.
  - injection E as <- <-.
    destruct (Hm w _ w1 Hdown Em) as (Ht & Hdown1 & _). auto.
Qed.

Lemma offline_try_catch {A} (Q : A -> Prop) (body : M A) (handler : string -> M A) :
  offline Q body -> (forall e, offline Q (handler e)) -> offline Q (try_catch body handler).
Proof.
  intros Hb Hh w r w' Hdown E. unfold try_catch in E.
  destruct (body w) as [[a|e] w1] eqn:Eb.
  - injection E as <- <-. exact (Hb w _ w1 Hdown Eb).
  - destruct (Hb w _ w1 Hdown Eb) as (Ht & Hdown1 & _).
    destruct (Hh e w1 r w' Hdown1 E) as (Ht' & Hdown' & Hr).
    rewrite Ht', Ht. auto.
Qed.

Lemma offline_any {A} (m : M A) :
  (forall w r w', m w = (r, w') -> tasks w' = tasks w /\ replies w' = replies w) ->
  offline (fun _ => True) m.
Proof.
  intros H w r w' Hdown E. destruct (H w r w' E) as [Ht Hr].
  unfold apiDown. rewrite Hr. destruct r; auto.
Qed.

Lemma offline_firestore : offline (fun _ => True) firestore.
Proof.
  apply offline_any. intros w r w'. unfold firestore.
  destruct (faults w) as [|[e|] rest]; now intros [= _ <-].
Qed.

Lemma offline_Date_now : offline (fun _ => True) Date_now.
Proof.
  apply offline_any. intros w r w'. unfold Date_now.
  destruct (clock w); now intros [= _ <-].
Qed.

Lemma offline_getUser (id : string) : offline (fun _ => True) (getUser id).
Proof.
  eapply offline_bind; [apply offline_firestore|intros _ _].
  apply offline_any. now intros w r w' [= _ <-].
Qed.

(** A request made while the API is down is not [ok], if it returns at all. *)
Lemma offline_fetch :
  offline (fun response : bool * JS.completion JsVal => fst response = false) fetch.
Proof.
  intros w r w' Hdown. unfold fetch, apiDown in *.
  destruct (replies w) as [|[e|ok json] rest] eqn:E.
  - intros [= <- <-]. unfold apiDown. rewrite E. auto.
  - inversion Hdown; subst. intros [= <- <-]. auto.
  - inversion Hdown as [|? ? Hok Hrest]; subst. cbn in Hok. subst ok.
    intros [= <- <-]. auto.
Qed.

Lemma offline_askGemini : offline (fun _ => False) askGemini.
Proof.
  unfold askGemini. eapply offline_bind; [apply offline_fetch|].
  intros [ok json] Hok. cbn in Hok. subst ok. cbn [fst negb]. apply offline_throw.
Qed.

(** One step of a proof about a block run while the API is down. *)
Ltac offline_step :=
  match goal with
  | |- offline _ (ret (errorJson 400 _)) => apply offline_ret; reflexivity
  | |- offline (fun _ => True) (ret _) => now apply offline_ret
  | |- offline _ (throw _) => apply offline_throw
  | |- offline (fun _ => True) (lift _) => now apply offline_lift
  | |- offline _ (bind (lift _) _) =>
      eapply (offline_bind (fun _ => True)); [now apply offline_lift|intros ? _]
  | |- offline _ (bind Date_now _) =>
      eapply offline_bind; [apply offline_Date_now|intros ? _]
  | |- offline _ (bind askGemini _) =>
      eapply offline_bind; [apply offline_askGemini|intros ? []]
  | |- offline _ (if ?b then _ else _) => destruct b
  | |- offline _ (match ?x with _ => _ end) => destruct x
  end.

Section WithLibrary.
Variable JSON_parse : string -> JS.completion JsVal.
Variable Date_new : JsVal -> option Z.
Variable Date_setHours : option Z -> string -> option Z.
Variable Timestamp_fromDate : JsVal -> JS.completion JsVal.

Lemma offline_parseTask_try (reqBody : JsVal) :
  offline (fun r => status r = 400%Z)
    (parseTask_try JSON_parse Date_new Timestamp_fromDate reqBody).
Proof. unfold parseTask_try. repeat offline_step. Qed.

Lemma offline_lookup (userId : JsVal) :
  offline (fun _ => True)
    (if truthy userId then try_catch (lookupUser userId) (fun _ => ret tt) else ret tt).
Proof.
  destruct (truthy userId); [|now apply offline_ret].
  apply offline_try_catch; [|intros; now apply offline_ret].
  unfold lookupUser. destruct userId; try apply offline_throw.
  eapply offline_bind; [apply offline_getUser|intros; now apply offline_ret].
Qed.

Lemma offline_detectTask (userId : JsVal) :
  offline (fun _ => True) (detectTask JSON_parse Date_new Timestamp_fromDate userId).
Proof.
  unfold detectTask. eapply offline_bind; [apply offline_fetch|].
  intros [ok json] Hok. cbn in Hok. subst ok. cbn [fst]. now apply offline_ret.
Qed.

Lemma offline_chat_try (reqBody : JsVal) :
  offline (fun r => status r = 400%Z)
    (chat_try JSON_parse Date_new Timestamp_fromDate reqBody).
Proof.
  unfold chat_try. do 3 offline_step; [offline_step|].
  eapply offline_bind; [apply offline_lookup|intros _ _].
  eapply offline_bind; [apply offline_detectTask|intros createdTask _].
  offline_step.
Qed.

Lemma offline_loadProfile (userId : JsVal) :
  offline (fun _ => True) (try_catch (loadProfile userId) (fun _ => ret defaultProfile)).
Proof.
  apply offline_try_catch; [|intros; now apply offline_ret].
  unfold loadProfile. destruct userId; try apply offline_throw.
  eapply offline_bind; [apply offline_getUser|intros [userData|] _; now apply offline_ret].
Qed.

Lemma offline_generatePlan_try (reqBody : JsVal) :
  offline (fun r => status r = 400%Z)
    (generatePlan_try JSON_parse Date_new Date_setHours Timestamp_fromDate reqBody).
Proof.
  unfold generatePlan_try. do 2 offline_step; [offline_step|].
  offline_step.
  eapply offline_bind; [apply offline_loadProfile|intros userProfile _].
  repeat offline_step.
Qed.

Lemma offline_guarded (req : Request) :
  offline (fun r => status r = 400%Z)
    (tryBlock JSON_parse Date_new Date_setHours Timestamp_fromDate req) ->
  offline (fun r => status r = 400%Z \/ status r = 500%Z)
    (registerRoutes JSON_parse Date_new Date_setHours Timestamp_fromDate req).
Proof.
  intros H. rewrite registerRoutes_guarded.
  apply offline_try_catch.
  - intros w r w' Hdown E. destruct (H w r w' Hdown E) as (Ht & Hd & Hr).
    destruct r; auto.
  - intros e. apply offline_ret.
    destruct (catchBlock_isErrorResponse req e) as [Hs _]. exact Hs.
Qed.

(** X17: while the generation API is down -- every request to it fails in
    the network or comes back not [ok] -- the three routes that use it
    (parse-task, chat, planner) answer with status 400 or 500, throw
    nothing, and leave the stored tasks exactly as they were. *)
Theorem ai_routes_store_nothing_when_api_is_down (req : Request) (w : World) :
  callsGemini req = true ->
  apiDown w ->
  exists response w',
    registerRoutes JSON_parse Date_new Date_setHours Timestamp_fromDate req w
    = (JS.Normal response, w')
    /\ (status response = 400%Z \/ status response = 500%Z)
    /\ tasks w' = tasks w.
Proof.
  intros Hreq Hdown.
  assert (Hoff : offline (fun r => status r = 400%Z \/ status r = 500%Z)
            (registerRoutes JSON_parse Date_new Date_setHours Timestamp_fromDate req)).
  { apply offline_guarded. destruct req; try discriminate; cbn [tryBlock].
    - apply offline_parseTask_try.
    - apply offline_chat_try.
    - apply offline_generatePlan_try. }
  rewrite registerRoutes_guarded in *.
  destruct (try_catch_responds
              (tryBlock JSON_parse Date_new Date_setHours Timestamp_fromDate req)
              (catchBlock req) w) as (response & w' & E & _).
  exists response, w'. split; [exact E|].
  destruct (Hoff w _ w' Hdown E) as (Ht & _ & Hr). auto.
Qed.

End WithLibrary.

Lemma ai_routes_store_nothing_when_api_is_down_witness :
  exists response w',
    registerRoutes RouteExamples.JSON_parse RouteExamples.Date_new
      RouteExamples.Date_setHours RouteExamples.Timestamp_fromDate
      (POST_planner_generate RouteExamples.planner_request) RouteExamples.one_task
    = (JS.Normal response, w')
    /\ (status response = 400%Z \/ status response = 500%Z)
    /\ tasks w' = tasks RouteExamples.one_task.
Proof.
  apply ai_routes_store_nothing_when_api_is_down.
  - reflexivity.
  - constructor.
Defined.

End Offline.

(** ** Single requests *)

Section Requests.
Import Routes.

(** *** PUT *)

Lemma optionalKey_throws (input : Obj) (k : string) (check : JsVal -> bool)
    (out : Obj) (e : string) :
  optionalKey input k check out = JS.Throw e -> e = zodError.
Proof.
  unfold optionalKey. destruct (input !! k) as [v|]; [|discriminate].
  destruct v; try discriminate; destruct (check _); try discriminate;
    now intros [= <-].
Qed.

Lemma optionalKey_rejects (input : Obj) (k : string) (check : JsVal -> bool)
    (out : Obj) (v : JsVal) :
  input !! k = Some v -> v <> JUndefined -> check v = false ->
  optionalKey input k check out = JS.Throw zodError.
Proof.
  intros Hv Hdef Hcheck. unfold optionalKey. rewrite Hv.
  destruct v; try congruence; now rewrite Hcheck.
Qed.

Lemma updateTaskSchema_rejects_date (o : Obj) (v : JsVal) :
  o !! "scheduledTime" = Some v -> v <> JUndefined -> isDate v = false ->
  updateTaskSchema_parse (JObj o) = JS.Throw zodError.
Proof.
  intros Hv Hdef Hdate. unfold updateTaskSchema_parse.
  destruct (optionalKey o "title" isTitle ∅) as [o1|e] eqn:E1; cbn [JS.bind];
    [|now rewrite (optionalKey_throws _ _ _ _ _ E1)].
  destruct (optionalKey o "description" isString o1) as [o2|e] eqn:E2; cbn [JS.bind];
    [|now rewrite (optionalKey_throws _ _ _ _ _ E2)].
  now rewrite (optionalKey_rejects _ _ _ o2 _ Hv Hdef Hdate).
Qed.

(** X18: a PUT whose body has a [scheduledTime] that is not a valid [Date]
    object is answered with status 400 and the validation error, and
    nothing is read or written. A JSON body holds no [Date] objects, so this
    is the answer to every PUT that names a time, for instance as the ISO
    string the client sends. *)
Theorem put_with_a_time_is_rejected (fromDate : JsVal -> JS.completion JsVal)
    (id : string) (o : Obj) (v : JsVal) (w : World) :
  o !! "scheduledTime" = Some v ->
  v <> JUndefined ->
  isDate v = false ->
  updateTask fromDate id (JObj o) w = (JS.Normal (errorJson 400 zodError), w).
Proof.
  intros Hv Hdef Hdate.
  unfold updateTask, try_catch, updateTask_try, bind, lift.
  now rewrite (updateTaskSchema_rejects_date o v Hv Hdef Hdate).
Qed.

Lemma put_with_a_time_is_rejected_witness :
  updateTask RouteExamples.Timestamp_fromDate "t2" RouteExamples.reschedule_body
    RouteExamples.one_task
  = (JS.Normal (errorJson 400 zodError), RouteExamples.one_task).
Proof.
  apply (put_with_a_time_is_rejected _ _ _ (JStr "2025-11-29T18:00:00.000Z")).
  - reflexivity.
  - discriminate.
  - reflexivity.
Defined.

(** *** Requests that name a task that does not exist *)

Lemma firestore_keeps_tasks (w : World) (r : JS.completion unit) (w' : World) :
  firestore w = (r, w') -> tasks w' = tasks w.
Proof.
  unfold firestore. destruct (faults w) as [|[e|] rest]; now intros [= _ <-].
Qed.

Lemma updateDoc_missing (id : string) (changes : Obj) (w : World) :
  tasks w !! id = None ->
  exists e w', updateDoc id changes w = (JS.Throw e, w') /\ tasks w' = tasks w.
Proof.
  intros Hnone. unfold updateDoc, bind.
  destruct (firestore w) as [[[]|e] w1] eqn:E.
  - rewrite (firestore_keeps_tasks _ _ _ E), Hnone.
    eexists; eexists; split; [reflexivity|]. exact (firestore_keeps_tasks _ _ _ E).
  - eexists; eexists; split; [reflexivity|]. exact (firestore_keeps_tasks _ _ _ E).
Qed.

(** X19: a PUT that names a task that does not exist is answered with
    status 400, whatever its body and whatever Firestore does, and changes
    no task; a DELETE that names such a task is answered with status 200
    and [success: true] when Firestore answers. *)
Theorem requests_for_a_missing_task (fromDate : JsVal -> JS.completion JsVal)
    (id : string) (updates : JsVal) (w : World) :
  tasks w !! id = None ->
  (exists response w',
      updateTask fromDate id updates w = (JS.Normal response, w')
      /\ status response = 400%Z /\ tasks w' = tasks w)
  /\ (firestoreAnswers w ->
      exists w',
        deleteTask id w
        = (JS.Normal (json (object [("success", JBool true); ("id", JStr id)])), w')
        /\ tasks w' = tasks w).
Proof.
  intros Hnone. split.
  - unfold updateTask, try_catch, updateTask_try.
    unfold bind at 1. unfold lift at 1.
    destruct (updateTaskSchema_parse updates) as [validatedData|e];
      [|eexists; eexists; split; [reflexivity|now split]].
    destruct (Timestamp_now_reads w) as (w1 & Hnow & Ht1 & _).
    rewrite (bind_normal _ _ _ _ _ Hnow).
    assert (Hdata : exists c w2,
      (if truthy (field validatedData "scheduledTime")
       then let! ts := lift (fromDate (field validatedData "scheduledTime")) in
            ret (<["scheduledTime" := ts]>
                   (assign validatedData
                      [("updatedAt", JTimestamp (default 0%Z (head (clock w))))]))
       else ret (assign validatedData
                   [("updatedAt", JTimestamp (default 0%Z (head (clock w))))])) w1
      = (c, w2) /\ tasks w2 = tasks w).
    { destruct (truthy _); [|eexists; eexists; split; [reflexivity|exact Ht1]].
      unfold bind, lift, ret. destruct (fromDate _);
        eexists; eexists; (split; [reflexivity|exact Ht1]). }
    destruct Hdata as (c & w2 & Hdata & Ht2).
    unfold bind at 1. rewrite Hdata. destruct c as [updateData|e];
      [|eexists; eexists; split; [reflexivity|now split]].
    destruct (updateDoc_missing id updateData w2) as (e & w3 & Hupd & Ht3);
      [now rewrite Ht2|].
    unfold bind. rewrite Hupd.
    eexists; eexists; split; [reflexivity|]. split; [reflexivity|].
    now rewrite Ht3.
  - intros Hup. destruct (firestore_answers w Hup) as (w1 & Hf & Ht & _).
    unfold deleteTask, try_catch, deleteTask_try, deleteDoc.
    rewrite (bind_normal _ _ _ _ _ (bind_normal _ _ _ _ _ Hf)).
    eexists; split; [reflexivity|]. cbn [tasks].
    rewrite Ht. apply delete_id. exact Hnone.
Qed.

Lemma requests_for_a_missing_task_witness :
  exists response w',
    updateTask RouteExamples.Timestamp_fromDate "t9" RouteExamples.rename_body
      RouteExamples.one_task
    = (JS.Normal response, w')
    /\ status response = 400%Z /\ tasks w' = tasks RouteExamples.one_task.
Proof.
  apply (requests_for_a_missing_task RouteExamples.Timestamp_fromDate "t9"
           RouteExamples.rename_body RouteExamples.one_task).
  reflexivity.
Defined.

(** *** GET *)

Lemma mapC_total {A B} (f : A -> JS.completion B) (xs : list A) :
  (forall x, In x xs -> exists y, f x = JS.Normal y) ->
  exists ys, mapC f xs = JS.Normal ys.
Proof.
  induction xs as [|x rest IH]; intros H; cbn [mapC]; [eauto|].
  destruct (H x (or_introl eq_refl)) as [y ->].
  destruct IH as [ys ->]; [intros x' Hx'; apply H; now right|].
  cbn [JS.bind]. eauto.
Qed.

Lemma mapC_spec {A B} (f : A -> JS.completion B) (xs : list A) (ys : list B) :
  mapC f xs = JS.Normal ys ->
  (forall x, In x xs -> exists y, In y ys /\ f x = JS.Normal y)
  /\ (forall y, In y ys -> exists x, In x xs /\ f x = JS.Normal y).
Proof.
  revert ys. induction xs as [|x rest IH]; intros ys; cbn [mapC].
  - intros [= <-]. split; intros ? [].
  - destruct (f x) as [y|] eqn:Ex; [|discriminate]. cbn [JS.bind].
    destruct (mapC f rest) as [ys'|]; [|discriminate]. cbn [JS.bind].
    intros [= <-]. destruct (IH ys' eq_refl) as [Hl Hr]. split.
    + intros x' [<-|Hx'].
      * exists y. split; [now left|exact Ex].
      * destruct (Hl x' Hx') as (y' & Hy' & E). exists y'. split; [now right|exact E].
    + intros y' [<-|Hy'].
      * exists x. split; [now left|exact Ex].
      * destruct (Hr y' Hy') as (x' & Hx' & E). exists x'. split; [now right|exact E].
Qed.

Lemma mapC_throws {A B} (f : A -> JS.completion B) (xs : list A) (x : A) :
  In x xs -> (exists e, f x = JS.Throw e) -> exists e, mapC f xs = JS.Throw e.
Proof.
  induction xs as [|x' rest IH]; intros Hin Hx; [destruct Hin|]. cbn [mapC].
  destruct (f x') as [y|e] eqn:Ex'; [|cbn [JS.bind]; eauto]. cbn [JS.bind].
  destruct Hin as [->|Hin]; [destruct Hx as [e Hx]; congruence|].
  destruct (IH Hin Hx) as [e ->]. cbn [JS.bind]. eauto.
Qed.

(** The documents that the query of the GET route returns. *)
Lemma getTasksOf_answers (userId : string) (w : World) :
  firestoreAnswers w ->
  exists docs w',
    getTasksOf userId w = (JS.Normal docs, w')
    /\ tasks w' = tasks w
    /\ (forall id doc, In (id, doc) docs <-> tasks w !! id = Some doc /\ ownedBy userId doc).
Proof.
  intros Hup. destruct (firestore_answers w Hup) as (w1 & Hf & Ht & _).
  unfold getTasksOf. rewrite (bind_normal _ _ _ _ _ Hf).
  eexists; eexists; split; [reflexivity|]. split; [exact Ht|].
  intros id doc. rewrite filter_In, <- list_elem_of_In, elem_of_map_to_list, Ht.
  cbn [snd]. unfold ownedBy. split; intros [Hdoc Howner]; (split; [exact Hdoc|]).
  - destruct (doc !! "userId") as [[]|]; try discriminate.
    apply String.eqb_eq in Howner. now subst.
  - rewrite Howner. apply String.eqb_refl.
Qed.

Lemma taskOfDoc_listable (id : string) (doc : Obj) :
  isListable doc ->
  exists o,
    taskOfDoc (id, doc) = JS.Normal (JObj o)
    /\ o !! "id" = Some (JStr id)
    /\ o !! "userId" = Some (field doc "userId")
    /\ o !! "title" = Some (field doc "title").
Proof.
  intros ([s Hs] & [c Hc] & [u Hu]). unfold taskOfDoc, field. cbn [fst snd].
  rewrite Hs, Hc, Hu. cbn [default toDate JS.bind].
  eexists. split; [reflexivity|].
  unfold object, assign; cbn [fold_left fst snd].
  repeat split; repeat (rewrite lookup_insert_ne by discriminate); apply lookup_insert_eq.
Qed.

Lemma taskOfDoc_not_listable (id : string) (doc : Obj) :
  ~ isListable doc -> exists e, taskOfDoc (id, doc) = JS.Throw e.
Proof.
  intros Hnot. unfold taskOfDoc, field. cbn [fst snd].
  destruct (doc !! "scheduledTime") as [[]|] eqn:Hs; cbn [default toDate JS.bind]; eauto.
  destruct (doc !! "createdAt") as [[]|] eqn:Hc; cbn [default toDate JS.bind]; eauto.
  destruct (doc !! "updatedAt") as [[]|] eqn:Hu; cbn [default toDate JS.bind]; eauto.
  destruct Hnot. repeat split; eauto.
Qed.

Lemma taskOfDoc_id (id : string) (doc : Obj) (item : JsVal) :
  taskOfDoc (id, doc) = JS.Normal item ->
  exists o, item = JObj o /\ o !! "id" = Some (JStr id).
Proof.
  unfold taskOfDoc. cbn [fst snd].
  destruct (toDate (field doc "scheduledTime")); [|discriminate].
  destruct (toDate (field doc "createdAt")); [|discriminate].
  destruct (toDate (field doc "updatedAt")); [|discriminate].
  cbn [JS.bind]. intros [= <-]. eexists. split; [reflexivity|].
  unfold object, assign; cbn [fold_left fst snd].
  repeat (rewrite lookup_insert_ne by discriminate); apply lookup_insert_eq.
Qed.

(** X20: the list route returns the tasks of the user and no others. When
    Firestore answers and the user's tasks have timestamps in
    [scheduledTime], [createdAt] and [updatedAt], the answer has status 200
    and a list in which every stored task of the user appears with its id,
    owner and title, and in which every entry carries the id of a stored
    task of that user; the collection is left as it is. *)
Theorem getTasks_lists_the_tasks_of_the_user (userId : string) (w : World) :
  firestoreAnswers w ->
  (forall id doc, tasks w !! id = Some doc -> ownedBy userId doc -> isListable doc) ->
  exists items w',
    getTasks userId w = (JS.Normal (mkResponse 200 (JArr items)), w')
    /\ tasks w' = tasks w
    /\ (forall id doc,
          tasks w !! id = Some doc -> ownedBy userId doc ->
          exists o, In (JObj o) items
                    /\ o !! "id" = Some (JStr id)
                    /\ o !! "userId" = Some (JStr userId)
                    /\ o !! "title" = Some (field doc "title"))
    /\ (forall item,
          In item items ->
          exists id doc o,
            item = JObj o /\ o !! "id" = Some (JStr id)
            /\ tasks w !! id = Some doc /\ ownedBy userId doc).
Proof.
  intros Hup Hlistable.
  destruct (getTasksOf_answers userId w Hup) as (docs & w' & Hdocs & Ht & Hin).
  destruct (mapC_total taskOfDoc docs) as [items Hitems].
  { intros [id doc] Hdoc. apply Hin in Hdoc as [Hdoc Howner].
    destruct (taskOfDoc_listable id doc (Hlistable id doc Hdoc Howner)) as (o & -> & _).
    eauto. }
  exists items, w'. split; [|split; [exact Ht|]].
  - unfold getTasks, try_catch, getTasks_try.
    rewrite (bind_normal _ _ _ _ _ Hdocs). unfold bind, lift, ret. now rewrite Hitems.
  - destruct (mapC_spec _ _ _ Hitems) as [Hall Honly]. split.
    + intros id doc Hdoc Howner.
      destruct (Hall (id, doc)) as (item & Hitem & E); [now apply Hin|].
      destruct (taskOfDoc_listable id doc (Hlistable id doc Hdoc Howner))
        as (o & E' & Hid & Huser & Htitle).
      exists o. rewrite E' in E. injection E as <-.
      repeat split; try assumption.
      rewrite Huser. unfold field. now rewrite Howner.
    + intros item Hitem. destruct (Honly item Hitem) as ([id doc] & Hdoc & E).
      apply Hin in Hdoc as [Hdoc Howner].
      destruct (taskOfDoc_id id doc item E) as (o & -> & Hid).
      exists id, doc, o. auto.
Qed.

Lemma getTasks_lists_the_tasks_of_the_user_witness :
  exists items w',
    getTasks "u1" RouteExamples.one_task = (JS.Normal (mkResponse 200 (JArr items)), w')
    /\ exists o, In (JObj o) items /\ o !! "id" = Some (JStr "t2").
Proof.
  destruct (getTasks_lists_the_tasks_of_the_user "u1" RouteExamples.one_task)
    as (items & w' & E & _ & Hall & _).
  - constructor.
  - intros id doc Hdoc _. revert id doc Hdoc.
    apply (allTasks_insert isListable); [apply walk_task_isListable|apply allTasks_empty].
  - exists items, w'. split; [exact E|].
    destruct (Hall "t2" RouteExamples.walk_task) as (o & Ho & Hid & _);
      [reflexivity|reflexivity|eauto].
Defined.

(** X21: one task of the user whose [scheduledTime], [createdAt] or
    [updatedAt] is missing or is not a timestamp makes the list route fail
    for the whole list: when Firestore answers, the response is status 500
    with the error ["Failed to fetch tasks"]. *)
Theorem getTasks_fails_on_one_unlistable_task (userId : string) (w : World)
    (id : string) (doc : Obj) :
  firestoreAnswers w ->
  tasks w !! id = Some doc ->
  ownedBy userId doc ->
  ~ isListable doc ->
  exists w',
    getTasks userId w = (JS.Normal (errorJson 500 "Failed to fetch tasks"), w')
    /\ tasks w' = tasks w.
Proof.
  intros Hup Hdoc Howner Hnot.
  destruct (getTasksOf_answers userId w Hup) as (docs & w' & Hdocs & Ht & Hin).
  destruct (mapC_throws taskOfDoc docs (id, doc)) as [e He].
  { now apply Hin. }
  { now apply taskOfDoc_not_listable. }
  exists w'. split; [|exact Ht].
  unfold getTasks, try_catch, getTasks_try.
  rewrite (bind_normal _ _ _ _ _ Hdocs). unfold bind, lift, ret. now rewrite He.
Qed.

Lemma getTasks_fails_on_one_unlistable_task_witness :
  exists w',
    getTasks "u1" RouteExamples.two_tasks
    = (JS.Normal (errorJson 500 "Failed to fetch tasks"), w')
    /\ tasks w' = tasks RouteExamples.two_tasks.
Proof.
  apply (getTasks_fails_on_one_unlistable_task "u1" RouteExamples.two_tasks "t0"
           RouteExamples.zero_xp_task).
  - constructor.
  - reflexivity.
  - reflexivity.
  - intros [[s Hs] _]. vm_compute in Hs. discriminate.
Defined.

(** *** What the validated creation paths store *)


Section WithLibrary.
Variable JSON_parse : string -> JS.completion JsVal.
Variable Date_new : JsVal -> option Z.
Variable Timestamp_fromDate : JsVal -> JS.completion JsVal.




End WithLibrary.

End Requests.

(** ** Cutting the JSON out of the model's answer *)

Section Matching.
Import Routes.

Lemma append_cons (a : ascii) (s t : string) :
  (String a s ++ t)%string = String a (s ++ t)%string.
Proof. reflexivity. Qed.

Lemma append_empty (t : string) : (EmptyString ++ t)%string = t.
Proof. reflexivity. Qed.

Lemma append_assoc (s t u : string) : ((s ++ t) ++ u)%string = (s ++ (t ++ u))%string.
Proof.
  induction s as [|a s IH]; [reflexivity|]. rewrite !append_cons. now rewrite IH.
Qed.

Lemma occurs_app (c : ascii) (s t : string) :
  occurs c (s ++ t) = occurs c s || occurs c t.
Proof.
  induction s as [|a s IH]; [reflexivity|].
  rewrite append_cons. cbn [occurs]. now rewrite IH, orb_assoc.
Qed.

Lemma fromFirst_some (c : ascii) (s rest : string) :
  fromFirst c s = Some rest ->
  exists pre, s = (pre ++ String c rest)%string /\ occurs c pre = false.
Proof.
  revert rest. induction s as [|a s IH]; intros rest; cbn [fromFirst]; [discriminate|].
  destruct (Ascii.eqb a c) eqn:E.
  - apply Ascii.eqb_eq in E as ->. intros [= <-]. exists EmptyString. auto.
  - intros H. destruct (IH rest H) as (pre & -> & Hpre).
    exists (String a pre). rewrite append_cons. cbn [occurs]. now rewrite E, Hpre.
Qed.

Lemma fromFirst_none (c : ascii) (s : string) :
  fromFirst c s = None -> occurs c s = false.
Proof.
  induction s as [|a s IH]; cbn [fromFirst occurs]; [reflexivity|].
  destruct (Ascii.eqb a c); [discriminate|exact IH].
Qed.

Lemma uptoLast_none (c : ascii) (s : string) :
  uptoLast c s = None -> occurs c s = false.
Proof.
  induction s as [|a s IH]; cbn [uptoLast occurs]; [reflexivity|].
  destruct (uptoLast c s); [discriminate|].
  destruct (Ascii.eqb a c); [discriminate|]. intros _. now apply IH.
Qed.

Lemma uptoLast_some (c : ascii) (s p : string) :
  uptoLast c s = Some p ->
  exists q post,
    p = (q ++ String c EmptyString)%string /\ s = (p ++ post)%string
    /\ occurs c post = false.
Proof.
  revert p. induction s as [|a s IH]; intros p; cbn [uptoLast]; [discriminate|].
  destruct (uptoLast c s) as [p'|] eqn:E.
  - intros [= <-]. destruct (IH p' eq_refl) as (q & post & -> & Hs & Hpost).
    exists (String a q), post. rewrite !append_cons. now rewrite Hs at 1.
  - destruct (Ascii.eqb a c) eqn:Ea; [|discriminate].
    apply Ascii.eqb_eq in Ea as ->. intros [= <-].
    exists EmptyString, s. rewrite append_empty, append_cons, append_empty.
    split; [reflexivity|]. split; [reflexivity|]. now apply uptoLast_none.
Qed.

(** What follows the first [o] contains what follows any [o]. *)
Lemma after_first (o : ascii) (pre0 rest pre tail : string) :
  occurs o pre0 = false ->
  (pre0 ++ String o rest = pre ++ String o tail)%string ->
  exists d, rest = (d ++ tail)%string.
Proof.
  revert pre. induction pre0 as [|a pre0 IH]; intros pre Hpre0.
  - rewrite append_empty. destruct pre as [|b pre].
    + rewrite append_empty. intros [= ->]. now exists EmptyString.
    + rewrite append_cons. intros [= _ ->].
      exists (pre ++ String o EmptyString)%string.
      now rewrite append_assoc, append_cons, append_empty.
  - cbn [occurs] in Hpre0. apply orb_false_elim in Hpre0 as [Ha Hpre0].
    rewrite append_cons. destruct pre as [|b pre].
    + rewrite append_empty. intros [= -> _]. now rewrite Ascii.eqb_refl in Ha.
    + rewrite append_cons. intros [= _ H]. exact (IH pre Hpre0 H).
Qed.

(** X23: [text.match(/O[\s\S]*C/)] for an opening and a closing character,
    as the AI routes use it with braces and brackets, returns the stretch
    from the first opening character to the last closing character after
    it: the match starts with [O] and ends with [C], nothing before it
    contains [O] and nothing after it contains [C]; and there is no match
    only when no [O] is followed anywhere by a [C]. *)
Theorem matchBetween_is_leftmost_longest (o c : ascii) (text : string) :
  match matchBetween o c text with
  | Some found =>
      exists pre inner post,
        text = (pre ++ found ++ post)%string
        /\ found = String o (inner ++ String c EmptyString)%string
        /\ occurs o pre = false
        /\ occurs c post = false
  | None =>
      forall pre inner post,
        text <> (pre ++ String o (inner ++ String c post))%string
  end.
Proof.
  unfold matchBetween.
  destruct (fromFirst o text) as [rest|] eqn:Efirst.
  - destruct (fromFirst_some _ _ _ Efirst) as (pre & -> & Hpre).
    destruct (uptoLast c rest) as [p|] eqn:Elast.
    + destruct (uptoLast_some _ _ _ Elast) as (inner & post & -> & -> & Hpost).
      exists pre, inner, post. now rewrite append_cons.
    + intros pre' inner post' H.
      destruct (after_first _ _ _ _ _ Hpre H) as [d ->].
      apply uptoLast_none in Elast.
      rewrite !occurs_app in Elast. cbn [occurs] in Elast.
      rewrite Ascii.eqb_refl in Elast. cbn in Elast.
      now rewrite !orb_true_r in Elast.
  - intros pre inner post ->. apply fromFirst_none in Efirst.
    rewrite occurs_app in Efirst. cbn [occurs] in Efirst.
    rewrite Ascii.eqb_refl in Efirst. cbn in Efirst.
    now rewrite orb_true_r in Efirst.
Qed.

End Matching.

(** ** Loading the models *)

Section PoseLoading.
Import Async PoseLoader.

Lemma after_snoc (attempts : list Attempt) (a : Attempt) :
  after (attempts ++ [a]) = snd (initializeMoveNet a (after attempts)).
Proof. unfold after. now rewrite fold_left_app. Qed.

Lemma firstObtained_snoc (attempts : list Attempt) (a : Attempt) :
  firstObtained (attempts ++ [a])
  = match firstObtained attempts with
    | Some d => Some d
    | None => obtains a
    end.
Proof.
  induction attempts as [|b rest IH]; cbn [app firstObtained].
  - now destruct (obtains a).
  - destruct (obtains b); [reflexivity|exact IH].
Qed.

(** One initialisation from a state in which no load is in flight. *)
Lemma initializeMoveNet_idle (a : Attempt) (s : State) :
  isInitializing s = false ->
  let d := match detector s with Some d => Some d | None => obtains a end in
  exists log,
    initializeMoveNet a s
    = (Returned d, {| detector := d; isInitializing := false; created := created s ++ log |})
    /\ (detector s <> None -> log = []).
Proof.
  intros Hidle. destruct s as [[d|] init log]; cbn in Hidle; subst init.
  - exists []. cbn. rewrite app_nil_r. split; [reflexivity|auto].
  - unfold initializeMoveNet, fallback, obtains. cbn [detector isInitializing created].
    destruct a as [[] [] []]; cbn [tfReady moveNet blazePose andb];
      rewrite <- ?app_assoc; eexists; (split; [reflexivity|congruence]).
Qed.

Lemma after_invariant (attempts : list Attempt) :
  isInitializing (after attempts) = false
  /\ detector (after attempts) = firstObtained attempts.
Proof.
  induction attempts as [|a attempts [IHidle IHdet]] using rev_ind; [now split|].
  rewrite after_snoc, firstObtained_snoc.
  destruct (initializeMoveNet_idle a (after attempts) IHidle) as (log & -> & _).
  cbn [snd isInitializing detector]. now rewrite IHdet.
Qed.

(** X24: however many times [initializeMoveNet] is called, one call after
    the other, no call has to wait, and each returns the first detector
    that any call so far has obtained -- MoveNet when TensorFlow is ready
    and MoveNet can be created, else BlazePose when that can be created --
    or null when none has; once there is a detector, a call creates no
    further one. *)
Theorem initializeMoveNet_returns_the_first_detector (attempts : list Attempt)
    (a : Attempt) :
  exists s',
    initializeMoveNet a (after attempts)
    = (Returned (firstObtained (attempts ++ [a])), s')
    /\ detector s' = firstObtained (attempts ++ [a])
    /\ isInitializing s' = false
    /\ (firstObtained attempts <> None -> s' = after attempts).
Proof.
  destruct (after_invariant attempts) as [Hidle Hdet].
  destruct (initializeMoveNet_idle a (after attempts) Hidle) as (log & E & Hlog).
  rewrite firstObtained_snoc, <- Hdet. eexists. split; [exact E|].
  split; [reflexivity|]. split; [reflexivity|].
  intros Hsome. rewrite (Hlog Hsome), app_nil_r.
  destruct (after attempts) as [[d|] init log0]; cbn in *; congruence.
Qed.

(** X25: [detectPose] after any such calls returns null exactly when no
    detector has been or can now be obtained, or [estimatePoses] throws;
    otherwise it returns the estimated poses. It never waits. *)
Theorem detectPose_returns_null_without_a_detector (attempts : list Attempt)
    (a : Attempt) (estimate : option (list Pose.Pose)) :
  fst (detectPose a estimate (after attempts))
  = Returned (match firstObtained (attempts ++ [a]) with
              | Some _ => estimate
              | None => None
              end).
Proof.
  destruct (after_invariant attempts) as [Hidle Hdet].
  rewrite firstObtained_snoc, <- Hdet. unfold detectPose.
  destruct (detector (after attempts)) as [d|] eqn:Ed.
  - now rewrite Ed.
  - destruct (initializeMoveNet_idle a (after attempts) Hidle) as (log & -> & _).
    rewrite Ed. cbn [detector]. now destruct (obtains a).
Qed.

End PoseLoading.

Section FaceLoading.
Import Async FaceApiLoader.

Lemma tryUrls_loaded (loads : string -> bool) (urls : list string) :
  fst (tryUrls loads urls) = existsb loads urls.
Proof.
  induction urls as [|url rest IH]; cbn [tryUrls existsb]; [reflexivity|].
  destruct (loads url); [reflexivity|].
  destruct (tryUrls loads rest). exact IH.
Qed.

(** The loop tries the URLs in order and stops at the first that loads. *)
Lemma tryUrls_tried (loads : string -> bool) (urls : list string) :
  exists failed rest,
    urls = failed ++ rest
    /\ Forall (fun url => loads url = false) failed
    /\ match rest with
       | [] => tryUrls loads urls = (false, failed)
       | url :: _ => loads url = true /\ tryUrls loads urls = (true, failed ++ [url])
       end.
Proof.
  induction urls as [|url urls (failed & rest & Hurls & Hfailed & Hrest)].
  - exists [], []. now repeat split.
  - cbn [tryUrls]. destruct (loads url) eqn:E.
    + exists [], (url :: urls). now repeat split.
    + exists (url :: failed), rest. split; [now rewrite Hurls|].
      split; [now constructor|].
      destruct rest as [|next rest].
      * now rewrite Hrest.
      * destruct Hrest as [Hnext ->]. now split.
Qed.

(** X26: when the models are not loaded and no load is in flight,
    [initializeFaceAPI] tries the three sources in their order and stops
    at the first from which both networks load: it returns true after
    requesting that source last, following only sources that failed, or
    returns false after requesting all three in vain. It throws nothing
    and leaves [isInitializing] false. *)
Theorem initializeFaceAPI_stops_at_the_first_source_that_works
    (loads : string -> bool) (s : State) :
  modelsLoaded s = false ->
  isInitializing s = false ->
  exists failed rest,
    MODEL_URLS = failed ++ rest
    /\ Forall (fun url => loads url = false) failed
    /\ match rest with
       | [] =>
           initializeFaceAPI loads s
           = (Returned false,
              {| modelsLoaded := false; isInitializing := false;
                 requested := requested s ++ MODEL_URLS |})
       | url :: _ =>
           loads url = true
           /\ initializeFaceAPI loads s
              = (Returned true,
                 {| modelsLoaded := true; isInitializing := false;
                    requested := requested s ++ failed ++ [url] |})
       end.
Proof.
  intros Hloaded Hidle.
  destruct (tryUrls_tried loads MODEL_URLS) as (failed & rest & Hurls & Hfailed & Hrest).
  exists failed, rest. split; [exact Hurls|]. split; [exact Hfailed|].
  unfold initializeFaceAPI. rewrite Hloaded, Hidle.
  destruct rest as [|url rest].
  - rewrite Hrest, Hurls, app_nil_r. reflexivity.
  - destruct Hrest as [Hurl ->]. now split.
Qed.

Lemma initializeFaceAPI_stops_at_the_first_source_that_works_witness :
  exists failed rest,
    MODEL_URLS = failed ++ rest
    /\ Forall (fun url => Examples.unpkg_only url = false) failed
    /\ match rest with
       | [] =>
           initializeFaceAPI Examples.unpkg_only initial
           = (Returned false,
              {| modelsLoaded := false; isInitializing := false;
                 requested := requested initial ++ MODEL_URLS |})
       | url :: _ =>
           Examples.unpkg_only url = true
           /\ initializeFaceAPI Examples.unpkg_only initial
              = (Returned true,
                 {| modelsLoaded := true; isInitializing := false;
                    requested := requested initial ++ failed ++ [url] |})
       end.
Proof.
  apply (initializeFaceAPI_stops_at_the_first_source_that_works
           Examples.unpkg_only initial); reflexivity.
Defined.

Lemma face_after_snoc (calls : list (string -> bool)) (loads : string -> bool) :
  after (calls ++ [loads]) = snd (initializeFaceAPI loads (after calls)).
Proof. unfold after. now rewrite fold_left_app. Qed.

Lemma someSourceWorks_snoc (calls : list (string -> bool)) (loads : string -> bool) :
  someSourceWorks (calls ++ [loads]) = someSourceWorks calls || existsb loads MODEL_URLS.
Proof. unfold someSourceWorks. rewrite existsb_app. cbn [existsb]. now rewrite orb_false_r. Qed.

Lemma initializeFaceAPI_idle (loads : string -> bool) (s : State) :
  isInitializing s = false ->
  exists s',
    initializeFaceAPI loads s = (Returned (modelsLoaded s || existsb loads MODEL_URLS), s')
    /\ modelsLoaded s' = modelsLoaded s || existsb loads MODEL_URLS
    /\ isInitializing s' = false
    /\ (modelsLoaded s = true -> s' = s).
Proof.
  intros Hidle. unfold initializeFaceAPI. rewrite Hidle.
  destruct (modelsLoaded s) eqn:Hloaded; [exists s; now repeat split|].
  rewrite <- (tryUrls_loaded loads MODEL_URLS).
  destruct (tryUrls loads MODEL_URLS) as [[] tried]; cbn [fst orb];
    eexists; (split; [reflexivity|]); cbn; repeat split; discriminate.
Qed.

Lemma face_after_invariant (calls : list (string -> bool)) :
  isInitializing (after calls) = false
  /\ modelsLoaded (after calls) = someSourceWorks calls.
Proof.
  induction calls as [|loads calls [IHidle IHloaded]] using rev_ind; [now split|].
  rewrite face_after_snoc, someSourceWorks_snoc.
  destruct (initializeFaceAPI_idle loads (after calls) IHidle) as (s' & -> & Hl & Hi & _).
  cbn [snd]. now rewrite Hi, Hl, IHloaded.
Qed.

(** X27: however many times [initializeFaceAPI] is called, one call after
    the other, no call has to wait, a call returns true exactly when in
    this or an earlier call some source worked, and once a call has
    returned true a later call requests nothing and changes nothing; after
    a call that returned false the next one tries the sources again. *)
Theorem initializeFaceAPI_loads_once (calls : list (string -> bool))
    (loads : string -> bool) :
  exists s',
    initializeFaceAPI loads (after calls)
    = (Returned (someSourceWorks (calls ++ [loads])), s')
    /\ modelsLoaded s' = someSourceWorks (calls ++ [loads])
    /\ isInitializing s' = false
    /\ (someSourceWorks calls = true -> s' = after calls)
    /\ (someSourceWorks calls = false ->
        requested s' <> requested (after calls)).
Proof.
  destruct (face_after_invariant calls) as [Hidle Hloaded].
  destruct (initializeFaceAPI_idle loads (after calls) Hidle) as (s' & E & Hl & Hi & Hsame).
  rewrite someSourceWorks_snoc, <- Hloaded.
  exists s'. split; [exact E|]. split; [exact Hl|]. split; [exact Hi|].
  split; [exact Hsame|].
  intros Hnone. revert E. unfold initializeFaceAPI. rewrite Hnone, Hidle.
  destruct (tryUrls loads MODEL_URLS) as [loaded tried] eqn:Etry.
  assert (Htried : tried <> []).
  { revert Etry. unfold MODEL_URLS. cbn [tryUrls].
    destruct (loads _); [intros [= _ <-]; discriminate|].
    destruct (loads _); [intros [= _ <-]; discriminate|].
    destruct (loads _); intros [= _ <-]; discriminate. }
  destruct loaded; intros [= _ <-]; cbn [requested]; intros Heq;
    apply Htried; apply (app_inv_head (requested (after calls)));
    now rewrite app_nil_r.
Qed.

End FaceLoading.

Section PanelLoading.
Import Async.








End PanelLoading.
